(** * job-scanner: scraping pipeline, classifier and job store

    A shallow embedding of the parts of the repository that the
    specification talks about:

    - [helpers]       : [src/utils/helpers.py]
    - [base_scraper], [scraper_context] : [src/scrapers/base_scraper.py]
    - [LinkedInScraper], [GoogleScraper] : the two relative-date parsers
    - [linkedin_scraper], [adapters] : the [parse_job] of five adapters
    - [job_store], [JobStore] : [src/database/job_store.py]
    - [main], [main_process] : the orchestrator of [main.py]

    Conventions of the embedding.

    - A Python [str] is a [string] of bytes (its UTF-8 encoding).
      [lower] folds the ASCII letters, and the whitespace class of
      [split()] and [\s] and the digit class of [\d] are the ASCII ones.
      Python's own functions do more on a few characters outside ASCII;
      a property that depends on them names, in its hypotheses, the
      strings on which the two agree ([Props.is_ascii],
      [Props.folds_as_ascii], [Props.plain_word]).
    - A naive [datetime] is the number of microseconds since
      0001-01-01T00:00:00 ([datetime.min]), a [timedelta] a number of
      microseconds; both are in [Z].  A [datetime] object in general is an
      [any_datetime]: naive, or aware of its UTC offset.
    - Code that raises and mutates is written in a state-and-exception
      monad [M W A := W -> result A * W]: the state reached before a
      [raise] is kept, as in Python. *)

From Stdlib Require Import ZArith List String Ascii Bool Lia.
Import ListNotations.

Set Implicit Arguments.

(* ===================================================================== *)
(** * Python built-ins used by the sources                                *)
(* ===================================================================== *)

Module Py.

Local Open Scope string_scope.

(** ** Exceptions and the monad *)

(** [except Exception] catches the instances of [Exception]; the classes
    that derive from [BaseException] only ([KeyboardInterrupt],
    [SystemExit], [GeneratorExit]) pass through it.  A bare [except:]
    catches both. *)
Inductive exn : Type :=
| PyException (cls : string)
| PyBaseException (cls : string).

Definition is_Exception (e : exn) : bool :=
  match e with PyException _ => true | PyBaseException _ => false end.

Inductive result (A : Type) : Type :=
| Ok (a : A)
| Raise (e : exn).
Arguments Ok {A} a.
Arguments Raise {A} e.

Definition M (W A : Type) : Type := W -> result A * W.

Definition ret {W A} (a : A) : M W A := fun w => (Ok a, w).

Definition raise {W A} (e : exn) : M W A := fun w => (Raise e, w).

Definition bind {W A B} (m : M W A) (k : A -> M W B) : M W B :=
  fun w => match m w with
           | (Ok a, w') => k a w'
           | (Raise e, w') => (Raise e, w')
           end.

Definition get {W} : M W W := fun w => (Ok w, w).

Definition modify {W} (f : W -> W) : M W unit := fun w => (Ok tt, f w).

(** a computation that touches no state, run in the monad *)
Definition lift {W A} (r : result A) : M W A := fun w => (r, w).

(** [try: body except Exception as e: handler e] *)
Definition try_except_Exception {W A} (body : M W A) (handler : exn -> M W A)
  : M W A :=
  fun w => match body w with
           | (Raise (PyException c), w') => handler (PyException c) w'
           | r => r
           end.

(** The same on a computation that touches no state: [rbind] sequences,
    [except_all] is [try: r except: return dflt] and [except_Exception]
    is [try: r except Exception: return dflt]. *)
Definition rbind {A B} (r : result A) (k : A -> result B) : result B :=
  match r with
  | Ok a => k a
  | Raise e => Raise e
  end.

Definition except_all {A} (r : result A) (dflt : A) : A :=
  match r with
  | Ok a => a
  | Raise _ => dflt
  end.

Definition except_Exception {A} (r : result A) (dflt : A) : result A :=
  match r with
  | Raise (PyException _) => Ok dflt
  | _ => r
  end.

Declare Scope py_scope.
Delimit Scope py_scope with py.
Notation "x <- m ;; k" := (bind m (fun x => k))
  (at level 61, m at next level, right associativity) : py_scope.
Notation "m ;;; k" := (bind m (fun _ => k))
  (at level 61, right associativity) : py_scope.

(** ** Strings *)

Definition in_range (lo hi : nat) (c : ascii) : bool :=
  let n := nat_of_ascii c in (lo <=? n)%nat && (n <=? hi)%nat.

(** [c.lower()] on one character of ASCII; the bytes of a character
    outside ASCII are left as they are *)
Definition lower_char (c : ascii) : ascii :=
  if in_range 65 90 c then ascii_of_nat (nat_of_ascii c + 32) else c.

(** [s.lower()], for the ASCII letters of [s] *)
Fixpoint lower (s : string) : string :=
  match s with
  | EmptyString => EmptyString
  | String c r => String (lower_char c) (lower r)
  end.

(** [sub in s] *)
Fixpoint str_in (sub s : string) : bool :=
  prefix sub s ||
  match s with
  | EmptyString => false
  | String _ r => str_in sub r
  end.

(** [c.isspace()] in ASCII: tab, LF, VT, FF, CR, the separators
    0x1c-0x1f, space *)
Definition isspace (c : ascii) : bool := in_range 9 13 c || in_range 28 32 c.

(** [c.isdigit()] *)
Definition isdigit (c : ascii) : bool := in_range 48 57 c.

(** [s.split()]: the maximal runs of non-whitespace characters.  [cur] is
    the word being read. *)
Definition flush_word (cur : string) (ws : list string) : list string :=
  match cur with
  | EmptyString => ws
  | _ => cur :: ws
  end.

Fixpoint split_from (cur : string) (s : string) : list string :=
  match s with
  | EmptyString => flush_word cur []
  | String c r =>
      if isspace c then flush_word cur (split_from EmptyString r)
      else split_from (cur ++ String c EmptyString) r
  end.

Definition split (s : string) : list string := split_from EmptyString s.

(** [sep.join(ws)] *)
Fixpoint join (sep : string) (ws : list string) : string :=
  match ws with
  | [] => EmptyString
  | [w] => w
  | w :: rest => w ++ sep ++ join sep rest
  end.

(** [s.replace(old, new)]: every non-overlapping occurrence, scanning from
    the left.  [skip] counts the characters of a replaced occurrence that
    are still to be dropped. *)
Fixpoint replace_from (old new : string) (skip : nat) (s : string) : string :=
  match s with
  | EmptyString => EmptyString
  | String c r =>
      match skip with
      | S k => replace_from old new k r
      | O =>
          if prefix old s
          then new ++ replace_from old new (String.length old - 1) r
          else String c (replace_from old new 0 r)
      end
  end.

(** with an empty [old], Python puts [new] before every character and at
    the end *)
Fixpoint intersperse (new s : string) : string :=
  match s with
  | EmptyString => new
  | String c r => new ++ String c (intersperse new r)
  end.

Definition replace (old new s : string) : string :=
  match old with
  | EmptyString => intersperse new s
  | _ => replace_from old new 0 s
  end.

(** [int(ds)] for a string of ASCII digits *)
Definition digit_val (c : ascii) : Z := Z.of_nat (nat_of_ascii c - 48)%nat.

Fixpoint int_from (acc : Z) (ds : string) : Z :=
  match ds with
  | EmptyString => acc
  | String c r => int_from (10 * acc + digit_val c)%Z r
  end.

Definition int (ds : string) : Z := int_from 0 ds.

(** ** datetime and timedelta *)

Local Open Scope Z_scope.

Definition datetime := Z.
Definition timedelta := Z.

Definition us_per_second : Z := 1000000.
Definition us_per_hour : Z := 3600 * us_per_second.
Definition us_per_day : Z := 86400 * us_per_second.

(** [datetime.min] is 0; [datetime.max] is 9999-12-31T23:59:59.999999,
    the last microsecond of day 3652059. *)
Definition datetime_min : datetime := 0.
Definition datetime_max : datetime := 3652059 * us_per_day - 1.

(** [delta.days]: a timedelta is normalised with [0 <= seconds < 86400] and
    [0 <= microseconds < 10^6], so [days] is the floor of the quotient. *)
Definition td_days (delta : timedelta) : Z := Z.div delta us_per_day.

(** [timedelta(...)] raises [OverflowError] unless
    [-999999999 <= days <= 999999999]. *)
Definition timedelta_ok (delta : timedelta) : bool :=
  ((-999999999 <=? td_days delta) && (td_days delta <=? 999999999))%Z.

Definition mk_timedelta (us : Z) : result timedelta :=
  if timedelta_ok us then Ok us else Raise (PyException "OverflowError").

Definition timedelta_days (n : Z) : result timedelta := mk_timedelta (n * us_per_day).
Definition timedelta_hours (n : Z) : result timedelta := mk_timedelta (n * us_per_hour).
Definition timedelta_weeks (n : Z) : result timedelta := mk_timedelta (7 * n * us_per_day).

(** [d - delta] raises [OverflowError] outside [datetime.min, datetime.max]. *)
Definition datetime_sub (d : datetime) (delta : timedelta) : result datetime :=
  let r := (d - delta)%Z in
  if ((datetime_min <=? r) && (r <=? datetime_max))%Z then Ok r
  else Raise (PyException "OverflowError").

(** [d1 - d2] for two naive datetimes *)
Definition datetime_diff (d1 d2 : datetime) : timedelta := (d1 - d2)%Z.

(** A [datetime] object is naive, or it is aware: it then has a [tzinfo]
    that gives a UTC offset.  [datetime.now()] is naive, and so is a naive
    datetime minus a [timedelta]; [datetime.fromisoformat] returns an aware
    one for a string that ends in an offset ("+00:00"). *)
Inductive any_datetime : Type :=
| naive (d : datetime)
| aware (d : datetime) (utcoffset : timedelta).

Definition is_aware (d : option any_datetime) : bool :=
  match d with
  | Some (aware _ _) => true
  | _ => false
  end.

(** [d1 - d2] for a naive [d1]: subtracting an aware datetime from a naive
    one raises [TypeError] ("can't subtract offset-naive and offset-aware
    datetimes"). *)
Definition sub_datetime (d1 : datetime) (d2 : any_datetime) : result timedelta :=
  match d2 with
  | naive d => Ok (datetime_diff d1 d)
  | aware _ _ => Raise (PyException "TypeError")
  end.

End Py.

(* ===================================================================== *)
(** * src/utils/helpers.py                                                *)
(* ===================================================================== *)

Module helpers.
Import Py.
Local Open Scope string_scope.

(** The value returned by [days_since_posted]: an [int], or
    [float('inf')]. *)
Inductive days : Type :=
| Finite (n : Z)
| Infinity.

(** [age > max_age_days] for an integer bound *)
Definition days_gt (age : days) (bound : Z) : bool :=
  match age with
  | Finite n => (bound <? n)%Z
  | Infinity => true
  end.

(** [now] is the reading of [datetime.now()] taken by the call; the
    subtraction raises when [posted_date] is aware. *)
Definition days_since_posted (now : datetime) (posted_date : option any_datetime)
  : result days :=
  match posted_date with
  | None => Ok Infinity
  | Some d =>
      rbind (sub_datetime now d) (fun delta =>
      Ok (Finite (td_days delta)))
  end.

(** The dict [mappings], in insertion order. *)
Definition mappings : list (string * string) :=
  [ ("United Arab Emirates", "UAE");
    ("U.A.E.", "UAE");
    ("Deutschland", "Germany");
    ("España", "Spain");
    ("Polska", "Poland");
    ("Nederland", "Netherlands");
    ("Éire", "Ireland") ].

Definition apply_mappings (table : list (string * string)) (location : string)
  : string :=
  fold_left (fun loc m => replace (fst m) (snd m) loc) table location.

Definition normalize_location (location : string) : string :=
  match location with
  | EmptyString => EmptyString
  | _ =>
      let location := join " " (split location) in
      apply_mappings mappings location
  end.

Definition eu_countries : list string :=
  [ "Austria"; "Belgium"; "Bulgaria"; "Croatia"; "Cyprus";
    "Czech Republic"; "Czechia"; "Denmark"; "Estonia"; "Finland";
    "France"; "Germany"; "Greece"; "Hungary"; "Ireland";
    "Italy"; "Latvia"; "Lithuania"; "Luxembourg"; "Malta";
    "Netherlands"; "Poland"; "Portugal"; "Romania"; "Slovakia";
    "Slovenia"; "Spain"; "Sweden" ].

Definition is_eu_location (location : string) : bool :=
  let location_lower := lower location in
  existsb (fun country => str_in (lower country) location_lower) eu_countries.

Definition uae_indicators : list string :=
  [ "uae"; "dubai"; "abu dhabi"; "sharjah"; "united arab emirates" ].

Definition is_uae_location (location : string) : bool :=
  let location_lower := lower location in
  existsb (fun indicator => str_in indicator location_lower) uae_indicators.

End helpers.

(* ===================================================================== *)
(** * src/scrapers/base_scraper.py                                        *)
(* ===================================================================== *)

Module base_scraper.
Import Py helpers.
Local Open Scope string_scope.
Local Open Scope py_scope.

(** The dataclass [Job]. *)
Record Job : Type := mkJob {
  id : string;
  title : string;
  company : string;
  location : string;
  description : string;
  url : string;
  posted_date : option any_datetime;
  requirements : list string;
  keywords : list string;
  is_eu : bool;
  is_uae : bool;
  scraped_at : datetime
}.

(** Job objects are mutable and shared by reference: the heap maps the
    address of an object to its current fields. *)
Definition addr := nat.
Definition Heap := addr -> Job.

Definition upd (h : Heap) (a : addr) (j : Job) : Heap :=
  fun b => if Nat.eqb b a then j else h b.

Definition with_is_eu (v : bool) (j : Job) : Job :=
  mkJob (id j) (title j) (company j) (location j) (description j) (url j)
        (posted_date j) (requirements j) (keywords j) v (is_uae j)
        (scraped_at j).

Definition with_is_uae (v : bool) (j : Job) : Job :=
  mkJob (id j) (title j) (company j) (location j) (description j) (url j)
        (posted_date j) (requirements j) (keywords j) (is_eu j) v
        (scraped_at j).

(** [job.f] and [job.f = v] *)
Definition getattr {A} (f : Job -> A) (job : addr) : M Heap A :=
  fun h => (Ok (f (h job)), h).

Definition setattr (f : Job -> Job) (job : addr) : M Heap unit :=
  modify (fun h => upd h job (f (h job))).

(** [list.sort(key=...)] is a stable sort; the keys here are pairs of
    booleans, compared as Python compares tuples ([False < True]). *)
Definition bool_lt (a b : bool) : bool := negb a && b.

Definition key_lt (k1 k2 : bool * bool) : bool :=
  bool_lt (fst k1) (fst k2) ||
  (Bool.eqb (fst k1) (fst k2) && bool_lt (snd k1) (snd k2)).

Fixpoint insert_by {A} (key : A -> bool * bool) (x : A) (l : list A) : list A :=
  match l with
  | [] => [x]
  | y :: r => if key_lt (key y) (key x) then y :: insert_by key x r
              else x :: y :: r
  end.

Definition sort_by {A} (key : A -> bool * bool) (l : list A) : list A :=
  fold_right (insert_by key) [] l.

(** A scraper object: the filtering criteria read from the configuration
    by [__init__], and the two abstract methods of the adapter.  [raw] is
    the adapter's raw record; [parse_job] returns the address of the [Job]
    it built, or [None]. *)
Record BaseScraper (raw : Type) : Type := mkScraper {
  job_titles : list string;
  max_age_days : Z;
  fetch_jobs : M Heap (list raw);
  parse_job : raw -> M Heap (option addr)
}.

Section Pipeline.
Variable raw : Type.
Variable self : BaseScraper raw.

(** [any(title.lower() in job.title.lower() for title in self.job_titles)] *)
Definition title_match (job_title : string) : bool :=
  existsb (fun title => str_in (lower title) (lower job_title))
          (job_titles self).

(** [if job.posted_date: age = ...; if age > self.max_age_days: continue];
    a [datetime] object is always truthy. *)
Definition too_old (now : datetime) (posted : option any_datetime)
  : result bool :=
  match posted with
  | Some d =>
      rbind (days_since_posted now (Some d)) (fun age =>
      Ok (days_gt age (max_age_days self)))
  | None => Ok false
  end.

(** The [for job in jobs] loop of [filter_jobs]; [filtered] is the list
    built so far. *)
Fixpoint filter_loop (now : datetime) (jobs : list addr) (filtered : list addr)
  : M Heap (list addr) :=
  match jobs with
  | [] => ret filtered
  | job :: rest =>
      job_title <- getattr title job ;;
      if negb (title_match job_title) then filter_loop now rest filtered
      else
        posted <- getattr posted_date job ;;
        old <- lift (too_old now posted) ;;
        if old then filter_loop now rest filtered
        else
          raw_location <- getattr location job ;;
          let normalized_location := normalize_location raw_location in
          setattr (with_is_eu (is_eu_location normalized_location)) job ;;;
          setattr (with_is_uae (is_uae_location normalized_location)) job ;;;
          filter_loop now rest (filtered ++ [job])
  end.

(** [lambda j: (not j.is_eu, not j.is_uae)], read from the heap *)
Definition sort_key (h : Heap) (j : addr) : bool * bool :=
  (negb (is_eu (h j)), negb (is_uae (h j))).

Definition filter_jobs (now : datetime) (jobs : list addr) : M Heap (list addr) :=
  filtered <- filter_loop now jobs [] ;;
  h <- get ;;
  ret (sort_by (sort_key h) filtered).

(** The [for raw_job in raw_jobs] loop of [scrape]; a [Job] object is
    truthy, [None] is not. *)
Fixpoint parse_loop (raw_jobs : list raw) (jobs : list addr)
  : M Heap (list addr) :=
  match raw_jobs with
  | [] => ret jobs
  | raw_job :: rest =>
      job <- parse_job self raw_job ;;
      match job with
      | Some a => parse_loop rest (jobs ++ [a])
      | None => parse_loop rest jobs
      end
  end.

(** [scrape]; the logger calls are omitted. *)
Definition scrape (now : datetime) : M Heap (list addr) :=
  try_except_Exception
    (raw_jobs <- fetch_jobs self ;;
     jobs <- parse_loop raw_jobs [] ;;
     filtered_jobs <- filter_jobs now jobs ;;
     ret filtered_jobs)
    (fun e => ret []).

End Pipeline.

End base_scraper.

(* ===================================================================== *)
(** * The regular expression of the relative-date parsers                 *)
(* ===================================================================== *)

(** [re.search(r'(\d+)\s*(u1|...|un)s?\s*ago', s)] for unit names that
    start with distinct letters.  Every quantifier of the pattern is
    followed by a character outside its own class, so giving back a
    character never turns a failed attempt into a match: the greedy
    left-to-right reading below finds exactly the matches of the
    backtracking matcher, and [search] returns the leftmost one as
    [(group(1), group(2))]. *)
Module re.
Import Py.
Local Open Scope string_scope.

(** the longest prefix of [s] made of characters in the class [p], and
    the rest *)
Fixpoint span (p : ascii -> bool) (s : string) : string * string :=
  match s with
  | EmptyString => (EmptyString, EmptyString)
  | String c r =>
      if p c then let (a, b) := span p r in (String c a, b)
      else (EmptyString, s)
  end.

Fixpoint strip_prefix (p s : string) : option string :=
  match p with
  | EmptyString => Some s
  | String a p' =>
      match s with
      | EmptyString => None
      | String b s' => if Ascii.eqb a b then strip_prefix p' s' else None
      end
  end.

Fixpoint match_alt (alts : list string) (s : string) : option (string * string) :=
  match alts with
  | [] => None
  | u :: rest =>
      match strip_prefix u s with
      | Some r => Some (u, r)
      | None => match_alt rest s
      end
  end.

(** [s?] *)
Definition opt_s (s : string) : string :=
  match s with
  | String "s" r => r
  | _ => s
  end.

(** a match that starts at the first character of [s] *)
Definition match_here (units : list string) (s : string)
  : option (string * string) :=
  let (digits, r1) := span isdigit s in
  match digits with
  | EmptyString => None
  | _ =>
      let r2 := snd (span isspace r1) in
      match match_alt units r2 with
      | None => None
      | Some (unit, r3) =>
          let r4 := snd (span isspace (opt_s r3)) in
          if prefix "ago" r4 then Some (digits, unit) else None
      end
  end.

Fixpoint search (units : list string) (s : string) : option (string * string) :=
  match match_here units s with
  | Some m => Some m
  | None =>
      match s with
      | EmptyString => None
      | String _ r => search units r
      end
  end.

End re.

(* ===================================================================== *)
(** * src/scrapers/linkedin_scraper.py                                    *)
(* ===================================================================== *)

Module LinkedInScraper.
Import Py.
Local Open Scope string_scope.

Definition _parse_relative_date (now : datetime) (date_str : string)
  : option datetime :=
  except_all
    (let date_lower := lower date_str in
     if str_in "just now" date_lower || str_in "today" date_lower
     then Ok (Some now)
     else
       match re.search ["day"; "week"; "month"; "hour"] date_lower with
       | Some (g1, unit) =>
           let num := int g1 in
           if unit =? "hour" then
             rbind (timedelta_hours num) (fun td =>
             rbind (datetime_sub now td) (fun d => Ok (Some d)))
           else if unit =? "day" then
             rbind (timedelta_days num) (fun td =>
             rbind (datetime_sub now td) (fun d => Ok (Some d)))
           else if unit =? "week" then
             rbind (timedelta_weeks num) (fun td =>
             rbind (datetime_sub now td) (fun d => Ok (Some d)))
           else if unit =? "month" then
             rbind (timedelta_days (num * 30)) (fun td =>
             rbind (datetime_sub now td) (fun d => Ok (Some d)))
           else Ok None
       | None => Ok None
       end)
    None.

End LinkedInScraper.

(* ===================================================================== *)
(** * src/scrapers/google_scraper.py                                      *)
(* ===================================================================== *)

Module GoogleScraper.
Import Py.
Local Open Scope string_scope.

Definition _parse_date (now : datetime) (date_str : string)
  : result (option datetime) :=
  except_Exception
    (let date_lower := lower date_str in
     if str_in "today" date_lower || str_in "just" date_lower
     then Ok (Some now)
     else if str_in "yesterday" date_lower
     then rbind (timedelta_days 1) (fun td =>
          rbind (datetime_sub now td) (fun d => Ok (Some d)))
     else
       match re.search ["day"; "week"; "month"] date_lower with
       | Some (g1, unit) =>
           let num := int g1 in
           if unit =? "day" then
             rbind (timedelta_days num) (fun td =>
             rbind (datetime_sub now td) (fun d => Ok (Some d)))
           else if unit =? "week" then
             rbind (timedelta_weeks num) (fun td =>
             rbind (datetime_sub now td) (fun d => Ok (Some d)))
           else if unit =? "month" then
             rbind (timedelta_days (num * 30)) (fun td =>
             rbind (datetime_sub now td) (fun d => Ok (Some d)))
           else Ok None
       | None => Ok None
       end)
    None.

End GoogleScraper.

(* ===================================================================== *)
(** * src/database/job_store.py                                           *)
(* ===================================================================== *)

Module job_store.
Import Py.
Local Open Scope string_scope.
Local Open Scope py_scope.

(** A date held by a job dictionary: an ISO string or a [datetime]. *)
Inductive pydate : Type :=
| DStr (s : string)
| DObj (d : datetime).

(** The dictionary [job_data].  The keys read with [job_data[...]] are
    fields; a key read with [job_data.get(...)] is [None] when the
    dictionary does not have it. *)
Record JobData : Type := mkJobData {
  jd_id : string;
  jd_title : string;
  jd_company : string;
  jd_location : option string;
  jd_description : option string;
  jd_url : option string;
  jd_posted_date : option pydate;
  jd_requirements : option (list string);
  jd_keywords : option (list string);
  jd_is_eu : option bool;
  jd_is_uae : option bool;
  jd_scraped_at : option pydate
}.

(** A row of the table [jobs]. *)
Record JobModel : Type := mkJobModel {
  id : string;
  title : string;
  company : string;
  location : string;
  description : string;
  url : string;
  posted_date : option datetime;
  requirements : string;
  keywords : string;
  is_eu : bool;
  is_uae : bool;
  scraped_at : datetime;
  notified : bool;
  notified_at : datetime;
  resume_generated : bool;
  resume_path : option string
}.

(** The session and the database behind it.  [committed] is the table as
    the database file has it, [txn] the table as the open transaction of
    the session sees it (rows in insertion order).  [faults] scripts the
    storage layer: each [commit] takes the next entry, [Some e] makes it
    raise [e] and leave the file as it was; with no entry left the commit
    succeeds.  A commit that raises leaves the view of the session as it
    was; [add_job] rolls back at once, and what the session answers after
    a failed commit that no rollback follows is not modelled beyond its
    rows. *)
Record Session : Type := mkSession {
  committed : list JobModel;
  txn : list JobModel;
  faults : list (option exn)
}.

Definition session_add (job : JobModel) : M Session unit :=
  modify (fun s => mkSession (committed s) (txn s ++ [job]) (faults s)).

Definition session_commit : M Session unit :=
  fun s =>
    match faults s with
    | Some e :: rest => (Raise e, mkSession (committed s) (txn s) rest)
    | None :: rest => (Ok tt, mkSession (txn s) (txn s) rest)
    | [] => (Ok tt, mkSession (txn s) (txn s) [])
    end.

Definition session_rollback : M Session unit :=
  modify (fun s => mkSession (committed s) (committed s) (faults s)).

(** [session.query(JobModel).filter_by(id=job_id).first()] *)
Definition query_first_by_id (job_id : string) : M Session (option JobModel) :=
  fun s => (Ok (find (fun r => id r =? job_id) (txn s)), s).

(** [session.query(JobModel).filter(p).all()] and [.count()] *)
Definition query_all (p : JobModel -> bool) : M Session (list JobModel) :=
  fun s => (Ok (filter p (txn s)), s).

Definition query_count (p : JobModel -> bool) : M Session nat :=
  fun s => (Ok (List.length (filter p (txn s))), s).

Section Store.
(** [json.dumps] on a list of strings and [datetime.fromisoformat]
    ([None] where it raises [ValueError]) are library functions. *)
Variable json_dumps : list string -> string.
Variable fromisoformat : string -> option datetime.

Definition get_default {A} (v : option A) (dflt : A) : A :=
  match v with
  | Some a => a
  | None => dflt
  end.

(** The row [JobModel(...)] that [add_job] builds from [job_data]: list
    fields as JSON strings, dates given as strings parsed, absent keys
    replaced by their defaults, and the column defaults of the model
    ([notified] and [resume_generated] false, [notified_at] the time of
    the insert, no [resume_path]).  [now] is the reading of
    [datetime.now()] during the call. *)
Definition job_row (now : datetime) (job_data : JobData) : JobModel :=
  let requirements := json_dumps (get_default (jd_requirements job_data) []) in
  let keywords := json_dumps (get_default (jd_keywords job_data) []) in
  let posted_date :=
    match jd_posted_date job_data with
    | Some (DStr s) => fromisoformat s
    | Some (DObj d) => Some d
    | None => None
    end in
  let scraped_at :=
    match get_default (jd_scraped_at job_data) (DObj now) with
    | DStr s => get_default (fromisoformat s) now
    | DObj d => d
    end in
  mkJobModel (jd_id job_data) (jd_title job_data) (jd_company job_data)
             (get_default (jd_location job_data) "")
             (get_default (jd_description job_data) "")
             (get_default (jd_url job_data) "")
             posted_date requirements keywords
             (get_default (jd_is_eu job_data) false)
             (get_default (jd_is_uae job_data) false)
             scraped_at
             false now false None.

Definition add_job (now : datetime) (job_data : JobData) : M Session bool :=
  try_except_Exception
    (existing <- query_first_by_id (jd_id job_data) ;;
     match existing with
     | Some _ => ret false
     | None =>
         let job := job_row now job_data in
         session_add job ;;;
         session_commit ;;;
         ret true
     end)
    (fun e => session_rollback ;;; raise e).

Fixpoint add_jobs_loop (now : datetime) (jobs : list JobData) (added : nat)
  : M Session nat :=
  match jobs with
  | [] => ret added
  | job :: rest =>
      inserted <- add_job now job ;;
      if inserted then add_jobs_loop now rest (added + 1)
      else add_jobs_loop now rest added
  end.

Definition add_jobs (now : datetime) (jobs : list JobData) : M Session nat :=
  add_jobs_loop now jobs 0.

End Store.

Definition get_unnotified_jobs : M Session (list JobModel) :=
  query_all (fun r => negb (notified r)).

Definition set_notified (now : datetime) (r : JobModel) : JobModel :=
  mkJobModel (id r) (title r) (company r) (location r) (description r)
             (url r) (posted_date r) (requirements r) (keywords r)
             (is_eu r) (is_uae r) (scraped_at r)
             true now (resume_generated r) (resume_path r).

(** [query.filter(JobModel.id.in_(job_ids)).update({...})] *)
Definition update_notified (now : datetime) (job_ids : list string)
  : M Session unit :=
  modify (fun s =>
    mkSession (committed s)
              (map (fun r => if existsb (String.eqb (id r)) job_ids
                             then set_notified now r else r) (txn s))
              (faults s)).

Definition mark_as_notified (now : datetime) (job_ids : list string)
  : M Session unit :=
  update_notified now job_ids ;;;
  session_commit.

Definition set_resume (path : string) (r : JobModel) : JobModel :=
  mkJobModel (id r) (title r) (company r) (location r) (description r)
             (url r) (posted_date r) (requirements r) (keywords r)
             (is_eu r) (is_uae r) (scraped_at r)
             (notified r) (notified_at r) true (Some path).

(** the object returned by [.first()] is the first row with that id;
    assigning to its attributes changes that row *)
Fixpoint update_first (job_id : string) (f : JobModel -> JobModel)
  (rows : list JobModel) : list JobModel :=
  match rows with
  | [] => []
  | r :: rest => if id r =? job_id then f r :: rest
                 else r :: update_first job_id f rest
  end.

Definition mark_resume_generated (job_id : string) (resume_path : string)
  : M Session unit :=
  job <- query_first_by_id job_id ;;
  match job with
  | Some _ =>
      modify (fun s => mkSession (committed s)
                                 (update_first job_id (set_resume resume_path) (txn s))
                                 (faults s)) ;;;
      session_commit
  | None => ret tt
  end.

Definition job_exists (job_id : string) : M Session bool :=
  job <- query_first_by_id job_id ;;
  ret (match job with Some _ => true | None => false end).

Record Stats : Type := mkStats {
  total_jobs : nat;
  eu_jobs : nat;
  uae_jobs : nat;
  notified_count : nat;
  pending : nat;
  resumes_generated : nat
}.

Definition get_stats : M Session Stats :=
  total <- query_count (fun _ => true) ;;
  eu <- query_count is_eu ;;
  uae <- query_count is_uae ;;
  n <- query_count notified ;;
  p <- query_count (fun r => negb (notified r)) ;;
  rg <- query_count resume_generated ;;
  ret (mkStats total eu uae n p rg).

(** A new database: [create_all] on an empty file. *)
Definition empty_store : Session := mkSession [] [] [].

End job_store.

(* ===================================================================== *)
(** * src/database/job_store.py: the read-only queries                    *)
(* ===================================================================== *)

Module JobStore.
Import Py job_store.
Local Open Scope string_scope.
Local Open Scope py_scope.

Definition get_job_by_id (job_id : string) : M Session (option JobModel) :=
  query_first_by_id job_id.

(** [query.filter_by(is_eu=True)], then [.filter_by(notified=False)] when
    [unnotified_only] *)
Definition get_eu_jobs (unnotified_only : bool) : M Session (list JobModel) :=
  if unnotified_only
  then query_all (fun r => is_eu r && negb (notified r))
  else query_all is_eu.

Definition get_uae_jobs (unnotified_only : bool) : M Session (list JobModel) :=
  if unnotified_only
  then query_all (fun r => is_uae r && negb (notified r))
  else query_all is_uae.

End JobStore.


(* ===================================================================== *)
(** * src/scrapers/base_scraper.py: [to_dict] and the driver              *)
(* ===================================================================== *)

Module scraper_context.
Import Py base_scraper.
Local Open Scope string_scope.
Local Open Scope py_scope.

(** [Job.to_dict]; [isoformat] is [datetime.isoformat]. *)
Definition to_dict (isoformat : any_datetime -> string) (self : Job)
  : job_store.JobData :=
  job_store.mkJobData
    (id self) (title self) (company self)
    (Some (location self)) (Some (description self)) (Some (url self))
    (match posted_date self with
     | Some d => Some (job_store.DStr (isoformat d))
     | None => None
     end)
    (Some (requirements self)) (Some (keywords self))
    (Some (is_eu self)) (Some (is_uae self))
    (Some (job_store.DStr (isoformat (naive (scraped_at self))))).

(** A scraper with its browser: [setup_driver] starts Chrome (and raises
    when it cannot), [driver_quit] is [self.driver.quit()]. *)
Record Source (raw : Type) : Type := mkSource {
  scraper : BaseScraper raw;
  setup_driver : M Heap unit;
  driver_quit : M Heap unit
}.

(** [with cm as x: body] for a context manager whose [__exit__] returns
    [None]: [exit_] runs when [body] returns and when it raises; an
    exception of [body] goes on after it, unless [exit_] raises itself. *)
Definition with_ {W X A} (enter : M W X) (exit_ : X -> M W unit)
  (body : X -> M W A) : M W A :=
  fun w =>
    match enter w with
    | (Raise e, w1) => (Raise e, w1)
    | (Ok x, w1) =>
        match body x w1 with
        | (Ok a, w2) =>
            match exit_ x w2 with
            | (Ok _, w3) => (Ok a, w3)
            | (Raise e', w3) => (Raise e', w3)
            end
        | (Raise e, w2) =>
            match exit_ x w2 with
            | (Ok _, w3) => (Raise e, w3)
            | (Raise e', w3) => (Raise e', w3)
            end
        end
    end.

(** [__enter__] sets [self.driver] and returns [self]; [__exit__] then
    finds a driver and quits it. *)
Definition __enter__ {raw} (self : Source raw) : M Heap (Source raw) :=
  setup_driver self ;;; ret self.

Definition __exit__ {raw} (self : Source raw) : M Heap unit :=
  driver_quit self.

End scraper_context.

(* ===================================================================== *)
(** * main.py: [get_scraper] and [run_scrapers]                           *)
(* ===================================================================== *)

Module main.
Import Py base_scraper scraper_context.
Local Open Scope string_scope.
Local Open Scope py_scope.

(** the keys of [SCRAPER_CLASSES], in insertion order *)
Definition SCRAPER_CLASSES : list string :=
  [ "google"; "meta"; "apple"; "netflix"; "linkedin"; "bayt"; "gulftalent" ].

(** The state of a run: the heap of job objects and the list
    [all_jobs]. *)
Record Run : Type := mkRun {
  heap : Heap;
  all_jobs : list job_store.JobData
}.

Definition on_heap {A} (m : M Heap A) : M Run A :=
  fun st => let (r, h) := m (heap st) in (r, mkRun h (all_jobs st)).

Section Orchestrator.
Variable raw : Type.
Variable isoformat : any_datetime -> string.
(** importing the module of a registered name and calling its class on
    the configuration *)
Variable instantiate : string -> M Heap (Source raw).
(** the reading of the clock while the [i]-th source is filtered *)
Variable clock : nat -> datetime.

Definition get_scraper (name : string) : M Heap (Source raw) :=
  if existsb (String.eqb name) SCRAPER_CLASSES then instantiate name
  else raise (PyException "ValueError").

(** the body of the [with] block *)
Definition collect (i : nat) (src : Source raw) : M Run unit :=
  jobs <- on_heap (scrape (scraper src) (clock i)) ;;
  st <- get ;;
  let job_dicts := map (fun job => to_dict isoformat (heap st job)) jobs in
  modify (fun st => mkRun (heap st) (all_jobs st ++ job_dicts)).

(** one turn of the loop: the [try] statement *)
Definition run_one (i : nat) (name : string) : M Run unit :=
  try_except_Exception
    (cm <- on_heap (get_scraper name) ;;
     with_ (on_heap (__enter__ cm)) (fun src => on_heap (__exit__ src))
           (fun src => collect i src))
    (fun e => ret tt).

Fixpoint run_loop (i : nat) (scraper_names : list string) : M Run unit :=
  match scraper_names with
  | [] => ret tt
  | name :: rest => run_one i name ;;; run_loop (S i) rest
  end.

(** [scrapers] is [None] or a list; an empty list is falsy *)
Definition run_scrapers (scrapers : option (list string))
  : M Heap (list job_store.JobData) :=
  fun h =>
    let scraper_names :=
      match scrapers with
      | Some (name :: rest) => name :: rest
      | _ => SCRAPER_CLASSES
      end in
    match run_loop 0 scraper_names (mkRun h []) with
    | (Ok _, st) => (Ok (all_jobs st), heap st)
    | (Raise e, st) => (Raise e, heap st)
    end.

End Orchestrator.

End main.


(* ===================================================================== *)
(** * The adapters that estimate the posting date                         *)
(* ===================================================================== *)

(** [bayt_scraper.py], [gulftalent_scraper.py], [meta_scraper.py] and
    [netflix_scraper.py]: their [parse_job].  A raw record is the
    dictionary built by [_extract_job_from_card]; a key read with [.get]
    is [None] when the dictionary does not have it.  [_fetch_job_details]
    catches what its page load raises and returns a dictionary, possibly
    empty.  [now] is the clock reading of the [posted_date] argument,
    [scraped] the later one of the [scraped_at] default. *)
Module adapters.
Import Py base_scraper.
Local Open Scope string_scope.

Record RawJob : Type := mkRawJob {
  raw_id : option string;
  raw_title : option string;
  raw_company : option string;
  raw_location : option string;
  raw_url : option string
}.

Record Details : Type := mkDetails {
  det_description : option string;
  det_requirements : option (list string)
}.

(** [d.get(key, dflt)] *)
Definition dict_get {A} (v : option A) (dflt : A) : A :=
  match v with
  | Some a => a
  | None => dflt
  end.

(** [if raw_job.get('url'):] a string is truthy when it is not empty *)
Definition truthy (v : option string) : bool :=
  match v with
  | Some (String _ _) => true
  | _ => false
  end.

(** [details = {}], replaced by the fetched details when there is a url *)
Definition details_of (fetch_job_details : string -> Details)
  (raw_job : RawJob) : Details :=
  if truthy (raw_url raw_job)
  then fetch_job_details (dict_get (raw_url raw_job) "")
  else mkDetails None None.

Module BaytScraper.
Definition company_name : string := "Bayt".

Definition parse_job (fetch_job_details : string -> Details)
  (now scraped : datetime) (raw_job : RawJob) : result (option Job) :=
  except_Exception
    (let details := details_of fetch_job_details raw_job in
     rbind (timedelta_days 7) (fun td =>
     rbind (datetime_sub now td) (fun posted =>
     Ok (Some (mkJob (dict_get (raw_id raw_job) "")
                     (dict_get (raw_title raw_job) "")
                     (dict_get (raw_company raw_job) company_name)
                     (dict_get (raw_location raw_job) "UAE")
                     (dict_get (det_description details) "")
                     (dict_get (raw_url raw_job) "")
                     (Some (naive posted))
                     (dict_get (det_requirements details) [])
                     [] false false scraped)))))
    None.
End BaytScraper.

Module GulfTalentScraper.
Definition company_name : string := "GulfTalent".

Definition parse_job (fetch_job_details : string -> Details)
  (now scraped : datetime) (raw_job : RawJob) : result (option Job) :=
  except_Exception
    (let details := details_of fetch_job_details raw_job in
     rbind (timedelta_days 7) (fun td =>
     rbind (datetime_sub now td) (fun posted =>
     Ok (Some (mkJob (dict_get (raw_id raw_job) "")
                     (dict_get (raw_title raw_job) "")
                     (dict_get (raw_company raw_job) company_name)
                     (dict_get (raw_location raw_job) "UAE")
                     (dict_get (det_description details) "")
                     (dict_get (raw_url raw_job) "")
                     (Some (naive posted))
                     (dict_get (det_requirements details) [])
                     [] false false scraped)))))
    None.
End GulfTalentScraper.

Module MetaScraper.
Definition company_name : string := "Meta".

Definition parse_job (fetch_job_details : string -> Details)
  (now scraped : datetime) (raw_job : RawJob) : result (option Job) :=
  except_Exception
    (let details := details_of fetch_job_details raw_job in
     rbind (timedelta_days 15) (fun td =>
     rbind (datetime_sub now td) (fun posted =>
     Ok (Some (mkJob (dict_get (raw_id raw_job) "")
                     (dict_get (raw_title raw_job) "")
                     company_name
                     (dict_get (raw_location raw_job) "")
                     (dict_get (det_description details) "")
                     (dict_get (raw_url raw_job) "")
                     (Some (naive posted))
                     (dict_get (det_requirements details) [])
                     [] false false scraped)))))
    None.
End MetaScraper.

Module NetflixScraper.
Definition company_name : string := "Netflix".

Definition parse_job (fetch_job_details : string -> Details)
  (now scraped : datetime) (raw_job : RawJob) : result (option Job) :=
  except_Exception
    (let details := details_of fetch_job_details raw_job in
     rbind (timedelta_days 15) (fun td =>
     rbind (datetime_sub now td) (fun posted =>
     Ok (Some (mkJob (dict_get (raw_id raw_job) "")
                     (dict_get (raw_title raw_job) "")
                     company_name
                     (dict_get (raw_location raw_job) "")
                     (dict_get (det_description details) "")
                     (dict_get (raw_url raw_job) "")
                     (Some (naive posted))
                     (dict_get (det_requirements details) [])
                     [] false false scraped)))))
    None.
End NetflixScraper.

End adapters.


(* ===================================================================== *)
(** * src/scrapers/linkedin_scraper.py: [parse_job]                       *)
(* ===================================================================== *)

(** LinkedIn's [parse_job] reads the date of a listing as an ISO string
    first, with a final "Z" written as an offset, and as a relative date
    when [datetime.fromisoformat] raises.  [fromisoformat] is the library
    function; it returns an aware datetime for a string with an offset.
    [now] is the clock reading of the relative-date parser, [scraped] that
    of the [scraped_at] default. *)
Module linkedin_scraper.
Import Py base_scraper adapters.
Local Open Scope string_scope.

(** the dictionary built by [_extract_job_from_card] *)
Record RawJob : Type := mkRawJob {
  raw_id : option string;
  raw_title : option string;
  raw_company : option string;
  raw_location : option string;
  raw_url : option string;
  raw_posted_date : option string
}.

(** [posted_date = None], replaced when [raw_job.get('posted_date')] is
    truthy; the inner [except:] is bare *)
Definition read_date (fromisoformat : string -> result any_datetime)
  (now : datetime) (raw_job : RawJob) : option any_datetime :=
  if truthy (raw_posted_date raw_job)
  then
    let date_str := dict_get (raw_posted_date raw_job) "" in
    match fromisoformat (replace "Z" "+00:00" date_str) with
    | Ok d => Some d
    | Raise _ =>
        option_map naive (LinkedInScraper._parse_relative_date now date_str)
    end
  else None.

Definition parse_job (fromisoformat : string -> result any_datetime)
  (now scraped : datetime) (raw_job : RawJob) : result (option Job) :=
  except_Exception
    (let posted_date := read_date fromisoformat now raw_job in
     Ok (Some (mkJob (dict_get (raw_id raw_job) "")
                     (dict_get (raw_title raw_job) "")
                     (dict_get (raw_company raw_job) "LinkedIn")
                     (dict_get (raw_location raw_job) "")
                     ""
                     (dict_get (raw_url raw_job) "")
                     posted_date
                     [] [] false false scraped)))
    None.

End linkedin_scraper.


(* ===================================================================== *)
(** * main.py: [process_jobs] and the recording of the resumes            *)
(* ===================================================================== *)

Module main_process.
Import Py job_store.
Local Open Scope string_scope.
Local Open Scope py_scope.

(** A dictionary of [jobs_to_process], built from an unnotified row. *)
Record ProcJob : Type := mkProcJob {
  pj_id : string;
  pj_title : string;
  pj_company : string;
  pj_location : string;
  pj_description : string;
  pj_url : string;
  pj_posted_date : option datetime;
  pj_requirements : list string;
  pj_is_eu : bool;
  pj_is_uae : bool
}.

Section Resumes.
(** the parsed resume; whether the PDF is there; [ResumeParser.parse] on
    it; and the body of the [try] of the loop for one job (keywords,
    optimisation, generation), which returns the path of the file *)
Variable Parsed : Type.
Variable resume_exists : bool.
Variable parse_resume : result Parsed.
Variable tailor : Parsed -> ProcJob -> result string.

(** the [for job in jobs] loop; [resume_paths] is the list built so far *)
Fixpoint process_loop (parsed_resume : Parsed) (jobs : list ProcJob)
  (resume_paths : list string) : result (list string) :=
  match jobs with
  | [] => Ok resume_paths
  | job :: rest =>
      match tailor parsed_resume job with
      | Ok resume_file =>
          process_loop parsed_resume rest (resume_paths ++ [resume_file])
      | Raise (PyException _) => process_loop parsed_resume rest resume_paths
      | Raise e => Raise e
      end
  end.

Definition process_jobs (jobs : list ProcJob) : result (list string) :=
  match jobs with
  | [] => Ok []
  | _ =>
      if negb resume_exists then Ok []
      else rbind parse_resume (fun parsed_resume =>
           process_loop parsed_resume jobs [])
  end.

End Resumes.

(** [for i, job in enumerate(jobs_to_process):
       if i < len(resume_paths):
           store.mark_resume_generated(job['id'], resume_paths[i])] *)
Fixpoint mark_resumes (i : nat) (jobs_to_process : list ProcJob)
  (resume_paths : list string) : M Session unit :=
  match jobs_to_process with
  | [] => ret tt
  | job :: rest =>
      (if (i <? List.length resume_paths)%nat
       then mark_resume_generated (pj_id job) (nth i resume_paths "")
       else ret tt) ;;;
      mark_resumes (S i) rest resume_paths
  end.

End main_process.


(* ===================================================================== *)
(** * Notions used to state the properties                                *)
(* ===================================================================== *)

Module Props.
Import Py.
Local Open Scope string_scope.

(** [sub] occurs somewhere in [s]. *)
Definition occurs_in (sub s : string) : Prop :=
  exists pre post, s = pre ++ sub ++ post.

(** [sub] occurs in [s] when case is ignored. *)
Definition occurs_in_nocase (sub s : string) : Prop :=
  occurs_in (lower sub) (lower s).

Fixpoint all_chars (p : ascii -> bool) (s : string) : bool :=
  match s with
  | EmptyString => true
  | String c r => p c && all_chars p r
  end.

(** a word: not empty, no whitespace in it *)
Definition is_word (w : string) : Prop :=
  w <> EmptyString /\ all_chars (fun c => negb (isspace c)) w = true.

(** ** Where [lower] and [isspace] are Python's *)

(** the string of the bytes [l] *)
Definition bytes (l : list nat) : string :=
  fold_right (fun n s => String (ascii_of_nat n) s) EmptyString l.

(** every character of [s] is in ASCII: [s.lower()] is [lower s] *)
Definition is_ascii (s : string) : Prop :=
  all_chars (fun c => (nat_of_ascii c <? 128)%nat) s = true.

(** [s] is made of UTF-8 sequences: an ASCII byte, or a lead byte with
    its one, two or three continuation bytes.  [more] is the number of
    continuation bytes still due. *)
Fixpoint utf8_from (more : nat) (s : string) : bool :=
  match s with
  | EmptyString => Nat.eqb more 0
  | String c r =>
      match more with
      | O =>
          if in_range 0 127 c then utf8_from 0 r
          else if in_range 194 223 c then utf8_from 1 r
          else if in_range 224 239 c then utf8_from 2 r
          else if in_range 240 244 c then utf8_from 3 r
          else false
      | S k => if in_range 128 191 c then utf8_from k r else false
      end
  end.

Definition utf8 (s : string) : Prop := utf8_from 0 s = true.

(** The two characters outside ASCII whose lower case has an ASCII letter
    in it, in UTF-8: KELVIN SIGN (U+212A, whose lower case is "k") and
    LATIN CAPITAL LETTER I WITH DOT ABOVE (U+0130, whose lower case is "i"
    and a combining dot). *)
Definition kelvin_sign : string := bytes [226; 132; 170].
Definition dotted_capital_i : string := bytes [196; 176].

(** [s] is the encoding of a [str] that has neither of them.  Every
    other character outside ASCII has a lower case outside ASCII, so an
    ASCII string occurs in [s.lower()] exactly when it occurs in
    [lower s]. *)
Definition folds_as_ascii (s : string) : Prop :=
  utf8 s /\ str_in kelvin_sign s = false /\ str_in dotted_capital_i s = false.

(** The whitespace characters outside ASCII, in UTF-8: U+0085, U+00A0,
    U+1680, U+2000 to U+200A, U+2028, U+2029, U+202F, U+205F and U+3000. *)
Definition unicode_spaces : list string :=
  map bytes
    [ [194; 133]; [194; 160]; [225; 154; 128];
      [226; 128; 128]; [226; 128; 129]; [226; 128; 130]; [226; 128; 131];
      [226; 128; 132]; [226; 128; 133]; [226; 128; 134]; [226; 128; 135];
      [226; 128; 136]; [226; 128; 137]; [226; 128; 138];
      [226; 128; 168]; [226; 128; 169]; [226; 128; 175];
      [226; 129; 159]; [227; 128; 128] ].

(** [s] is the encoding of a [str] that has none of them: the whitespace
    of [s] for [split()] is the whitespace that [isspace] sees *)
Definition ascii_spaced (s : string) : Prop :=
  utf8 s /\ Forall (fun sp => str_in sp s = false) unicode_spaces.

(** a word for [split()]: not empty, and free of whitespace, of ASCII and
    of the rest of Unicode *)
Definition plain_word (w : string) : Prop := is_word w /\ ascii_spaced w.

(** [s] without its whitespace *)
Fixpoint drop_spaces (s : string) : string :=
  match s with
  | EmptyString => EmptyString
  | String c r => if isspace c then drop_spaces r else String c (drop_spaces r)
  end.

Fixpoint concat_words (ws : list string) : string :=
  match ws with
  | [] => EmptyString
  | w :: rest => w ++ concat_words rest
  end.

(** [delta] in whole days, truncated (rounded towards zero): the reading
    of the specification's [days_since]. *)
Definition whole_days_truncated (delta : timedelta) : Z :=
  Z.quot delta us_per_day.

Section PipelineProps.
Import helpers base_scraper.
Variable raw : Type.
Variable self : BaseScraper raw.
Variable now : datetime.

(** the decision of the filter loop on one job, when it takes one *)
Definition keep (j : Job) : bool :=
  title_match self (title j) &&
  match too_old self now (posted_date j) with
  | Ok old => negb old
  | Raise _ => false
  end.

(** a job on which the loop raises instead: its title matches and its
    [posted_date] is aware, so [days_since_posted] cannot subtract it from
    the naive [datetime.now()] *)
Definition stops (j : Job) : bool :=
  title_match self (title j) && is_aware (posted_date j).

(** the flags [(is_eu, is_uae)] the filter computes from a raw location *)
Definition classify (raw_location : string) : bool * bool :=
  let normalized_location := normalize_location raw_location in
  (is_eu_location normalized_location, is_uae_location normalized_location).

(** the two assignments of the filter loop *)
Definition mark (j : Job) : Job :=
  let normalized_location := normalize_location (location j) in
  with_is_uae (is_uae_location normalized_location)
    (with_is_eu (is_eu_location normalized_location) j).

Definition mark_all (kept : list addr) (h : Heap) : Heap :=
  fold_left (fun h a => upd h a (mark (h a))) kept h.

(** the jobs of [jobs] that pass the filter, in their order *)
Definition kept_jobs (h : Heap) (jobs : list addr) : list addr :=
  filter (fun a => keep (h a)) jobs.

(** some job of [jobs] stops the loop *)
Definition blocked (h : Heap) (jobs : list addr) : bool :=
  existsb (fun a => stops (h a)) jobs.

End PipelineProps.

(** the elements of [l] whose key is [k], in their order *)
Definition tier {A} (key : A -> bool * bool) (k : bool * bool) (l : list A)
  : list A :=
  filter (fun x => Bool.eqb (fst (key x)) (fst k) &&
                   Bool.eqb (snd (key x)) (snd k)) l.

(** the jobs of [l] whose flags in the heap [h] are [eu] and [uae] *)
Definition flag_tier (h : base_scraper.Heap) (eu uae : bool)
  (l : list base_scraper.addr) : list base_scraper.addr :=
  filter (fun a => Bool.eqb (base_scraper.is_eu (h a)) eu &&
                   Bool.eqb (base_scraper.is_uae (h a)) uae) l.

(** The order the specification describes: the EU jobs, then the UAE jobs
    that are not EU, then the others, each tier in its original order. *)
Definition three_tiers (h : base_scraper.Heap) (l : list base_scraper.addr)
  : list base_scraper.addr :=
  filter (fun a => base_scraper.is_eu (h a)) l ++
  filter (fun a => negb (base_scraper.is_eu (h a)) &&
                   base_scraper.is_uae (h a)) l ++
  filter (fun a => negb (base_scraper.is_eu (h a)) &&
                   negb (base_scraper.is_uae (h a))) l.

(** ** Relative dates *)

(** a non-empty string of decimal digits *)
Definition is_number (ds : string) : Prop :=
  ds <> EmptyString /\ all_chars isdigit ds = true.

(** "N unit ago" and "N units ago" *)
Definition relative_form (ds unit plural : string) : string :=
  (ds ++ " " ++ unit ++ plural ++ " ago")%string.

(** the duration the parsers give to [n] units; a month is 30 days *)
Definition duration (unit : string) (n : Z) : timedelta :=
  if String.eqb unit "hour" then (n * us_per_hour)%Z
  else if String.eqb unit "day" then (n * us_per_day)%Z
  else if String.eqb unit "week" then (7 * n * us_per_day)%Z
  else (n * 30 * us_per_day)%Z.

(** [now - delta] when that is a [datetime], absent otherwise *)
Definition ago (now : datetime) (delta : timedelta) : option datetime :=
  if (datetime_min <=? now - delta)%Z then Some (now - delta)%Z else None.

(** ** The job store *)

(** a row with this id is visible to the session *)
Definition stored (job_id : string) (s : job_store.Session) : bool :=
  match find (fun r => String.eqb (job_store.id r) job_id) (job_store.txn s) with
  | Some _ => true
  | None => false
  end.

(** what the storage layer will do to the next commit *)
Definition next_fault (s : job_store.Session) : option exn :=
  match job_store.faults s with
  | Some e :: _ => Some e
  | _ => None
  end.

(** no failure of the storage layer is scripted *)
Definition healthy (s : job_store.Session) : Prop :=
  Forall (fun f => f = None) (job_store.faults s).

(** the update of [mark_as_notified] on one row *)
Definition notify (now : datetime) (job_ids : list string)
  (r : job_store.JobModel) : job_store.JobModel :=
  if existsb (String.eqb (job_store.id r)) job_ids
  then job_store.set_notified now r else r.

(** a row with its [notified_at] blanked: what is left of it when the time
    of the notification is disregarded *)
Definition forget_notified_at (r : job_store.JobModel) : job_store.JobModel :=
  job_store.mkJobModel
    (job_store.id r) (job_store.title r) (job_store.company r)
    (job_store.location r) (job_store.description r) (job_store.url r)
    (job_store.posted_date r) (job_store.requirements r)
    (job_store.keywords r) (job_store.is_eu r) (job_store.is_uae r)
    (job_store.scraped_at r) (job_store.notified r) 0%Z
    (job_store.resume_generated r) (job_store.resume_path r).

End Props.

(* ===================================================================== *)
(** * Concrete scrapers, jobs and heaps                                   *)
(* ===================================================================== *)

Module Examples.
Import Py helpers base_scraper.
Local Open Scope string_scope.
Local Open Scope Z_scope.

(** noon of day 739000: 2024-04-25T12:00:00 *)
Definition noon : datetime := 739000 * us_per_day + 12 * us_per_hour.

(** a scraper configured with the title "Data Engineer" and 30 days,
    whose source has nothing to offer *)
Definition quiet : BaseScraper unit :=
  mkScraper ["Data Engineer"] 30 (ret []) (fun _ => ret None).

(** a scraper whose [fetch_jobs] is interrupted from the keyboard *)
Definition interrupted : BaseScraper unit :=
  mkScraper ["Data Engineer"] 30
            (raise (PyBaseException "KeyboardInterrupt"))
            (fun _ => ret None).

(** a scraper whose [fetch_jobs] raises a [WebDriverException] *)
Definition broken : BaseScraper unit :=
  mkScraper ["Data Engineer"] 30
            (raise (PyException "WebDriverException"))
            (fun _ => ret None).

(** a scraper whose [parse_job] raises on the second raw record *)
Definition half_broken : BaseScraper nat :=
  mkScraper ["Data Engineer"] 30
            (ret [0%nat; 1%nat])
            (fun r => match r with
                      | O => ret (Some 0%nat)
                      | _ => raise (PyException "KeyError")
                      end).

Definition engineer (loc : string) (posted : option any_datetime) : Job :=
  mkJob "0123456789ab" "Senior Data Engineer II" "Acme" loc ""
        "https://example.org/jobs/1" posted [] [] false false noon.

Definition scientist : Job :=
  mkJob "ba9876543210" "Data Scientist" "Acme" "Berlin, Germany" ""
        "https://example.org/jobs/2" None [] [] false false noon.

(** the heap whose objects are the jobs of [l], at the addresses 0, 1, ... *)
Definition heap_of (l : list Job) : Heap := fun a => nth a l scientist.

(** A, B, C, D of the specification's example *)
Definition abcd : Heap :=
  heap_of [ engineer "Austin, Texas" None;
            engineer "Berlin, Germany" None;
            engineer "Dubai, UAE" None;
            engineer "Paris, France" None ].

(** two EU jobs; the second one names a UAE city as well *)
Definition two_eu : Heap :=
  heap_of [ engineer "Berlin, Germany" None;
            engineer "Berlin, Germany or Dubai" None ].

(** jobs at the age boundary for [max_age_days = 30], an undated job, a
    job whose title does not match, and a job dated one hour ahead *)
Definition boundary : Heap :=
  heap_of [ engineer "Berlin, Germany" (Some (naive (noon - 30 * us_per_day)));
            engineer "Berlin, Germany" (Some (naive (noon - 31 * us_per_day)));
            engineer "Berlin, Germany" None;
            scientist;
            engineer "Dubai, UAE" (Some (naive (noon + us_per_hour))) ].

(** an undated job, and a job dated as LinkedIn's [parse_job] dates one
    whose listing gives "2024-04-24T12:00:00Z": the day before [noon], in
    UTC *)
Definition zoned : Heap :=
  heap_of [ engineer "Berlin, Germany" None;
            engineer "Dubai, UAE" (Some (aware (noon - us_per_day) 0)) ].

(** Stand-ins for the two library functions of the store: a JSON
    printer for lists of plain words, and an ISO parser that knows one
    date. *)
Definition json_words (l : list string) : string :=
  let quote := String (ascii_of_nat 34) "" in
  "[" ++ join ", " (map (fun w => quote ++ w ++ quote) l) ++ "]".

Definition iso_noon (s : string) : option datetime :=
  if String.eqb s "2024-04-25T12:00:00" then Some noon else None.

Definition record (job_id loc : string) : job_store.JobData :=
  job_store.mkJobData job_id "Senior Data Engineer II" "Acme"
    (Some loc) (Some "") (Some "https://example.org/jobs/1")
    (Some (job_store.DStr "2024-04-25T12:00:00"))
    (Some ["python"; "sql"]) (Some []) (Some true) (Some false)
    (Some (job_store.DStr "2024-04-25T12:00:00")).

(** a database whose disk is full: the next commit raises *)
Definition disk_full : job_store.Session :=
  job_store.mkSession [] [] [Some (PyException "OperationalError")].

End Examples.

(* ===================================================================== *)
(** * Further notions: the state of the store                             *)
(* ===================================================================== *)

Module StoreProps.
Import Py.

(** the primary key: no two rows of a table share an id *)
Definition unique_ids (rows : list job_store.JobModel) : Prop :=
  NoDup (map job_store.id rows).

(** nothing is pending in the session: its view is the committed table *)
Definition clean (s : job_store.Session) : Prop :=
  job_store.txn s = job_store.committed s.

(** the ids of the rows that were not notified yet *)
Definition pending_ids (s : job_store.Session) : list string :=
  map job_store.id
      (filter (fun r => negb (job_store.notified r)) (job_store.txn s)).

End StoreProps.


(* ===================================================================== *)
(** * Further notions: a turn of the orchestrator                         *)
(* ===================================================================== *)

Module RunProps.
Import Py.

(** what [try: ... except Exception: continue] makes of an exception
    raised in state [st] *)
Definition caught {W} (e : exn) (st : W) : result unit * W :=
  match e with
  | PyException _ => (Ok tt, st)
  | PyBaseException _ => (Raise e, st)
  end.

End RunProps.


(* ===================================================================== *)
(** * Further notions: spelling of a relative date                        *)
(* ===================================================================== *)

Module DateProps.
Import Py Props.
Local Open Scope string_scope.

(** a possibly empty run of whitespace *)
Definition blanks (ws : string) : Prop := all_chars isspace ws = true.

(** a number, a unit, an optional plural and "ago", the three parts
    separated by the runs of whitespace [ws1] and [ws2] *)
Definition spaced_form (ds ws1 unit plural ws2 : string) : string :=
  ds ++ ws1 ++ unit ++ plural ++ ws2 ++ "ago".

End DateProps.


(* ===================================================================== *)
(** * Further notions: the spelling of a location                         *)
(* ===================================================================== *)

Module LocationProps.
Import Py Props DateProps.
Local Open Scope string_scope.

(** a run of whitespace between two words *)
Definition gap (g : string) : Prop := g <> EmptyString /\ blanks g.

(** each word after the run of whitespace that precedes it *)
Fixpoint spaced (ws : list (string * string)) : string :=
  match ws with
  | [] => EmptyString
  | (g, w) :: rest => g ++ w ++ spaced rest
  end.

(** the words, one space between two of them and none around: the
    collapsed form of the specification *)
Fixpoint single_spaced (ws : list string) : string :=
  match ws with
  | [] => EmptyString
  | w :: rest =>
      match rest with
      | [] => w
      | _ :: _ => w ++ String " " (single_spaced rest)
      end
  end.

(** [s] without its last character *)
Fixpoint but_last (s : string) : string :=
  match s with
  | EmptyString => EmptyString
  | String c r =>
      match r with
      | EmptyString => EmptyString
      | String _ _ => String c (but_last r)
      end
  end.

(** in [pre ++ old ++ post], the occurrence of [old] that is written is
    the only one: none starts in [pre], none is in [post] *)
Definition only_there (old pre post : string) : Prop :=
  str_in old (pre ++ but_last old) = false /\ str_in old post = false.

End LocationProps.


(* ===================================================================== *)
(** * Further concrete data                                               *)
(* ===================================================================== *)

Module Samples.
Import Py base_scraper Examples.
Local Open Scope string_scope.
Local Open Scope Z_scope.

(** a store holding two rows, the first one notified *)
Definition two_rows : job_store.Session :=
  snd (job_store.mark_as_notified (noon + 1) ["0123456789ab"]
         (snd (job_store.add_jobs json_words iso_noon noon
                 [record "0123456789ab" "Berlin, Germany";
                  record "ba9876543210" "Dubai, UAE"]
                 job_store.empty_store))).

(** an [isoformat] for the one date the parser [iso_noon] knows *)
Definition noon_iso (d : any_datetime) : string := "2024-04-25T12:00:00".

(** the registry of a run: Google scrapes nothing, the browser of Meta
    does not start, the other classes cannot be instantiated *)
Definition registry (name : string) : M Heap (scraper_context.Source unit) :=
  if String.eqb name "google"
  then ret (scraper_context.mkSource quiet (ret tt) (ret tt))
  else if String.eqb name "meta"
  then ret (scraper_context.mkSource quiet
              (raise (PyException "WebDriverException")) (ret tt))
  else raise (PyException "ImportError").

(** a raw record of Bayt without a location *)
Definition bayt_card : adapters.RawJob :=
  adapters.mkRawJob (Some "0123456789ab") (Some "Senior Data Engineer")
                    (Some "Acme") None (Some "https://example.org/jobs/1").

Definition no_details (url : string) : adapters.Details :=
  adapters.mkDetails None None.

(** the jobs to process that go with [two_rows] *)
Definition to_process (job_id : string) : main_process.ProcJob :=
  main_process.mkProcJob job_id "Senior Data Engineer II" "Acme"
    "Berlin, Germany" "" "https://example.org/jobs/1" (Some noon)
    ["python"; "sql"] true false.

(** a generator that fails on the job "0123456789ab" *)
Definition picky (parsed : unit) (job : main_process.ProcJob) : result string :=
  if String.eqb (main_process.pj_id job) "0123456789ab"
  then Raise (PyException "ValueError")
  else Ok ("resumes/" ++ main_process.pj_id job ++ ".docx").

(** a generator that always succeeds *)
Definition steady (parsed : unit) (job : main_process.ProcJob) : result string :=
  Ok ("resumes/" ++ main_process.pj_id job ++ ".docx").

(** a [fromisoformat] that reads one string, as the library reads it: the
    day before [noon], in UTC *)
Definition iso_utc (s : string) : result any_datetime :=
  if String.eqb s "2024-04-24T12:00:00+00:00"
  then Ok (aware (noon - us_per_day) 0)
  else Raise (PyException "ValueError").

(** two listings of LinkedIn, one dated by a timestamp and one by a
    relative date *)
Definition stamped_card : linkedin_scraper.RawJob :=
  linkedin_scraper.mkRawJob
    (Some "0123456789ab") (Some "Senior Data Engineer II") (Some "Acme")
    (Some "Dubai, UAE") (Some "https://example.org/jobs/1")
    (Some "2024-04-24T12:00:00Z").

Definition relative_card : linkedin_scraper.RawJob :=
  linkedin_scraper.mkRawJob
    (Some "ba9876543210") (Some "Senior Data Engineer II") (Some "Acme")
    (Some "Dubai, UAE") (Some "https://example.org/jobs/2")
    (Some "3 days ago").

(** a scraper whose source lists five raw records; record [r] parses to
    the job object at address [r] *)
Definition listing : BaseScraper nat :=
  mkScraper ["Data Engineer"] 30
            (ret [0%nat; 1%nat; 2%nat; 3%nat; 4%nat])
            (fun r => ret (Some r)).

End Samples.


(* ===================================================================== *)
(** * Strings                                                             *)
(* ===================================================================== *)

Section StringFacts.
Import Py Props.
Local Open Scope string_scope.

Lemma append_nil_r (s : string) : s ++ "" = s.
Proof. induction s; simpl; congruence. Qed.

Lemma append_assoc (a b c : string) : (a ++ b) ++ c = a ++ b ++ c.
Proof. induction a; simpl; congruence. Qed.

Lemma prefix_occurs (p s : string) :
  prefix p s = true <-> exists post, s = p ++ post.
Proof.
  revert s; induction p as [|a p IH]; intros s; simpl.
  - split; [intros _; now exists s | now destruct s].
  - destruct s as [|b s].
    + split; [discriminate | intros [post H]; discriminate].
    + simpl. destruct (ascii_dec a b) as [->|Hne].
      * rewrite IH. split; intros [post H]; exists post.
        -- simpl; now rewrite H.
        -- simpl in H; now inversion H.
      * split; [discriminate|].
        intros [post H]; simpl in H; inversion H; subst; now elim Hne.
Qed.

Lemma str_in_occurs (sub s : string) :
  str_in sub s = true <-> occurs_in sub s.
Proof.
  unfold occurs_in. induction s as [|c s IH]; cbn [str_in].
  - rewrite orb_false_r, prefix_occurs. split.
    + intros [post H]; now exists "", post.
    + intros [pre [post H]]. destruct pre; simpl in H.
      * now exists post.
      * discriminate.
  - rewrite orb_true_iff, prefix_occurs, IH. split.
    + intros [[post H]|[pre [post H]]].
      * now exists "", post.
      * exists (String c pre), post; simpl; now rewrite H.
    + intros [pre [post H]]. destruct pre as [|c' pre]; simpl in H.
      * left; now exists post.
      * right; inversion H; now exists pre, post.
Qed.

Lemma existsb_str_in (f : string -> string) (l : list string) (s : string) :
  existsb (fun x => str_in (f x) s) l = true <->
  exists x, In x l /\ occurs_in (f x) s.
Proof.
  rewrite existsb_exists. split; intros [x [Hin H]]; exists x; split; auto;
    now apply str_in_occurs.
Qed.

(** ** [split] and [join] *)

Lemma all_chars_app (p : ascii -> bool) (a b : string) :
  all_chars p (a ++ b) = all_chars p a && all_chars p b.
Proof. induction a; simpl; [reflexivity | now rewrite IHa, andb_assoc]. Qed.

Lemma drop_spaces_app (a b : string) :
  drop_spaces (a ++ b) = drop_spaces a ++ drop_spaces b.
Proof.
  induction a as [|c a IH]; simpl; [reflexivity|].
  destruct (isspace c); simpl; now rewrite IH.
Qed.

Lemma drop_spaces_word (w : string) :
  all_chars (fun c => negb (isspace c)) w = true -> drop_spaces w = w.
Proof.
  induction w as [|c w IH]; simpl; [reflexivity|].
  intros H; apply andb_true_iff in H as [Hc Hw].
  destruct (isspace c); [discriminate | now rewrite IH].
Qed.

Lemma flush_word_words (cur : string) (ws : list string) :
  all_chars (fun c => negb (isspace c)) cur = true ->
  Forall is_word ws -> Forall is_word (flush_word cur ws).
Proof.
  intros Hc Hws. destruct cur; simpl; [assumption|].
  constructor; [split; [discriminate | assumption] | assumption].
Qed.

Lemma flush_word_concat (cur : string) (ws : list string) :
  concat_words (flush_word cur ws) = cur ++ concat_words ws.
Proof. destruct cur; reflexivity. Qed.

Lemma split_from_words (s cur : string) :
  all_chars (fun c => negb (isspace c)) cur = true ->
  Forall is_word (split_from cur s).
Proof.
  revert cur; induction s as [|c s IH]; intros cur Hc; simpl.
  - now apply flush_word_words.
  - destruct (isspace c) eqn:E.
    + apply flush_word_words; [assumption | now apply IH].
    + apply IH. rewrite all_chars_app, Hc; simpl. now rewrite E.
Qed.

Lemma split_from_concat (s cur : string) :
  all_chars (fun c => negb (isspace c)) cur = true ->
  concat_words (split_from cur s) = cur ++ drop_spaces s.
Proof.
  revert cur; induction s as [|c s IH]; intros cur Hc; simpl.
  - now rewrite flush_word_concat.
  - destruct (isspace c) eqn:E.
    + rewrite flush_word_concat, IH by reflexivity. reflexivity.
    + rewrite IH.
      * now rewrite append_assoc.
      * rewrite all_chars_app, Hc; simpl. now rewrite E.
Qed.

End StringFacts.

(* ===================================================================== *)
(** * The location classifier                                             *)
(* ===================================================================== *)

Section Classifier.
Import Py Props DateProps LocationProps helpers.
Local Open Scope string_scope.

Lemma split_from_word (w cur rest : string) :
  all_chars (fun c => negb (isspace c)) w = true ->
  split_from cur (w ++ rest) = split_from (cur ++ w) rest.
Proof.
  revert cur. induction w as [|c w IH]; intros cur H.
  - now rewrite append_nil_r.
  - cbn [all_chars] in H. apply andb_true_iff in H as [Hc Hw].
    apply negb_true_iff in Hc. cbn [append split_from]. rewrite Hc.
    rewrite (IH _ Hw). now rewrite append_assoc.
Qed.

(** [split] undoes [" ".join] on words *)
Lemma split_join (ws : list string) :
  Forall is_word ws -> split (join " " ws) = ws.
Proof.
  unfold split. induction 1 as [|w ws [Hne Hw] Hws IH]; [reflexivity|].
  destruct ws as [|w' ws].
  - cbn [join]. rewrite <- (append_nil_r w) at 1.
    rewrite (@split_from_word w "" "" Hw). cbn [append split_from].
    now destruct w.
  - change (join " " (w :: w' :: ws)) with (w ++ " " ++ join " " (w' :: ws)).
    rewrite (@split_from_word w "" _ Hw). cbn [append split_from].
    change (isspace " ") with true. cbv iota. rewrite IH.
    now destruct w.
Qed.

Lemma replace_from_absent (old new s : string) :
  str_in old s = false -> replace_from old new 0 s = s.
Proof.
  induction s as [|c s IH]; [reflexivity|].
  cbn [str_in]. intros H. apply orb_false_iff in H as [Hp Hs].
  cbn [replace_from]. rewrite Hp. now rewrite (IH Hs).
Qed.

Lemma replace_absent (old new s : string) :
  old <> EmptyString -> str_in old s = false -> replace old new s = s.
Proof.
  intros Hne H. destruct old; [contradiction|].
  now apply replace_from_absent.
Qed.

(** ** Runs of whitespace *)

Lemma split_from_gap (g cur rest : string) :
  gap g -> split_from cur (g ++ rest) = flush_word cur (split rest).
Proof.
  intros [Hne Hb]. destruct g as [|c g]; [contradiction|]. clear Hne.
  unfold blanks in Hb. cbn [all_chars] in Hb.
  apply andb_true_iff in Hb as [Hc Hg].
  cbn [append split_from]. rewrite Hc. f_equal. unfold split.
  induction g as [|c' g IH]; [reflexivity|].
  cbn [all_chars] in Hg. apply andb_true_iff in Hg as [Hc' Hg].
  cbn [append split_from]. rewrite Hc'. cbn [flush_word]. now apply IH.
Qed.

Lemma split_blanks (b rest : string) :
  blanks b -> split (b ++ rest) = split rest.
Proof.
  intros Hb. destruct b as [|c b]; [reflexivity|].
  unfold split. rewrite (@split_from_gap (String c b) "" rest); [reflexivity|].
  split; [discriminate | exact Hb].
Qed.

Lemma split_from_trail (cur trail : string) :
  blanks trail -> split_from cur trail = flush_word cur [].
Proof.
  intros Hb. destruct trail as [|c t]; [reflexivity|].
  rewrite <- (append_nil_r (String c t)).
  rewrite (@split_from_gap (String c t) cur "");
    [reflexivity | split; [discriminate | exact Hb]].
Qed.

(** [split] reads the words between the runs of whitespace *)
Lemma split_spaced (rest : list (string * string)) (trail : string) :
  Forall (fun p => gap (fst p) /\ is_word (snd p)) rest ->
  blanks trail ->
  forall w, is_word w ->
    split (w ++ spaced rest ++ trail) = w :: map snd rest.
Proof.
  intros Hrest Htrail. unfold split.
  induction Hrest as [|[g w'] rest [Hg Hw'] _ IH]; intros w [Hne Hw].
  - cbn [spaced map append]. rewrite (@split_from_word w "" trail Hw).
    cbn [append]. rewrite (split_from_trail w Htrail). now destruct w.
  - cbn [spaced map fst snd] in *.
    rewrite (@split_from_word w "" _ Hw). cbn [append].
    rewrite !append_assoc. rewrite (@split_from_gap g w _ Hg).
    unfold split. rewrite (IH w' Hw'). now destruct w.
Qed.

Lemma join_single_spaced (ws : list string) : join " " ws = single_spaced ws.
Proof.
  induction ws as [|w ws IH]; [reflexivity|].
  destruct ws as [|w' ws]; [reflexivity|].
  change (join " " (w :: w' :: ws)) with (w ++ " " ++ join " " (w' :: ws)).
  now rewrite IH.
Qed.

(** ** The substitution table *)

Lemma normalize_location_eq (loc : string) :
  normalize_location loc = apply_mappings mappings (join " " (split loc)).
Proof. destruct loc; reflexivity. Qed.

Lemma mappings_keys (old new : string) :
  In (old, new) mappings -> old <> EmptyString.
Proof.
  unfold mappings. cbn [In]. intros Hin.
  repeat (destruct Hin as [Hin|Hin]; [inversion Hin; discriminate|]).
  contradiction.
Qed.

Lemma apply_mappings_absent (table : list (string * string)) (loc : string) :
  (forall old new, In (old, new) table ->
                   old <> EmptyString /\ str_in old loc = false) ->
  apply_mappings table loc = loc.
Proof.
  unfold apply_mappings. revert loc.
  induction table as [|[old new] table IH]; intros loc Ht; [reflexivity|].
  cbn [fold_left fst snd].
  destruct (Ht old new (or_introl eq_refl)) as [Hne Habs].
  rewrite (@replace_absent old new loc Hne Habs). apply IH.
  intros o n Hin. apply (Ht o n). now right.
Qed.

Lemma apply_mappings_app (t1 t2 : list (string * string)) (loc : string) :
  apply_mappings (t1 ++ t2) loc = apply_mappings t2 (apply_mappings t1 loc).
Proof. unfold apply_mappings. apply fold_left_app. Qed.

Lemma prefix_app_long (p a b : string) :
  (String.length p <= String.length a)%nat -> prefix p (a ++ b) = prefix p a.
Proof.
  revert a. induction p as [|c p IH]; intros a Hlen.
  - destruct a, b; reflexivity.
  - destruct a as [|c' a]; [cbn [String.length] in Hlen; lia|].
    cbn [append prefix]. destruct (ascii_dec c c'); [|reflexivity].
    apply IH. cbn [String.length] in Hlen. lia.
Qed.

Lemma but_last_last (s : string) :
  s <> EmptyString ->
  exists l, s = but_last s ++ String l EmptyString /\
            S (String.length (but_last s)) = String.length s.
Proof.
  induction s as [|c s IH]; [contradiction|]. intros _.
  destruct s as [|c' s].
  - exists c. split; reflexivity.
  - destruct IH as [l [E L]]; [discriminate|].
    exists l. change (but_last (String c (String c' s)))
      with (String c (but_last (String c' s))).
    cbn [append String.length]. split; [now rewrite <- E | now rewrite L].
Qed.

Lemma length_append (a b : string) :
  String.length (a ++ b) = (String.length a + String.length b)%nat.
Proof. induction a; cbn [append String.length]; [reflexivity | now rewrite IHa]. Qed.

Lemma replace_from_skip (old new x post : string) :
  replace_from old new (String.length x) (x ++ post) = replace_from old new 0 post.
Proof.
  induction x as [|c x IH]; [reflexivity|].
  cbn [String.length append replace_from]. exact IH.
Qed.

(** Where [old] occurs once, [replace] rewrites that occurrence and
    leaves the rest. *)
Lemma replace_once (old new pre post : string) :
  old <> EmptyString -> only_there old pre post ->
  replace old new (pre ++ old ++ post) = pre ++ new ++ post.
Proof.
  intros Hne [Hpre Hpost].
  destruct (but_last_last Hne) as [l [El Ll]].
  assert (R : replace old new (pre ++ old ++ post)
              = replace_from old new 0 (pre ++ old ++ post))
    by (destruct old; [contradiction | reflexivity]).
  rewrite R. clear R.
  induction pre as [|c pre IH].
  - cbn [append]. destruct old as [|c o]; [contradiction|].
    cbn [append replace_from].
    assert (P : prefix (String c o) (String c (o ++ post)) = true)
      by (apply prefix_occurs; now exists post).
    rewrite P. f_equal.
    replace (String.length (String c o) - 1)%nat with (String.length o)
      by (cbn [String.length]; lia).
    rewrite replace_from_skip. now apply replace_from_absent.
  - cbn [append str_in] in Hpre. apply orb_false_iff in Hpre as [Hp Hpre].
    cbn [append replace_from].
    assert (P : prefix old (String c (pre ++ old ++ post)) = false).
    { rewrite El at 2. rewrite append_assoc.
      change (String c (pre ++ but_last old ++ String l "" ++ post))
        with (String c (pre ++ but_last old ++ String l (EmptyString ++ post))).
      rewrite <- (append_assoc pre (but_last old)).
      change (String c ((pre ++ but_last old) ++ String l ("" ++ post)))
        with (String c (pre ++ but_last old) ++ String l ("" ++ post)).
      rewrite prefix_app_long; [exact Hp|].
      cbn [String.length]. rewrite length_append. lia. }
    rewrite P. f_equal. now apply IH.
Qed.

Lemma mappings_unique_keys : NoDup (map fst mappings).
Proof.
  unfold mappings. cbn [map fst].
  repeat (constructor; [cbn [In]; intuition discriminate|]). constructor.
Qed.

(** C9.  For a location without the two characters that [str.lower]
    turns into ASCII letters, [is_eu_location] and [is_uae_location]
    answer true exactly when an entry of their fixed vocabulary occurs
    somewhere in the location, case ignored.

    [normalize_location] collapses the runs of whitespace: it works on
    the words of the location (non-empty, free of whitespace, the
    location's non-blank characters in order) put one space apart; so
    words that are separated by runs of whitespace, with whitespace before
    the first and after the last or without, come out separated by single
    spaces, and a location made of whitespace only comes out empty.  This
    is for a location whose whitespace is in ASCII.  Then it applies
    the substitution table: a location that holds one entry of the table,
    once, has it replaced by its value, the text before and after it
    unchanged, and a location that holds none is not changed by the
    table.

    The four examples of the specification evaluate as it says. *)
Theorem location_classification :
  (forall loc, folds_as_ascii loc ->
     (is_eu_location loc = true <->
      exists country, In country eu_countries /\ occurs_in_nocase country loc)) /\
  (forall loc, folds_as_ascii loc ->
     (is_uae_location loc = true <->
      exists indicator, In indicator uae_indicators /\
                        occurs_in_nocase indicator loc)) /\
  (forall loc, ascii_spaced loc ->
     Forall is_word (split loc) /\
     concat_words (split loc) = drop_spaces loc /\
     normalize_location loc
     = apply_mappings mappings (single_spaced (split loc))) /\
  (forall lead w rest trail,
     blanks lead -> plain_word w ->
     Forall (fun p => gap (fst p) /\ plain_word (snd p)) rest ->
     blanks trail ->
     normalize_location (lead ++ w ++ spaced rest ++ trail)
     = apply_mappings mappings (single_spaced (w :: map snd rest)) /\
     ((forall old new, In (old, new) mappings ->
         str_in old (single_spaced (w :: map snd rest)) = false) ->
      normalize_location (lead ++ w ++ spaced rest ++ trail)
      = single_spaced (w :: map snd rest))) /\
  (forall b, blanks b -> normalize_location b = EmptyString) /\
  (forall old new pre post ws,
     In (old, new) mappings ->
     Forall plain_word ws -> pre ++ old ++ post = single_spaced ws ->
     only_there old pre post ->
     (forall k v, In (k, v) mappings -> k <> old ->
        str_in k (pre ++ old ++ post) = false /\
        str_in k (pre ++ new ++ post) = false) ->
     normalize_location (pre ++ old ++ post) = pre ++ new ++ post) /\
  is_eu_location "Berlin, Germany" = true /\
  is_eu_location "Dubai, UAE" = false /\
  is_uae_location "Abu Dhabi" = true /\
  occurs_in "Germany" (normalize_location "Deutschland").
Proof.
  assert (Hwords : forall ws, Forall plain_word ws -> Forall is_word ws)
    by (intros ws H; eapply Forall_impl; [|exact H]; intros w [Hw _]; exact Hw).
  split; [|split; [|split; [|split; [|split; [|split]]]]].
  - intros loc _. unfold is_eu_location. split; intros H.
    + apply (existsb_str_in lower) in H. exact H.
    + apply (existsb_str_in lower). exact H.
  - intros loc _. unfold is_uae_location.
    assert (Hl : forall i, In i uae_indicators -> lower i = i).
    { intros i Hin. cbn [uae_indicators In] in Hin.
      repeat (destruct Hin as [<-|Hin]; [reflexivity|]). contradiction. }
    split.
    + intros H. apply (existsb_str_in (fun x => x)) in H.
      destruct H as [i [Hin Hocc]]. exists i; split; [assumption|].
      unfold occurs_in_nocase. now rewrite (Hl i Hin).
    + intros [i [Hin Hocc]].
      apply (existsb_str_in (fun x => x)). exists i; split; [assumption|].
      unfold occurs_in_nocase in Hocc. now rewrite (Hl i Hin) in Hocc.
  - intros loc _. split; [|split].
    + apply split_from_words; reflexivity.
    + unfold split. now rewrite split_from_concat.
    + now rewrite normalize_location_eq, join_single_spaced.
  - intros lead w rest trail Hlead [Hw _] Hrest Htrail.
    assert (Hrest' : Forall (fun p => gap (fst p) /\ is_word (snd p)) rest).
    { eapply Forall_impl; [|exact Hrest].
      intros p [Hg [Hp _]]. now split. }
    assert (E : normalize_location (lead ++ w ++ spaced rest ++ trail)
                = apply_mappings mappings (single_spaced (w :: map snd rest))).
    { rewrite normalize_location_eq, (split_blanks _ Hlead).
      rewrite (split_spaced Hrest' Htrail Hw). now rewrite join_single_spaced. }
    split; [exact E|].
    intros Hkeys. rewrite E. apply apply_mappings_absent.
    intros old new Hin. split; [now apply (@mappings_keys old new) | now apply (Hkeys old new)].
  - intros b Hb. rewrite normalize_location_eq.
    rewrite <- (append_nil_r b), (split_blanks _ Hb). reflexivity.
  - intros old new pre post ws Hin Hws Hs Honce Hothers.
    pose proof (@mappings_keys old new Hin) as Hne.
    rewrite normalize_location_eq, Hs, <- join_single_spaced.
    rewrite (split_join (Hwords ws Hws)). rewrite join_single_spaced, <- Hs.
    destruct (in_split _ _ Hin) as [t1 [t2 Et]].
    pose proof mappings_unique_keys as Hnd.
    rewrite Et in Hnd. rewrite map_app in Hnd. cbn [map fst] in Hnd.
    apply NoDup_remove_2 in Hnd.
    assert (Hk : forall k v, In (k, v) (t1 ++ t2) ->
                 k <> EmptyString /\
                 str_in k (pre ++ old ++ post) = false /\
                 str_in k (pre ++ new ++ post) = false).
    { intros k v Hkv.
      assert (Hm : In (k, v) mappings).
      { rewrite Et. apply in_app_or in Hkv as [H|H]; apply in_or_app;
          [now left | right; now right]. }
      split; [now apply (@mappings_keys k v)|].
      apply (Hothers k v Hm). intros ->. apply Hnd.
      rewrite <- map_app. now apply (in_map fst _ (old, v)). }
    rewrite Et.
    change (t1 ++ (old, new) :: t2)%list with (t1 ++ [(old, new)] ++ t2)%list.
    rewrite !apply_mappings_app.
    rewrite (apply_mappings_absent t1).
    + unfold apply_mappings at 2. cbn [fold_left fst snd].
      rewrite (replace_once new Hne Honce).
      apply apply_mappings_absent. intros k v Hkv.
      destruct (Hk k v) as [H1 [_ H3]]; [apply in_or_app; now right|].
      now split.
    + intros k v Hkv.
      destruct (Hk k v) as [H1 [H2 _]]; [apply in_or_app; now left|].
      now split.
  - repeat split; try reflexivity. apply str_in_occurs. reflexivity.
Qed.

End Classifier.

Section ClassifierRuns.
Import Py Props DateProps LocationProps helpers.
Local Open Scope string_scope.

Lemma location_classification_witness :
  is_eu_location "München, GERMANY" = true /\
  is_uae_location "Jumeirah, DUBAI" = true /\
  normalize_location "  Abu   Dhabi " = "Abu Dhabi" /\
  normalize_location "   " = "" /\
  normalize_location "Berlin, Deutschland" = "Berlin, Germany".
Proof.
  destruct location_classification
    as [Heu [Huae [_ [Hcollapse [Hblank [Hsubst _]]]]]].
  assert (Hplain : forall w,
             w <> "" -> all_chars (fun c => negb (isspace c)) w = true ->
             utf8 w ->
             Forall (fun sp => str_in sp w = false) unicode_spaces ->
             plain_word w)
    by (intros w H1 H2 H3 H4; split; split; assumption).
  split; [|split; [|split; [|split]]].
  - apply (Heu "München, GERMANY"); [repeat split; vm_compute; reflexivity|].
    exists "Germany". split; [cbn [eu_countries In]; auto 20|].
    apply str_in_occurs. vm_compute. reflexivity.
  - apply (Huae "Jumeirah, DUBAI"); [repeat split; vm_compute; reflexivity|].
    exists "dubai". split; [cbn [uae_indicators In]; auto 20|].
    apply str_in_occurs. vm_compute. reflexivity.
  - refine (proj2 (Hcollapse "  " "Abu" [("   ", "Dhabi")] " " _ _ _ _) _).
    + vm_compute. reflexivity.
    + apply Hplain; [discriminate | reflexivity | reflexivity | repeat constructor].
    + constructor; [|constructor]. split.
      * split; [discriminate | vm_compute; reflexivity].
      * apply Hplain; [discriminate | reflexivity | reflexivity | repeat constructor].
    + vm_compute. reflexivity.
    + intros old new Hin. unfold mappings in Hin. cbn [In] in Hin.
      repeat (destruct Hin as [Hin|Hin];
              [inversion Hin; vm_compute; reflexivity|]).
      contradiction.
  - apply Hblank. vm_compute. reflexivity.
  - refine (Hsubst "Deutschland" "Germany" "Berlin, " ""
              ["Berlin,"; "Deutschland"] _ _ _ _ _).
    + unfold mappings. cbn [In]. auto 10.
    + constructor; [|constructor; [|constructor]];
        (apply Hplain; [discriminate | reflexivity | reflexivity | repeat constructor]).
    + reflexivity.
    + split; vm_compute; reflexivity.
    + intros k v Hin Hk. unfold mappings in Hin. cbn [In] in Hin.
      repeat (destruct Hin as [Hin|Hin];
              [inversion Hin; subst;
               first [now elim Hk | split; vm_compute; reflexivity]|]).
      contradiction.
Defined.

End ClassifierRuns.

(* ===================================================================== *)
(** * The stable sort                                                     *)
(* ===================================================================== *)

Section SortFacts.
Import Py Props base_scraper.
Variable A : Type.
Variable key : A -> bool * bool.

Lemma insert_by_In (x y : A) (l : list A) :
  In y (insert_by key x l) <-> y = x \/ In y l.
Proof.
  induction l as [|z l IH]; simpl.
  - intuition.
  - destruct (key_lt (key z) (key x)); simpl; rewrite ?IH; intuition.
Qed.

Lemma sort_by_In (y : A) (l : list A) : In y (sort_by key l) <-> In y l.
Proof.
  induction l as [|x l IH]; simpl; [reflexivity|].
  rewrite insert_by_In, IH. intuition.
Qed.

Lemma insert_by_pass (x : A) (l1 l2 : list A) :
  Forall (fun y => key_lt (key y) (key x) = true) l1 ->
  insert_by key x (l1 ++ l2) = l1 ++ insert_by key x l2.
Proof.
  induction 1 as [|y l1 Hy _ IH]; simpl; [reflexivity|].
  now rewrite Hy, IH.
Qed.

Lemma insert_by_stop (x : A) (l : list A) :
  Forall (fun y => key_lt (key y) (key x) = false) l ->
  insert_by key x l = x :: l.
Proof.
  destruct 1 as [|y l Hy _]; simpl; [reflexivity|]. now rewrite Hy.
Qed.

Lemma tier_keys (k : bool * bool) (l : list A) :
  Forall (fun y => key y = k) (tier key k l).
Proof.
  apply Forall_forall. intros y Hy. apply filter_In in Hy as [_ Hy].
  apply andb_true_iff in Hy as [H1 H2].
  apply eqb_prop in H1, H2. destruct (key y), k; simpl in *; congruence.
Qed.

Lemma tier_lt (k kx : bool * bool) (b : bool) (l : list A) :
  key_lt k kx = b ->
  Forall (fun y => key_lt (key y) kx = b) (tier key k l).
Proof.
  intros H. eapply Forall_impl; [|apply tier_keys].
  simpl; intros y ->; exact H.
Qed.

(** A stable sort on pairs of booleans puts the four key classes one
    after the other, each in its original order. *)
Lemma sort_by_tiers (l : list A) :
  sort_by key l =
  tier key (false, false) l ++ tier key (false, true) l ++
  tier key (true, false) l ++ tier key (true, true) l.
Proof.
  induction l as [|x l IH]; [reflexivity|].
  cbn [sort_by fold_right]. fold (sort_by key l). rewrite IH.
  unfold tier at 5 6 7 8. cbn [filter].
  destruct (key x) as [[|] [|]] eqn:Ex; cbn [fst snd Bool.eqb andb];
    fold (tier key (false, false) l); fold (tier key (false, true) l);
    fold (tier key (true, false) l); fold (tier key (true, true) l).
  - (* (true, true): after the three other classes *)
    rewrite insert_by_pass by (rewrite Ex; now apply tier_lt).
    rewrite insert_by_pass by (rewrite Ex; now apply tier_lt).
    rewrite insert_by_pass by (rewrite Ex; now apply tier_lt).
    rewrite insert_by_stop by (rewrite Ex; now apply tier_lt).
    reflexivity.
  - rewrite insert_by_pass by (rewrite Ex; now apply tier_lt).
    rewrite insert_by_pass by (rewrite Ex; now apply tier_lt).
    rewrite insert_by_stop
      by (rewrite Ex; apply Forall_app; split; now apply tier_lt).
    reflexivity.
  - rewrite insert_by_pass by (rewrite Ex; now apply tier_lt).
    rewrite insert_by_stop
      by (rewrite Ex; repeat (apply Forall_app; split); now apply tier_lt).
    reflexivity.
  - rewrite insert_by_stop
      by (rewrite Ex; repeat (apply Forall_app; split); now apply tier_lt).
    reflexivity.
Qed.

End SortFacts.

(* ===================================================================== *)
(** * The filter loop                                                     *)
(* ===================================================================== *)

Section FilterFacts.
Import Py Props helpers base_scraper.
Variable raw : Type.
Variable self : BaseScraper raw.
Variable now : datetime.

Lemma keep_mark (j : Job) : keep self now (mark j) = keep self now j.
Proof. reflexivity. Qed.

Lemma mark_mark (j : Job) : mark (mark j) = mark j.
Proof. reflexivity. Qed.

Lemma upd_same (h : Heap) (a : addr) (j : Job) : upd h a j a = j.
Proof. unfold upd. now rewrite Nat.eqb_refl. Qed.

Lemma upd_other (h : Heap) (a b : addr) (j : Job) : b <> a -> upd h a j b = h b.
Proof. unfold upd. intros H. apply Nat.eqb_neq in H. now rewrite H. Qed.

Lemma keep_upd_mark (h : Heap) (a b : addr) :
  keep self now (upd h a (mark (h a)) b) = keep self now (h b).
Proof.
  unfold upd. destruct (Nat.eqb_spec b a) as [->|]; [apply keep_mark | reflexivity].
Qed.

Lemma kept_jobs_upd_mark (h : Heap) (a : addr) (jobs : list addr) :
  kept_jobs self now (upd h a (mark (h a))) jobs = kept_jobs self now h jobs.
Proof.
  unfold kept_jobs. apply filter_ext. intros b. apply keep_upd_mark.
Qed.

Lemma mark_all_at (kept : list addr) (h : Heap) (a : addr) :
  mark_all kept h a =
  if existsb (Nat.eqb a) kept then mark (h a) else h a.
Proof.
  revert h. induction kept as [|b kept IH]; intros h; [reflexivity|].
  cbn [mark_all fold_left existsb]. fold (mark_all kept (upd h b (mark (h b)))).
  rewrite IH. unfold upd.
  destruct (Nat.eqb_spec a b) as [->|]; cbn [orb].
  - destruct (existsb (Nat.eqb b) kept); [apply mark_mark | reflexivity].
  - reflexivity.
Qed.

Lemma existsb_eqb_In (a : addr) (l : list addr) :
  existsb (Nat.eqb a) l = true <-> In a l.
Proof.
  rewrite existsb_exists. split.
  - intros [x [Hin E]]. apply Nat.eqb_eq in E. now subst.
  - intros H. exists a. split; [assumption | apply Nat.eqb_refl].
Qed.

Lemma mark_all_kept (kept : list addr) (h : Heap) (a : addr) :
  In a kept -> mark_all kept h a = mark (h a).
Proof.
  intros H. rewrite mark_all_at.
  apply existsb_eqb_In in H. now rewrite H.
Qed.


Lemma kept_jobs_cons (h : Heap) (a : addr) (jobs : list addr) :
  kept_jobs self now h (a :: jobs) =
  if keep self now (h a) then a :: kept_jobs self now h jobs
  else kept_jobs self now h jobs.
Proof. reflexivity. Qed.

(** Heaps are compared cell by cell. *)
Lemma kept_jobs_ext (h1 h2 : Heap) (jobs : list addr) :
  (forall b, h1 b = h2 b) ->
  kept_jobs self now h1 jobs = kept_jobs self now h2 jobs.
Proof.
  intros H. unfold kept_jobs. apply filter_ext. intros b. now rewrite H.
Qed.

Lemma mark_all_ext (h1 h2 : Heap) (kept : list addr) (b : addr) :
  (forall b, h1 b = h2 b) -> mark_all kept h1 b = mark_all kept h2 b.
Proof. intros H. now rewrite !mark_all_at, H. Qed.

(** The two [setattr] of the loop body amount to one [mark]. *)
Lemma setattr_flags (h : Heap) (a b : addr) :
  let n := normalize_location (location (h a)) in
  upd (upd h a (with_is_eu (is_eu_location n) (h a))) a
      (with_is_uae (is_uae_location n)
         (upd h a (with_is_eu (is_eu_location n) (h a)) a)) b
  = upd h a (mark (h a)) b.
Proof.
  cbv zeta. rewrite upd_same. unfold upd, mark.
  now destruct (Nat.eqb b a).
Qed.

Lemma stops_mark (j : Job) : stops self (mark j) = stops self j.
Proof. reflexivity. Qed.

Lemma blocked_false (h : Heap) (jobs : list addr) :
  blocked self h jobs = false <->
  forall a, In a jobs -> stops self (h a) = false.
Proof.
  unfold blocked. induction jobs as [|a jobs IH]; cbn [existsb In].
  - split; [intros _ a [] | reflexivity].
  - rewrite orb_false_iff, IH. split.
    + intros [Ha Hj] b [<-|Hb]; [assumption | now apply Hj].
    + intros H. split; [apply H; now left | intros b Hb; apply H; now right].
Qed.

Lemma blocked_ext (h1 h2 : Heap) (jobs : list addr) :
  (forall b, h1 b = h2 b) -> blocked self h1 jobs = blocked self h2 jobs.
Proof.
  intros H. unfold blocked. induction jobs as [|a jobs IH]; [reflexivity|].
  cbn [existsb]. now rewrite H, IH.
Qed.

Lemma blocked_upd_mark (h : Heap) (a : addr) (jobs : list addr) :
  blocked self (upd h a (mark (h a))) jobs = blocked self h jobs.
Proof.
  unfold blocked. induction jobs as [|b jobs IH]; [reflexivity|].
  cbn [existsb]. rewrite IH. f_equal.
  unfold upd. destruct (Nat.eqb_spec b a) as [->|]; [apply stops_mark | reflexivity].
Qed.

(** The age test raises on an aware date, and on no other. *)
Lemma too_old_aware (d : datetime) (utcoffset : timedelta) :
  too_old self now (Some (aware d utcoffset)) = Raise (PyException "TypeError").
Proof. reflexivity. Qed.

Lemma too_old_returns (posted : option any_datetime) :
  is_aware posted = false -> exists old, too_old self now posted = Ok old.
Proof.
  destruct posted as [[d|d utcoffset]|]; cbn [is_aware]; intros H.
  - eexists. reflexivity.
  - discriminate.
  - eexists. reflexivity.
Qed.

Lemma keep_not_stops (j : Job) : keep self now j = true -> stops self j = false.
Proof.
  unfold keep, stops. destruct (title_match self (title j)); [|reflexivity].
  destruct (posted_date j) as [[d|d utcoffset]|]; cbn [andb is_aware too_old];
    [reflexivity | discriminate | reflexivity].
Qed.

Lemma keep_not_aware (j : Job) :
  keep self now j = true -> is_aware (posted_date j) = false.
Proof.
  unfold keep. intros H. apply andb_true_iff in H as [_ H].
  destruct (posted_date j) as [[d|d utcoffset]|]; cbn [is_aware too_old] in *;
    [reflexivity | discriminate | reflexivity].
Qed.

(** When no job stops it, the loop returns the kept jobs after
    [filtered], in the order of [jobs], and leaves every kept job
    marked. *)
Lemma filter_loop_run (jobs filtered : list addr) (h : Heap) :
  blocked self h jobs = false ->
  exists h',
    filter_loop self now jobs filtered h =
      (Ok (filtered ++ kept_jobs self now h jobs)%list, h') /\
    forall b, h' b = mark_all (kept_jobs self now h jobs) h b.
Proof.
  revert filtered h. induction jobs as [|a jobs IH]; intros filtered h Hb.
  - exists h. simpl. unfold ret. now rewrite app_nil_r.
  - unfold blocked in Hb. cbn [existsb] in Hb.
    apply orb_false_iff in Hb as [Hs Hb]. fold (blocked self h jobs) in Hb.
    rewrite kept_jobs_cons. unfold keep. unfold stops in Hs.
    cbn [filter_loop]. unfold bind at 1, getattr at 1.
    destruct (title_match self (title (h a))) eqn:Et; cbn [negb andb] in *.
    + unfold bind at 1, getattr at 1.
      destruct (too_old_returns (posted_date (h a)) Hs) as [old Eo].
      rewrite Eo. unfold bind at 1, lift at 1.
      destruct old; cbn [negb].
      * now apply IH.
      * unfold bind at 1, getattr at 1.
        unfold bind at 1, setattr at 1, modify at 1.
        unfold bind at 1, setattr at 1, modify at 1.
        match goal with
        | |- context [filter_loop _ _ _ _ ?h1] =>
            assert (Heq : forall b, h1 b = upd h a (mark (h a)) b)
              by (intros b; apply setattr_flags);
            destruct (IH (filtered ++ [a])%list h1) as [h' [Hrun Hh']];
              [now rewrite (blocked_ext _ _ jobs Heq), blocked_upd_mark|]
        end.
        rewrite (kept_jobs_ext _ _ jobs Heq), kept_jobs_upd_mark in Hrun, Hh'.
        exists h'. split.
        -- rewrite Hrun. now rewrite <- app_assoc.
        -- intros b. rewrite Hh'. cbn [mark_all fold_left].
           apply mark_all_ext. exact Heq.
    + now apply IH.
Qed.

(** When a job stops it, the loop raises the [TypeError] of the
    subtraction. *)
Lemma filter_loop_stops (jobs filtered : list addr) (h : Heap) :
  blocked self h jobs = true ->
  exists h',
    filter_loop self now jobs filtered h = (Raise (PyException "TypeError"), h').
Proof.
  revert filtered h. induction jobs as [|a jobs IH]; intros filtered h Hb.
  - discriminate.
  - unfold blocked in Hb. cbn [existsb] in Hb. fold (blocked self h jobs) in Hb.
    unfold stops in Hb.
    cbn [filter_loop]. unfold bind at 1, getattr at 1.
    destruct (title_match self (title (h a))) eqn:Et; cbn [negb andb orb] in *.
    + unfold bind at 1, getattr at 1.
      destruct (posted_date (h a)) as [[d|d utcoffset]|] eqn:Ep;
        cbn [is_aware orb] in Hb.
      * destruct (too_old_returns (Some (naive d)) eq_refl) as [old Eo].
        rewrite Eo. unfold bind at 1, lift at 1. destruct old.
        -- now apply IH.
        -- unfold bind at 1, getattr at 1.
           unfold bind at 1, setattr at 1, modify at 1.
           unfold bind at 1, setattr at 1, modify at 1.
           match goal with
           | |- context [filter_loop _ _ _ _ ?h1] =>
               assert (Heq : forall b, h1 b = upd h a (mark (h a)) b)
                 by (intros b; apply setattr_flags);
               apply IH;
               now rewrite (blocked_ext _ _ jobs Heq), blocked_upd_mark
           end.
      * rewrite too_old_aware. unfold bind at 1, lift at 1. now exists h.
      * cbn [too_old]. unfold bind at 1, lift at 1.
        unfold bind at 1, getattr at 1.
        unfold bind at 1, setattr at 1, modify at 1.
        unfold bind at 1, setattr at 1, modify at 1.
        match goal with
        | |- context [filter_loop _ _ _ _ ?h1] =>
            assert (Heq : forall b, h1 b = upd h a (mark (h a)) b)
              by (intros b; apply setattr_flags);
            apply IH;
            now rewrite (blocked_ext _ _ jobs Heq), blocked_upd_mark
        end.
    + now apply IH.
Qed.

Lemma sort_key_ext (h1 h2 : Heap) (a : addr) :
  (forall b, h1 b = h2 b) -> sort_key h1 a = sort_key h2 a.
Proof. intros H. unfold sort_key. now rewrite H. Qed.

(** [filter_jobs] then returns the kept jobs, stably sorted by the key
    read from the heap the loop left. *)
Lemma filter_jobs_run (jobs : list addr) (h : Heap) :
  blocked self h jobs = false ->
  exists h',
    filter_jobs self now jobs h =
      (Ok (sort_by (sort_key h') (kept_jobs self now h jobs)), h') /\
    forall b, h' b = mark_all (kept_jobs self now h jobs) h b.
Proof.
  intros Hb. destruct (filter_loop_run jobs [] h Hb) as [h' [Hrun Hh']].
  exists h'. split; [|exact Hh'].
  unfold filter_jobs, bind. rewrite Hrun. reflexivity.
Qed.

Lemma filter_jobs_stops (jobs : list addr) (h : Heap) :
  blocked self h jobs = true ->
  exists h',
    filter_jobs self now jobs h = (Raise (PyException "TypeError"), h').
Proof.
  intros Hb. destruct (filter_loop_stops jobs [] h Hb) as [h' Hrun].
  exists h'. unfold filter_jobs, bind. now rewrite Hrun.
Qed.

Lemma kept_jobs_In (jobs : list addr) (h : Heap) (a : addr) :
  In a (kept_jobs self now h jobs) <-> In a jobs /\ keep self now (h a) = true.
Proof. unfold kept_jobs. apply filter_In. Qed.

End FilterFacts.

(* ===================================================================== *)
(** * The filter step of the pipeline                                     *)
(* ===================================================================== *)

Section FilterTheorems.
Import Py Props helpers base_scraper.
Local Open Scope Z_scope.
Variable raw : Type.
Variable self : BaseScraper raw.
Variable now : datetime.

Lemma td_days_mul (n : Z) : td_days (n * us_per_day) = n.
Proof. unfold td_days. apply Z.div_mul. discriminate. Qed.

Lemma too_old_spec (posted : option any_datetime) :
  too_old self now posted = Ok false <->
  posted = None \/
  exists d n, posted = Some d /\ days_since_posted now (Some d) = Ok (Finite n) /\
              n <= max_age_days self.
Proof.
  destruct posted as [[d|d utcoffset]|];
    cbn [too_old days_since_posted sub_datetime rbind days_gt].
  - split.
    + intros H. injection H as H. apply Z.ltb_ge in H.
      right. exists (naive d), (td_days (datetime_diff now d)). auto.
    + intros [H|[d' [n [Hd [Hn Hle]]]]]; [discriminate|].
      injection Hd as <-. cbn [days_since_posted sub_datetime rbind] in Hn.
      injection Hn as <-. f_equal. now apply Z.ltb_ge.
  - split; [discriminate|].
    intros [H|[d' [n [Hd [Hn Hle]]]]]; [discriminate|].
    injection Hd as <-. discriminate.
  - split; [now left | reflexivity].
Qed.

Lemma keep_spec (j : Job) :
  keep self now j = true <->
  (exists t, In t (job_titles self) /\ occurs_in_nocase t (title j)) /\
  (posted_date j = None \/
   exists d n, posted_date j = Some d /\
               days_since_posted now (Some d) = Ok (Finite n) /\
               n <= max_age_days self).
Proof.
  unfold keep. rewrite andb_true_iff, <- too_old_spec.
  unfold title_match. rewrite (existsb_str_in lower).
  destruct (too_old self now (posted_date j)) as [[|]|e]; cbn [negb];
    intuition congruence.
Qed.

Lemma stops_spec (j : Job) :
  stops self j = true <->
  (exists t, In t (job_titles self) /\ occurs_in_nocase t (title j)) /\
  exists d utcoffset, posted_date j = Some (aware d utcoffset).
Proof.
  unfold stops. rewrite andb_true_iff.
  unfold title_match. rewrite (existsb_str_in lower).
  destruct (posted_date j) as [[d|d utcoffset]|]; cbn [is_aware].
  - split; [intros [_ H]; discriminate | intros [_ [d' [o H]]]; discriminate].
  - split; [intros [H _]; split; [exact H | now exists d, utcoffset]
           | intros [H _]; now split].
  - split; [intros [_ H]; discriminate | intros [_ [d' [o H]]]; discriminate].
Qed.

(** C3.  What [filter_jobs] does with the jobs it is given, the configured
    titles being ASCII strings and no title of a job holding one of the
    two characters that [str.lower] turns into ASCII letters.

    When no job whose title matches carries an aware [posted_date],
    [filter_jobs] returns, and a job is in its result exactly when it is
    in the input, some configured title occurs in its title (case
    ignored), and its [posted_date] is absent or its age in days is at
    most [max_age_days].  At the boundary, for a job whose title matches:
    posted [max_age_days] days before [now] it is kept, posted
    [max_age_days + 1] days before [now] it is dropped, and without a
    [posted_date] it is kept whatever [max_age_days] is.

    When a job whose title matches carries an aware [posted_date],
    [filter_jobs] raises [TypeError] and keeps nothing, whatever the
    other jobs are.

    With the titles [["Data Engineer"]], "Senior Data Engineer II" and
    "senior DATA engineer" match and "Data Scientist" does not. *)
Theorem filter_keeps_matching_recent_jobs (jobs : list addr) (h : Heap) :
  Forall is_ascii (job_titles self) ->
  (forall a, In a jobs -> folds_as_ascii (title (h a))) ->
  (blocked self h jobs = false ->
   exists out h',
     filter_jobs self now jobs h = (Ok out, h') /\
     (forall a,
        In a out <->
        In a jobs /\
        (exists t, In t (job_titles self) /\ occurs_in_nocase t (title (h a))) /\
        (posted_date (h a) = None \/
         exists d n, posted_date (h a) = Some d /\
                     days_since_posted now (Some d) = Ok (Finite n) /\
                     n <= max_age_days self)) /\
     (forall a, In a jobs -> title_match self (title (h a)) = true ->
        (posted_date (h a)
         = Some (naive (now - max_age_days self * us_per_day)) ->
         In a out) /\
        (posted_date (h a)
         = Some (naive (now - (max_age_days self + 1) * us_per_day)) ->
         ~ In a out) /\
        (posted_date (h a) = None -> In a out))) /\
  (blocked self h jobs = true <->
   exists a d utcoffset,
     In a jobs /\
     (exists t, In t (job_titles self) /\ occurs_in_nocase t (title (h a))) /\
     posted_date (h a) = Some (aware d utcoffset)) /\
  (blocked self h jobs = true ->
   exists h',
     filter_jobs self now jobs h = (Raise (PyException "TypeError"), h')) /\
  (job_titles self = ["Data Engineer"%string] ->
   title_match self "Senior Data Engineer II" = true /\
   title_match self "senior DATA engineer" = true /\
   title_match self "Data Scientist" = false).
Proof.
  intros _ _. split; [|split; [|split]].
  - intros Hb.
    destruct (filter_jobs_run self now jobs h Hb) as [h' [Hrun Hh']].
    exists (sort_by (sort_key h') (kept_jobs self now h jobs)), h'.
    split; [exact Hrun|].
    assert (Hin : forall a,
               In a (sort_by (sort_key h') (kept_jobs self now h jobs))
               <-> In a jobs /\ keep self now (h a) = true).
    { intros a. now rewrite sort_by_In, kept_jobs_In. }
    split.
    + intros a. rewrite Hin, keep_spec. reflexivity.
    + intros a Ha Ht. unfold keep in Hin. repeat split.
      * intros Hp. apply Hin. split; [assumption|].
        rewrite Ht, Hp.
        cbn [too_old days_since_posted sub_datetime rbind days_gt andb].
        unfold datetime_diff.
        replace (now - (now - max_age_days self * us_per_day))
          with (max_age_days self * us_per_day) by ring.
        rewrite td_days_mul, Z.ltb_irrefl. reflexivity.
      * intros Hp Hout. apply Hin in Hout as [_ Hk].
        rewrite Ht, Hp in Hk.
        cbn [too_old days_since_posted sub_datetime rbind days_gt andb] in Hk.
        unfold datetime_diff in Hk.
        replace (now - (now - (max_age_days self + 1) * us_per_day))
          with ((max_age_days self + 1) * us_per_day) in Hk by ring.
        rewrite td_days_mul in Hk.
        apply negb_true_iff, Z.ltb_ge in Hk. lia.
      * intros Hp. apply Hin. split; [assumption|].
        rewrite Ht, Hp. reflexivity.
  - unfold blocked. rewrite existsb_exists. split.
    + intros [a [Ha Hs]]. apply stops_spec in Hs as [Ht [d [o Hp]]].
      now exists a, d, o.
    + intros [a [d [o [Ha [Ht Hp]]]]]. exists a. split; [assumption|].
      apply stops_spec. split; [assumption | now exists d, o].
  - apply filter_jobs_stops.
  - unfold title_match. intros ->. repeat split; reflexivity.
Qed.

Lemma flag_tier_sort_key (h : Heap) (eu uae : bool) (l : list addr) :
  tier (sort_key h) (negb eu, negb uae) l = flag_tier h eu uae l.
Proof.
  unfold tier, flag_tier, sort_key. apply filter_ext. intros a. simpl.
  now destruct (is_eu (h a)), (is_uae (h a)), eu, uae.
Qed.

Lemma three_tiers_four (h : Heap) (l : list addr) :
  (forall a, In a l -> is_eu (h a) && is_uae (h a) = false) ->
  (flag_tier h true true l ++ flag_tier h true false l ++
   flag_tier h false true l ++ flag_tier h false false l)%list
  = three_tiers h l.
Proof.
  intros H. unfold three_tiers, flag_tier.
  assert (E1 : filter (fun a => Bool.eqb (is_eu (h a)) true &&
                                Bool.eqb (is_uae (h a)) true) l = []).
  { induction l as [|x l IH]; [reflexivity|]. simpl.
    rewrite IH by (intros a Ha; apply H; now right).
    specialize (H x (or_introl eq_refl)).
    destruct (is_eu (h x)), (is_uae (h x)); simpl in *; congruence. }
  assert (E2 : filter (fun a => Bool.eqb (is_eu (h a)) true &&
                                Bool.eqb (is_uae (h a)) false) l =
               filter (fun a => is_eu (h a)) l).
  { clear E1. induction l as [|x l IH]; [reflexivity|]. simpl.
    rewrite IH by (intros a Ha; apply H; now right).
    specialize (H x (or_introl eq_refl)).
    destruct (is_eu (h x)), (is_uae (h x)); simpl in *; congruence. }
  assert (E3 : filter (fun a => Bool.eqb (is_eu (h a)) false &&
                                Bool.eqb (is_uae (h a)) true) l =
               filter (fun a => negb (is_eu (h a)) && is_uae (h a)) l).
  { apply filter_ext. intros a. now destruct (is_eu (h a)), (is_uae (h a)). }
  assert (E4 : filter (fun a => Bool.eqb (is_eu (h a)) false &&
                                Bool.eqb (is_uae (h a)) false) l =
               filter (fun a => negb (is_eu (h a)) && negb (is_uae (h a))) l).
  { apply filter_ext. intros a. now destruct (is_eu (h a)), (is_uae (h a)). }
  rewrite E1, E2, E3, E4. reflexivity.
Qed.

(** C2, as the code has it.  When no aware date stops the filter, it
    returns, and the sort after filtering is a stable
    partition of the kept jobs into four tiers, by the key
    [(not is_eu, not is_uae)]: EU and UAE, EU only, UAE only, neither;
    each tier keeps its original order.  When no kept job is both EU and
    UAE these are the three tiers EU, UAE, other.  Four kept jobs
    [A; B; C; D] whose locations classify as other, EU, UAE, EU come out
    as [B; D; C; A]. *)
Theorem filter_sort_is_stable_four_tier_partition (jobs : list addr) (h : Heap) :
  blocked self h jobs = false ->
  exists out h',
    filter_jobs self now jobs h = (Ok out, h') /\
    let kept := kept_jobs self now h jobs in
    out = (flag_tier h' true true kept ++ flag_tier h' true false kept ++
           flag_tier h' false true kept ++ flag_tier h' false false kept)%list /\
    ((forall a, In a kept -> is_eu (h' a) && is_uae (h' a) = false) ->
     out = three_tiers h' kept) /\
    (forall A B C D,
       jobs = [A; B; C; D] ->
       (forall a, In a jobs -> keep self now (h a) = true) ->
       classify (location (h A)) = (false, false) ->
       classify (location (h B)) = (true, false) ->
       classify (location (h C)) = (false, true) ->
       classify (location (h D)) = (true, false) ->
       out = [B; D; C; A]).
Proof.
  intros Hb.
  destruct (filter_jobs_run self now jobs h Hb) as [h' [Hrun Hh']].
  exists (sort_by (sort_key h') (kept_jobs self now h jobs)), h'.
  split; [exact Hrun|]. cbv zeta.
  assert (Hs : sort_by (sort_key h') (kept_jobs self now h jobs) =
               (flag_tier h' true true (kept_jobs self now h jobs) ++
                flag_tier h' true false (kept_jobs self now h jobs) ++
                flag_tier h' false true (kept_jobs self now h jobs) ++
                flag_tier h' false false (kept_jobs self now h jobs))%list).
  { rewrite sort_by_tiers.
    now rewrite <- (flag_tier_sort_key h' true true),
                <- (flag_tier_sort_key h' true false),
                <- (flag_tier_sort_key h' false true),
                <- (flag_tier_sort_key h' false false). }
  split; [exact Hs|]. split.
  - intros H. rewrite Hs. now apply three_tiers_four.
  - intros A B C D -> Hk HA HB HC HD. rewrite Hs.
    assert (Hkept : kept_jobs self now h [A; B; C; D] = [A; B; C; D]).
    { unfold kept_jobs. simpl.
      rewrite !Hk by (simpl; auto). reflexivity. }
    rewrite Hkept in *.
    assert (Hm : forall a, In a [A; B; C; D] -> h' a = mark (h a)).
    { intros a Ha. rewrite Hh'. now apply mark_all_kept. }
    unfold flag_tier. cbn [filter].
    rewrite !Hm by (simpl; auto).
    unfold classify in HA, HB, HC, HD.
    injection HA as HA1 HA2. injection HB as HB1 HB2.
    injection HC as HC1 HC2. injection HD as HD1 HD2.
    unfold mark. cbn [is_eu is_uae with_is_eu with_is_uae location].
    rewrite HA1, HA2, HB1, HB2, HC1, HC2, HD1, HD2. reflexivity.
Qed.


End FilterTheorems.

(* ===================================================================== *)
(** * Concrete runs of the filter                                         *)
(* ===================================================================== *)

Section FilterRuns.
Import Py Props helpers base_scraper Examples.
Local Open Scope Z_scope.

Lemma filter_keeps_matching_recent_jobs_witness :
  (exists out h',
     filter_jobs quiet noon [0; 1; 2; 3; 4]%nat boundary = (Ok out, h') /\
     In 0%nat out /\ ~ In 1%nat out /\ In 2%nat out /\ ~ In 3%nat out) /\
  (exists h',
     filter_jobs quiet noon [0; 1]%nat zoned
     = (Raise (PyException "TypeError"), h')) /\
  title_match quiet "Senior Data Engineer II" = true /\
  title_match quiet "senior DATA engineer" = true /\
  title_match quiet "Data Scientist" = false.
Proof.
  assert (Hascii : Forall is_ascii (job_titles quiet))
    by (repeat constructor).
  assert (Hb : forall a, In a [0; 1; 2; 3; 4]%nat ->
                         folds_as_ascii (title (boundary a))).
  { intros a Ha. cbn [In] in Ha.
    repeat (destruct Ha as [<-|Ha]; [repeat split; vm_compute; reflexivity|]).
    contradiction. }
  assert (Hz : forall a, In a [0; 1]%nat -> folds_as_ascii (title (zoned a))).
  { intros a Ha. cbn [In] in Ha.
    repeat (destruct Ha as [<-|Ha]; [repeat split; vm_compute; reflexivity|]).
    contradiction. }
  destruct (filter_keeps_matching_recent_jobs quiet noon
              [0; 1; 2; 3; 4]%nat boundary Hascii Hb)
    as [Hret [_ [_ Ht]]].
  destruct (filter_keeps_matching_recent_jobs quiet noon
              [0; 1]%nat zoned Hascii Hz)
    as [_ [_ [Hraise _]]].
  split; [|split; [|apply Ht; reflexivity]].
  - destruct (Hret eq_refl) as [out [h' [Hrun [Hiff Hbd]]]].
    exists out, h'. split; [exact Hrun|].
    destruct (Hbd 0%nat) as [H0 _]; [simpl; auto | reflexivity |].
    destruct (Hbd 1%nat) as [_ [H1 _]]; [simpl; auto | reflexivity |].
    destruct (Hbd 2%nat) as [_ [_ H2]]; [simpl; auto | reflexivity |].
    split; [|split; [|split]].
    + apply H0. reflexivity.
    + apply H1. reflexivity.
    + apply H2. reflexivity.
    + intros H3. apply Hiff in H3 as [_ [[t [Hin Hocc]] _]].
      simpl in Hin. destruct Hin as [<-|[]].
      apply str_in_occurs in Hocc. vm_compute in Hocc. discriminate.
  - apply Hraise. reflexivity.
Defined.

Lemma filter_sort_is_stable_four_tier_partition_witness :
  exists h', filter_jobs quiet noon [0; 1; 2; 3]%nat abcd
             = (Ok [1; 3; 2; 0]%nat, h').
Proof.
  destruct (filter_sort_is_stable_four_tier_partition quiet noon
              [0; 1; 2; 3]%nat abcd eq_refl)
    as [out [h' [Hrun [_ [_ Hex]]]]].
  exists h'. rewrite Hrun. f_equal. f_equal.
  apply (Hex 0%nat 1%nat 2%nat 3%nat); try reflexivity.
  intros a Ha. simpl in Ha.
  repeat (destruct Ha as [<-|Ha]; [reflexivity|]). contradiction.
Defined.

(** Two jobs of the EU tier, in the order Berlin, Berlin-or-Dubai, come out
    in the other order: the second one is also UAE, and the second
    component of the key puts it first.  The three tiers of the
    specification would leave them as they were. *)
Lemma eu_tier_order_not_preserved :
  fst (filter_jobs quiet noon [0; 1]%nat two_eu) = Ok [1; 0]%nat /\
  three_tiers (snd (filter_jobs quiet noon [0; 1]%nat two_eu)) [0; 1]%nat
  = [0; 1]%nat.
Proof. split; vm_compute; reflexivity. Qed.


End FilterRuns.

(* ===================================================================== *)
(** * Age in days                                                         *)
(* ===================================================================== *)

Section Age.
Import Py Props helpers base_scraper Examples.
Local Open Scope Z_scope.

Lemma us_per_day_pos : 0 < us_per_day.
Proof. reflexivity. Qed.

(** A job dated one hour ahead of the clock has age -1, where truncating
    the quotient gives 0. *)
Lemma days_since_posted_future_not_truncated :
  days_since_posted noon (Some (naive (noon + us_per_hour))) = Ok (Finite (-1)) /\
  whole_days_truncated (datetime_diff noon (noon + us_per_hour)) = 0.
Proof. split; vm_compute; reflexivity. Qed.

(** C7, as the code has it, for a [posted_date] that is naive, as
    [datetime.now()] is.  [days_since_posted] is infinite for an absent
    date; for a naive one it is the number of whole days in
    [now - posted_date] rounded down (the floor: [timedelta.days]).  That
    is the truncated quotient when the date is not after [now], and it is
    negative as soon as the date is after [now], one microsecond being
    enough.  The age filter takes such a value without raising: a job
    dated in the future passes the age test whenever
    [max_age_days >= -1], and [filter_jobs] then returns it when its
    title matches. *)
Theorem days_since_posted_is_floor_of_age :
  (forall now, days_since_posted now None = Ok Infinity) /\
  (forall now d, exists n,
     days_since_posted now (Some (naive d)) = Ok (Finite n) /\
     n * us_per_day <= now - d < (n + 1) * us_per_day) /\
  (forall now d, d <= now ->
     days_since_posted now (Some (naive d))
     = Ok (Finite (whole_days_truncated (now - d)))) /\
  (forall now d, now < d ->
     exists n, days_since_posted now (Some (naive d)) = Ok (Finite n) /\ n < 0) /\
  (forall raw (self : BaseScraper raw) now d,
     now < d -> -1 <= max_age_days self ->
     too_old self now (Some (naive d)) = Ok false) /\
  (forall raw (self : BaseScraper raw) now jobs h a d,
     blocked self h jobs = false ->
     In a jobs -> title_match self (title (h a)) = true ->
     posted_date (h a) = Some (naive d) ->
     now < d -> -1 <= max_age_days self ->
     exists out h', filter_jobs self now jobs h = (Ok out, h') /\ In a out).
Proof.
  assert (Hneg : forall now d, now < d -> td_days (datetime_diff now d) < 0).
  { intros now d H. unfold td_days, datetime_diff.
    apply Z.div_lt_upper_bound; [apply us_per_day_pos | lia]. }
  assert (Hold : forall raw (self : BaseScraper raw) now d,
             now < d -> -1 <= max_age_days self ->
             too_old self now (Some (naive d)) = Ok false).
  { intros raw self now d H Hmax.
    cbn [too_old days_since_posted sub_datetime rbind days_gt]. f_equal.
    apply Z.ltb_ge. specialize (Hneg now d H). lia. }
  split; [reflexivity|]. split; [|split; [|split; [|split]]].
  - intros now d. exists (td_days (datetime_diff now d)). split; [reflexivity|].
    unfold td_days, datetime_diff.
    pose proof (Z.div_mod (now - d) us_per_day ltac:(discriminate)) as E.
    pose proof (Z.mod_pos_bound (now - d) us_per_day us_per_day_pos) as B.
    lia.
  - intros now d H. cbn [days_since_posted sub_datetime rbind].
    unfold td_days, whole_days_truncated, datetime_diff.
    rewrite Z.quot_div_nonneg; [reflexivity | lia | apply us_per_day_pos].
  - intros now d H. exists (td_days (datetime_diff now d)).
    split; [reflexivity | now apply Hneg].
  - exact Hold.
  - intros raw self now jobs h a d Hb Ha Ht Hp H Hmax.
    destruct (filter_jobs_run self now jobs h Hb) as [h' [Hrun _]].
    eexists; exists h'. split; [exact Hrun|].
    apply sort_by_In, kept_jobs_In. split; [assumption|].
    unfold keep. now rewrite Ht, Hp, (Hold raw self now d H Hmax).
Qed.

Lemma days_since_posted_is_floor_of_age_witness :
  (exists n, days_since_posted noon (Some (naive (noon + us_per_hour)))
             = Ok (Finite n) /\ n < 0) /\
  too_old quiet noon (Some (naive (noon + us_per_hour))) = Ok false /\
  days_since_posted noon (Some (naive (noon - 36 * us_per_hour)))
  = Ok (Finite (whole_days_truncated (noon - (noon - 36 * us_per_hour)))) /\
  (exists out h',
     filter_jobs quiet noon [0; 1; 2; 3; 4]%nat boundary = (Ok out, h') /\
     In 4%nat out).
Proof.
  destruct days_since_posted_is_floor_of_age
    as [_ [_ [Hpast [Hfut [Hold Hkeep]]]]].
  split; [|split; [|split]].
  - apply Hfut. reflexivity.
  - apply Hold; [reflexivity | discriminate].
  - apply Hpast. discriminate.
  - apply (Hkeep unit quiet noon [0; 1; 2; 3; 4]%nat boundary 4%nat
             (noon + us_per_hour)); try reflexivity.
    + simpl; auto 10.
    + discriminate.
Defined.

End Age.

(* ===================================================================== *)
(** * scrape                                                              *)
(* ===================================================================== *)

Section Scrape.
Import Py Props helpers base_scraper Examples.

(** An interrupt from the keyboard during [fetch_jobs] is not an
    [Exception]: [scrape] lets it through to its caller. *)
Lemma scrape_propagates_KeyboardInterrupt :
  fst (scrape interrupted noon abcd)
  = Raise (PyBaseException "KeyboardInterrupt").
Proof. reflexivity. Qed.

Variable raw : Type.
Variable self : BaseScraper raw.
Variable now : datetime.

(** C1, as the code has it.  [scrape] catches, at its own boundary,
    every exception that is an instance of [Exception]: raised by
    [fetch_jobs], by [parse_job] on some item of the loop, or by
    [filter_jobs] (the [TypeError] of an aware [posted_date]), it becomes
    the empty list, and no [Exception] ever leaves [scrape].  When nothing
    is raised the result is that of [filter_jobs] on the parsed jobs.  An
    exception outside [Exception] ([KeyboardInterrupt], [SystemExit]) is
    not caught: it reaches the caller. *)
Theorem scrape_absorbs_Exception (h : Heap) :
  (forall c h1,
     fetch_jobs self h = (Raise (PyException c), h1) ->
     scrape self now h = (Ok [], h1)) /\
  (forall raw_jobs h1 c h2,
     fetch_jobs self h = (Ok raw_jobs, h1) ->
     parse_loop self raw_jobs [] h1 = (Raise (PyException c), h2) ->
     scrape self now h = (Ok [], h2)) /\
  (forall raw_jobs h1 jobs h2,
     fetch_jobs self h = (Ok raw_jobs, h1) ->
     parse_loop self raw_jobs [] h1 = (Ok jobs, h2) ->
     scrape self now h =
     match filter_jobs self now jobs h2 with
     | (Raise (PyException _), h3) => (Ok [], h3)
     | outcome => outcome
     end) /\
  (forall c, fst (scrape self now h) <> Raise (PyException c)) /\
  (forall c h1,
     fetch_jobs self h = (Raise (PyBaseException c), h1) ->
     scrape self now h = (Raise (PyBaseException c), h1)) /\
  (forall raw_jobs h1 c h2,
     fetch_jobs self h = (Ok raw_jobs, h1) ->
     parse_loop self raw_jobs [] h1 = (Raise (PyBaseException c), h2) ->
     scrape self now h = (Raise (PyBaseException c), h2)).
Proof.
  unfold scrape, try_except_Exception, bind.
  split; [|split; [|split; [|split; [|split]]]].
  - intros c h1 ->. reflexivity.
  - intros raw_jobs h1 c h2 -> ->. reflexivity.
  - intros raw_jobs h1 jobs h2 -> ->.
    destruct (filter_jobs self now jobs h2) as [[out|[c|c]] h3]; reflexivity.
  - intros c.
    destruct (fetch_jobs self h) as [[raw_jobs|[c1|c1]] h1]; simpl;
      try discriminate.
    destruct (parse_loop self raw_jobs [] h1) as [[jobs|[c2|c2]] h2]; simpl;
      try discriminate.
    destruct (filter_jobs self now jobs h2) as [[out|[c3|c3]] h3]; discriminate.
  - intros c h1 ->. reflexivity.
  - intros raw_jobs h1 c h2 -> ->. reflexivity.
Qed.

End Scrape.

Section ScrapeRuns.
Import Py Props helpers base_scraper Examples.

Lemma scrape_absorbs_Exception_witness :
  scrape broken noon abcd = (Ok [], abcd) /\
  scrape half_broken noon abcd = (Ok [], abcd) /\
  fst (scrape Samples.listing noon zoned) = Ok [].
Proof.
  split; [|split].
  - destruct (scrape_absorbs_Exception broken noon abcd) as [H _].
    eapply H; reflexivity.
  - destruct (scrape_absorbs_Exception half_broken noon abcd) as [_ [H _]].
    eapply H; reflexivity.
  - destruct (scrape_absorbs_Exception Samples.listing noon zoned)
      as [_ [_ [H _]]].
    rewrite (H [0; 1; 2; 3; 4]%nat zoned [0; 1; 2; 3; 4]%nat zoned
               eq_refl eq_refl).
    vm_compute. reflexivity.
Defined.

End ScrapeRuns.

(* ===================================================================== *)
(** * The job store                                                       *)
(* ===================================================================== *)

Section StoreFacts.
Import Py Props job_store.
Local Open Scope string_scope.
Variable json_dumps : list string -> string.
Variable fromisoformat : string -> option datetime.

Lemma stored_app_new (i : string) (s : Session) (row : JobModel) (c : list JobModel)
  (f : list (option exn)) :
  id row = i -> stored i (mkSession c (txn s ++ [row]) f) = true.
Proof.
  intros H. unfold stored. cbn [txn].
  induction (txn s) as [|r rows IH]; cbn [app find].
  - now rewrite H, String.eqb_refl.
  - destruct (id r =? i); [reflexivity | exact IH].
Qed.

Lemma session_commit_ok (s : Session) :
  next_fault s = None ->
  session_commit s = (Ok tt, mkSession (txn s) (txn s) (tl (faults s))).
Proof.
  unfold next_fault, session_commit.
  destruct (faults s) as [|[e|] rest]; [reflexivity | discriminate | reflexivity].
Qed.

Lemma add_job_duplicate (now : datetime) (d : JobData) (s : Session) :
  stored (jd_id d) s = true ->
  add_job json_dumps fromisoformat now d s = (Ok false, s).
Proof.
  unfold stored, add_job, try_except_Exception, bind, query_first_by_id.
  destruct (find _ (txn s)); [reflexivity | discriminate].
Qed.

Lemma add_job_new (now : datetime) (d : JobData) (s : Session) :
  stored (jd_id d) s = false -> next_fault s = None ->
  let row := job_row json_dumps fromisoformat now d in
  add_job json_dumps fromisoformat now d s =
  (Ok true, mkSession (txn s ++ [row]) (txn s ++ [row]) (tl (faults s))).
Proof.
  unfold stored, next_fault, add_job, try_except_Exception, bind,
    query_first_by_id, session_add, session_commit, modify, ret.
  destruct (find _ (txn s)); [discriminate|]. intros _. cbn [faults txn].
  destruct (faults s) as [|[e|] rest]; [reflexivity | discriminate | reflexivity].
Qed.

Lemma add_job_commit_fails (now : datetime) (d : JobData) (s : Session)
  (e : exn) (rest : list (option exn)) :
  stored (jd_id d) s = false -> faults s = Some e :: rest ->
  let row := job_row json_dumps fromisoformat now d in
  add_job json_dumps fromisoformat now d s =
  (Raise e,
   if is_Exception e then mkSession (committed s) (committed s) rest
   else mkSession (committed s) (txn s ++ [row]) rest).
Proof.
  unfold stored, add_job, try_except_Exception, bind,
    query_first_by_id, session_add, session_commit, session_rollback,
    modify, raise, ret.
  destruct (find _ (txn s)); [discriminate|]. intros _ Hf. cbn [faults txn].
  rewrite Hf. destruct e; reflexivity.
Qed.

Lemma get_stats_total (s : Session) :
  exists st, get_stats s = (Ok st, s) /\ total_jobs st = List.length (txn s) /\
             resumes_generated st = List.length (filter resume_generated (txn s)) /\
             pending st = List.length (filter (fun r => negb (notified r)) (txn s)).
Proof.
  eexists. split; [reflexivity|]. cbn [total_jobs resumes_generated pending].
  split; [|split; reflexivity].
  f_equal. induction (txn s) as [|r rows IH]; [reflexivity|].
  cbn [filter]. now rewrite IH.
Qed.

(** C4.  [add_job] inserts exactly when no row has the id of the record,
    whatever the other fields are.  When a row has that id it returns
    false and changes nothing.  When none has, and the commit goes
    through, it returns true and the table has one more row, with that
    id; adding again a record with the same id (the same record, or other
    content under that id) then returns false and leaves the store as it
    is, so [get_stats] after the second call still counts the rows of the
    first: one more than at the start. *)
Theorem add_job_dedups_on_id (now now' : datetime) (d d' : JobData) (s : Session) :
  jd_id d' = jd_id d ->
  (stored (jd_id d) s = true ->
   add_job json_dumps fromisoformat now d s = (Ok false, s)) /\
  (stored (jd_id d) s = false -> next_fault s = None ->
   exists s1 row st,
     add_job json_dumps fromisoformat now d s = (Ok true, s1) /\
     txn s1 = (txn s ++ [row])%list /\ committed s1 = txn s1 /\
     id row = jd_id d /\
     add_job json_dumps fromisoformat now' d' s1 = (Ok false, s1) /\
     get_stats s1 = (Ok st, s1) /\
     total_jobs st = S (List.length (txn s))).
Proof.
  intros Hid. split; [apply add_job_duplicate|].
  intros Hnew Hok.
  pose proof (add_job_new now d s Hnew Hok) as Hadd. cbv zeta in Hadd.
  destruct (get_stats_total
              (mkSession (txn s ++ [job_row json_dumps fromisoformat now d])
                         (txn s ++ [job_row json_dumps fromisoformat now d])
                         (tl (faults s)))) as [st [Hst [Htot _]]].
  eexists; exists (job_row json_dumps fromisoformat now d), st.
  split; [exact Hadd|]. cbn [txn committed].
  split; [reflexivity|]. split; [reflexivity|]. split; [reflexivity|].
  split; [|split].
  - apply add_job_duplicate. rewrite Hid. now apply stored_app_new.
  - exact Hst.
  - rewrite Htot. cbn [txn]. rewrite length_app. simpl. lia.
Qed.

(** C5.  When the commit of an insert fails with [e], [add_job] raises
    [e] to its caller, and the table in the database is as it was; for an
    instance of [Exception] the session is rolled back as well, so the
    pending row is gone from its view.  [add_job] raises only in that
    case, always the exception of the storage layer and never with a
    changed table, and it returns a value only when it found the id (false,
    nothing changed) or when the commit succeeded (true): a failed write
    is never turned into a return. *)
Theorem add_job_failure_rolls_back_and_reraises
  (now : datetime) (d : JobData) (s : Session) :
  (forall e rest,
     stored (jd_id d) s = false -> faults s = Some e :: rest ->
     exists s1,
       add_job json_dumps fromisoformat now d s = (Raise e, s1) /\
       committed s1 = committed s /\
       (is_Exception e = true -> txn s1 = committed s)) /\
  (forall e s1,
     add_job json_dumps fromisoformat now d s = (Raise e, s1) ->
     next_fault s = Some e /\ stored (jd_id d) s = false /\
     committed s1 = committed s) /\
  (forall b s1,
     add_job json_dumps fromisoformat now d s = (Ok b, s1) ->
     (b = false /\ s1 = s /\ stored (jd_id d) s = true) \/
     (b = true /\ next_fault s = None /\ stored (jd_id d) s = false)).
Proof.
  split; [|split].
  - intros e rest Hnew Hf.
    pose proof (add_job_commit_fails now d s Hnew Hf) as H. cbv zeta in H.
    eexists. split; [exact H|].
    destruct e; cbn [is_Exception committed txn]; split; auto; discriminate.
  - intros e s1 H.
    destruct (stored (jd_id d) s) eqn:Est.
    + rewrite add_job_duplicate in H by assumption. discriminate.
    + destruct (next_fault s) as [e'|] eqn:Ef.
      * unfold next_fault in Ef.
        destruct (faults s) as [|[e''|] rest] eqn:Efs; try discriminate.
        inversion Ef; subst e''.
        pose proof (add_job_commit_fails now d s Est Efs) as H'. cbv zeta in H'.
        rewrite H' in H. inversion H; subst.
        split; [reflexivity|]. split; [reflexivity|].
        destruct e; reflexivity.
      * rewrite (add_job_new now d s Est Ef) in H. discriminate.
  - intros b s1 H.
    destruct (stored (jd_id d) s) eqn:Est.
    + rewrite add_job_duplicate in H by assumption. inversion H; subst. auto.
    + destruct (next_fault s) as [e'|] eqn:Ef.
      * unfold next_fault in Ef.
        destruct (faults s) as [|[e''|] rest] eqn:Efs; try discriminate.
        pose proof (add_job_commit_fails now d s Est Efs) as H'. cbv zeta in H'.
        rewrite H' in H. discriminate.
      * rewrite (add_job_new now d s Est Ef) in H. inversion H; subst. auto.
Qed.

End StoreFacts.

Section StoreRoundTrip.
Import Py Props job_store.
Local Open Scope string_scope.
Variable json_dumps : list string -> string.
Variable fromisoformat : string -> option datetime.

Lemma healthy_next (s : Session) : healthy s -> next_fault s = None.
Proof.
  unfold healthy, next_fault. intros H.
  destruct (faults s) as [|[e|] rest]; try reflexivity.
  inversion H; discriminate.
Qed.

Lemma healthy_tl (c t : list JobModel) (s : Session) :
  healthy s -> healthy (mkSession c t (tl (faults s))).
Proof.
  unfold healthy. cbn [faults]. intros H.
  destruct (faults s); [constructor | now inversion H].
Qed.

Lemma mark_as_notified_ok (now : datetime) (ids : list string) (s : Session) :
  next_fault s = None ->
  mark_as_notified now ids s =
  (Ok tt, mkSession (map (notify now ids) (txn s))
                    (map (notify now ids) (txn s)) (tl (faults s))).
Proof.
  intros H. unfold mark_as_notified, bind, update_notified, modify.
  rewrite session_commit_ok by exact H. reflexivity.
Qed.

Lemma notify_notify (t1 t2 : datetime) (ids : list string) (r : JobModel) :
  notify t2 ids (notify t1 ids r) = notify t2 ids r.
Proof.
  unfold notify. destruct (existsb (String.eqb (id r)) ids) eqn:E.
  - cbn [set_notified id]. now rewrite E.
  - now rewrite E.
Qed.

Lemma forget_notify (t1 t2 : datetime) (ids : list string) (r : JobModel) :
  forget_notified_at (notify t2 ids r) = forget_notified_at (notify t1 ids r).
Proof. unfold notify. now destruct (existsb (String.eqb (id r)) ids). Qed.

Lemma filter_map_length {A B} (p : B -> bool) (f : A -> B) (l : list A) :
  List.length (filter p (map f l)) = List.length (filter (fun x => p (f x)) l).
Proof.
  induction l as [|x l IH]; [reflexivity|]. simpl.
  destruct (p (f x)); simpl; now rewrite IH.
Qed.

Lemma count_notify (p : JobModel -> bool) (t1 t2 : datetime)
  (ids : list string) (l : list JobModel) :
  (forall r, p (notify t2 ids r) = p (notify t1 ids r)) ->
  List.length (filter p (map (notify t2 ids) l)) =
  List.length (filter p (map (notify t1 ids) l)).
Proof.
  intros H. rewrite !filter_map_length. f_equal. apply filter_ext. exact H.
Qed.

Lemma unnotified_notify (t1 t2 : datetime) (ids : list string)
  (l : list JobModel) :
  filter (fun r => negb (notified r)) (map (notify t2 ids) l) =
  filter (fun r => negb (notified r)) (map (notify t1 ids) l).
Proof.
  induction l as [|r l IH]; [reflexivity|]. cbn [map filter]. rewrite IH.
  unfold notify. now destruct (existsb (String.eqb (id r)) ids).
Qed.

Lemma mark_resume_generated_absent (i path : string) (s : Session) :
  stored i s = false -> mark_resume_generated i path s = (Ok tt, s).
Proof.
  unfold stored, mark_resume_generated, bind, query_first_by_id.
  destruct (find _ (txn s)); [discriminate | reflexivity].
Qed.

Lemma mark_resume_generated_ok (i path : string) (s : Session) :
  stored i s = true -> next_fault s = None ->
  mark_resume_generated i path s =
  (Ok tt, mkSession (update_first i (set_resume path) (txn s))
                    (update_first i (set_resume path) (txn s))
                    (tl (faults s))).
Proof.
  unfold stored, next_fault, mark_resume_generated, bind, query_first_by_id,
    modify, session_commit.
  destruct (find _ (txn s)); [|discriminate]. intros _. cbn [faults txn].
  destruct (faults s) as [|[e|] rest]; [reflexivity | discriminate | reflexivity].
Qed.

(** C6.  From an empty store and for two records with distinct ids:
    [add_jobs [j1; j2]] inserts both; after [mark_as_notified [j1.id]] the
    unnotified rows are exactly the row of [j2]; after
    [mark_resume_generated j2.id "path.docx"] the statistics count one
    generated resume.  On any store whose commits go through, marking the
    same ids a second time changes no flag and no column other than
    [notified_at], which takes the time of the second call: the rows agree
    once [notified_at] is disregarded, [get_unnotified_jobs] and
    [get_stats] answer as after the first call, and at the same clock
    reading the table is the same.  [mark_resume_generated] on an id that
    no row has changes nothing. *)
Theorem store_round_trip :
  (forall now1 now2 j1 j2,
     jd_id j1 <> jd_id j2 ->
     exists s1 s2 s3 st,
       add_jobs json_dumps fromisoformat now1 [j1; j2] empty_store
       = (Ok 2, s1) /\
       mark_as_notified now2 [jd_id j1] s1 = (Ok tt, s2) /\
       get_unnotified_jobs s2
       = (Ok [job_row json_dumps fromisoformat now1 j2], s2) /\
       mark_resume_generated (jd_id j2) "path.docx" s2 = (Ok tt, s3) /\
       get_stats s3 = (Ok st, s3) /\
       resumes_generated st = 1) /\
  (forall t1 t2 ids s,
     healthy s ->
     exists s1 s2,
       mark_as_notified t1 ids s = (Ok tt, s1) /\
       mark_as_notified t2 ids s1 = (Ok tt, s2) /\
       map forget_notified_at (txn s2) = map forget_notified_at (txn s1) /\
       fst (get_unnotified_jobs s2) = fst (get_unnotified_jobs s1) /\
       fst (get_stats s2) = fst (get_stats s1) /\
       (t2 = t1 -> txn s2 = txn s1)) /\
  (forall i path s,
     stored i s = false -> mark_resume_generated i path s = (Ok tt, s)).
Proof.
  split; [|split].
  - intros now1 now2 j1 j2 Hne.
    assert (E12 : (jd_id j1 =? jd_id j2) = false) by now apply String.eqb_neq.
    assert (E21 : (jd_id j2 =? jd_id j1) = false)
      by (apply String.eqb_neq; congruence).
    unfold add_jobs. cbn [add_jobs_loop]. unfold bind at 1.
    rewrite (add_job_new json_dumps fromisoformat now1 j1 empty_store)
      by reflexivity.
    cbv zeta. cbn [empty_store txn faults tl app Nat.add].
    unfold bind at 1.
    rewrite (add_job_new json_dumps fromisoformat now1 j2)
      by (unfold stored, next_fault; cbn [txn faults find job_row id];
          now rewrite ?E12).
    cbv zeta. cbn [txn faults tl app Nat.add]. unfold ret.
    eexists. eexists. eexists. eexists.
    split; [reflexivity|].
    split; [apply mark_as_notified_ok; reflexivity|].
    cbn [txn faults tl map]. unfold notify. cbn [job_row id existsb].
    rewrite String.eqb_refl, E21. cbn [orb].
    split; [reflexivity|].
    split.
    { apply mark_resume_generated_ok; [|reflexivity].
      unfold stored. cbn [txn find set_notified job_row id].
      now rewrite E12, String.eqb_refl. }
    cbn [txn faults tl update_first set_notified job_row id].
    rewrite E12, String.eqb_refl.
    split; reflexivity.
  - intros t1 t2 ids s Hs.
    pose proof (healthy_next Hs) as H1.
    pose proof (mark_as_notified_ok t1 ids s H1) as E1.
    pose proof (healthy_next (healthy_tl (map (notify t1 ids) (txn s))
                                (map (notify t1 ids) (txn s)) Hs)) as H2.
    pose proof (mark_as_notified_ok t2 ids _ H2) as E2.
    cbn [txn faults] in E2.
    eexists. eexists. split; [exact E1|]. split; [exact E2|].
    cbn [txn]. rewrite !map_map.
    assert (Hmm : map (fun r => notify t2 ids (notify t1 ids r)) (txn s)
                  = map (notify t2 ids) (txn s))
      by (apply map_ext; intros r; apply notify_notify).
    split; [|split; [|split; [|]]].
    + apply map_ext. intros r. rewrite notify_notify. apply forget_notify.
    + unfold get_unnotified_jobs, query_all. cbn [fst txn].
      rewrite ?map_map, Hmm. f_equal. apply unnotified_notify.
    + unfold get_stats, bind, query_count, ret. cbn [fst txn].
      rewrite ?map_map, Hmm. f_equal.
      f_equal; apply count_notify; intros r; unfold notify;
        now destruct (existsb (String.eqb (id r)) ids).
    + intros ->. rewrite ?map_map. exact Hmm.
  - apply mark_resume_generated_absent.
Qed.

End StoreRoundTrip.

Section StoreRuns.
Import Py Props job_store Examples.
Local Open Scope string_scope.

Lemma add_job_dedups_on_id_witness :
  exists s1,
    add_job json_words iso_noon noon (record "0123456789ab" "Berlin, Germany")
            empty_store = (Ok true, s1) /\
    add_job json_words iso_noon (noon + 1)%Z
            (record "0123456789ab" "Dubai, UAE") s1 = (Ok false, s1).
Proof.
  destruct (add_job_dedups_on_id json_words iso_noon noon (noon + 1)%Z
              (record "0123456789ab" "Berlin, Germany")
              (record "0123456789ab" "Dubai, UAE") empty_store eq_refl)
    as [_ H].
  destruct (H eq_refl eq_refl) as [s1 [row [st [H1 [_ [_ [_ [H2 _]]]]]]]].
  exists s1. split; assumption.
Defined.

Lemma add_job_failure_rolls_back_and_reraises_witness :
  exists s1,
    add_job json_words iso_noon noon (record "0123456789ab" "Berlin, Germany")
            disk_full = (Raise (PyException "OperationalError"), s1) /\
    committed s1 = [] /\ txn s1 = [].
Proof.
  destruct (add_job_failure_rolls_back_and_reraises json_words iso_noon noon
              (record "0123456789ab" "Berlin, Germany") disk_full)
    as [H _].
  destruct (H (PyException "OperationalError") [] eq_refl eq_refl)
    as [s1 [H1 [H2 H3]]].
  exists s1. split; [exact H1|]. split; [exact H2 | exact (H3 eq_refl)].
Defined.

Lemma store_round_trip_witness :
  exists s1 s2 s3 st,
    add_jobs json_words iso_noon noon
             [record "0123456789ab" "Berlin, Germany";
              record "ba9876543210" "Dubai, UAE"] empty_store = (Ok 2, s1) /\
    mark_as_notified (noon + 1)%Z ["0123456789ab"] s1 = (Ok tt, s2) /\
    get_unnotified_jobs s2
    = (Ok [job_row json_words iso_noon noon (record "ba9876543210" "Dubai, UAE")],
       s2) /\
    mark_resume_generated "ba9876543210" "path.docx" s2 = (Ok tt, s3) /\
    get_stats s3 = (Ok st, s3) /\
    resumes_generated st = 1.
Proof.
  destruct (store_round_trip json_words iso_noon) as [H _].
  apply (H noon (noon + 1)%Z (record "0123456789ab" "Berlin, Germany")
           (record "ba9876543210" "Dubai, UAE")).
  discriminate.
Defined.

End StoreRuns.

(* ===================================================================== *)
(** * The relative-date parsers                                           *)
(* ===================================================================== *)

Section RelativeDates.
Import Py Props re Examples.
Local Open Scope string_scope.

Lemma lower_digits (ds tail : string) :
  all_chars isdigit ds = true -> lower (ds ++ tail) = ds ++ lower tail.
Proof.
  induction ds as [|c ds IH]; simpl; [reflexivity|].
  intros H. apply andb_true_iff in H as [Hc Hds]. rewrite (IH Hds). f_equal.
  unfold lower_char, isdigit, in_range in *.
  destruct (65 <=? nat_of_ascii c)%nat eqn:E; [|reflexivity].
  exfalso. apply andb_true_iff in Hc as [_ Hc].
  apply Nat.leb_le in E, Hc. lia.
Qed.

(** a pattern that starts with a letter does not start inside a number *)
Lemma str_in_digits (c : ascii) (pat ds tail : string) :
  isdigit c = false -> all_chars isdigit ds = true ->
  str_in (String c pat) (ds ++ tail) = str_in (String c pat) tail.
Proof.
  intros Hc. induction ds as [|d ds IH]; [reflexivity|].
  intros H. cbn [all_chars] in H. apply andb_true_iff in H as [Hd Hds].
  cbn [append str_in]. rewrite (IH Hds).
  replace (prefix (String c pat) (String d (ds ++ tail))) with false;
    [reflexivity|].
  cbn [prefix]. destruct (ascii_dec c d) as [->|]; [congruence | reflexivity].
Qed.

Lemma span_digits (ds tail : string) :
  all_chars isdigit ds = true ->
  match tail with EmptyString => True | String c _ => isdigit c = false end ->
  span isdigit (ds ++ tail) = (ds, tail).
Proof.
  intros Hds Ht. induction ds as [|d ds IH]; cbn [append].
  - destruct tail as [|c tail]; [reflexivity|]. cbn [span]. now rewrite Ht.
  - cbn [all_chars] in Hds. apply andb_true_iff in Hds as [Hd Hds].
    cbn [span]. now rewrite Hd, (IH Hds).
Qed.

Lemma match_here_number (units : list string) (ds tail : string) :
  is_number ds ->
  match tail with EmptyString => True | String c _ => isdigit c = false end ->
  match_here units (ds ++ tail) =
  match match_alt units (snd (span isspace tail)) with
  | None => None
  | Some (unit, r3) =>
      if prefix "ago" (snd (span isspace (opt_s r3))) then Some (ds, unit)
      else None
  end.
Proof.
  intros [Hne Hds] Ht. unfold match_here. rewrite (span_digits _ _ Hds Ht).
  destruct ds; [contradiction | reflexivity].
Qed.

(** when no unit follows the number, the search goes on after it *)
Lemma search_skips_number (units : list string) (ds tail : string) :
  all_chars isdigit ds = true ->
  match tail with EmptyString => True | String c _ => isdigit c = false end ->
  match_alt units (snd (span isspace tail)) = None ->
  search units (ds ++ tail) = search units tail.
Proof.
  intros Hds Ht Hno. induction ds as [|d ds IH]; [reflexivity|].
  cbn [all_chars] in Hds. apply andb_true_iff in Hds as [Hd Hds].
  cbn [append search].
  change (String d (ds ++ tail)) with (String d ds ++ tail).
  rewrite match_here_number; [|split; [discriminate|cbn [all_chars]; now rewrite Hd]|exact Ht].
  rewrite Hno. apply IH. exact Hds.
Qed.

Lemma search_number (units : list string) (ds tail unit r3 : string) :
  is_number ds ->
  match tail with EmptyString => True | String c _ => isdigit c = false end ->
  match_alt units (snd (span isspace tail)) = Some (unit, r3) ->
  prefix "ago" (snd (span isspace (opt_s r3))) = true ->
  search units (ds ++ tail) = Some (ds, unit).
Proof.
  intros Hds Ht Hu Hago.
  assert (H : match_here units (ds ++ tail) = Some (ds, unit))
    by (rewrite match_here_number, Hu, Hago; auto).
  destruct (ds ++ tail); cbn [search]; now rewrite H.
Qed.

Lemma digit_val_nonneg (c : ascii) : (0 <= digit_val c)%Z.
Proof. unfold digit_val. lia. Qed.

Lemma int_from_nonneg (ds : string) (acc : Z) :
  (0 <= acc)%Z -> (0 <= int_from acc ds)%Z.
Proof.
  revert acc. induction ds as [|c ds IH]; intros acc H; cbn [int_from];
    [assumption|].
  apply IH. pose proof (digit_val_nonneg c). lia.
Qed.

Lemma int_nonneg (ds : string) : (0 <= int ds)%Z.
Proof. apply int_from_nonneg. lia. Qed.

Local Open Scope Z_scope.

(** [now - timedelta(...)], guarded by the two range checks, is [ago] *)
Lemma sub_timedelta (now : datetime) (delta : Z) :
  datetime_min <= now <= datetime_max -> 0 <= delta ->
  rbind (mk_timedelta delta)
        (fun td => rbind (datetime_sub now td) (fun d => Ok (Some d)))
  = match ago now delta with
    | Some d => Ok (Some d)
    | None => Raise (PyException "OverflowError")
    end.
Proof.
  intros [Hlo Hhi] Hd. unfold ago, mk_timedelta, timedelta_ok, td_days.
  unfold datetime_min, datetime_max in *.
  destruct (0 <=? now - delta) eqn:E.
  - apply Z.leb_le in E.
    assert (H1 : (-999999999 <=? delta / us_per_day) = true).
    { apply Z.leb_le. pose proof (Z.div_pos delta us_per_day Hd us_per_day_pos). lia. }
    assert (H2 : (delta / us_per_day <=? 999999999) = true).
    { apply Z.leb_le.
      assert (delta / us_per_day <= (3652059 * us_per_day) / us_per_day)
        by (apply Z.div_le_mono; [apply us_per_day_pos | lia]).
      rewrite Z.div_mul in H by discriminate. lia. }
    rewrite H1, H2. cbn [andb rbind]. unfold datetime_sub, datetime_min, datetime_max.
    apply Z.leb_le in E. rewrite E. cbn [andb].
    replace (now - delta <=? 3652059 * us_per_day - 1) with true
      by (symmetry; apply Z.leb_le; lia).
    reflexivity.
  - destruct ((-999999999 <=? delta / us_per_day) &&
              (delta / us_per_day <=? 999999999)); cbn [rbind]; [|reflexivity].
    unfold datetime_sub, datetime_min. rewrite E. reflexivity.
Qed.

Lemma duration_nonneg (unit : string) (n : Z) : 0 <= n -> 0 <= duration unit n.
Proof.
  intros H. unfold duration, us_per_hour, us_per_day, us_per_second.
  destruct (unit =? "hour")%string; [lia|].
  destruct (unit =? "day")%string; [lia|].
  destruct (unit =? "week")%string; lia.
Qed.

Variable now : datetime.
Hypothesis now_valid : datetime_min <= now <= datetime_max.

Lemma linkedin_number (ds tail unit r3 : string) :
  is_number ds ->
  match tail with EmptyString => True | String c _ => isdigit c = false end ->
  lower tail = tail ->
  str_in "just now" tail = false -> str_in "today" tail = false ->
  match_alt ["day"; "week"; "month"; "hour"]%string (snd (span isspace tail))
  = Some (unit, r3) ->
  prefix "ago" (snd (span isspace (opt_s r3))) = true ->
  LinkedInScraper._parse_relative_date now (ds ++ tail)
  = ago now (duration unit (int ds)).
Proof.
  intros Hds Ht Hlow Hjn Htoday Hu Hago.
  pose proof Hds as [_ Hall].
  assert (Hin : In unit ["day"; "week"; "month"; "hour"]%string).
  { revert Hu. generalize (snd (span isspace tail)). intros r. cbn [match_alt].
    repeat (destruct (strip_prefix _ r);
            [intros E; inversion E; simpl; auto |]).
    discriminate. }
  unfold LinkedInScraper._parse_relative_date.
  rewrite (@lower_digits ds tail Hall), Hlow.
  rewrite !str_in_digits by (reflexivity || assumption).
  rewrite Hjn, Htoday. cbn [orb].
  rewrite (@search_number _ ds tail unit r3 Hds Ht Hu Hago).
  pose proof (int_nonneg ds) as Hn.
  cbn [In] in Hin.
  destruct Hin as [<-|[<-|[<-|[<-|[]]]]]; cbn [String.eqb Ascii.eqb Bool.eqb];
    unfold timedelta_hours, timedelta_days, timedelta_weeks;
    (rewrite sub_timedelta; [|assumption|]);
    try (unfold duration; cbn [String.eqb Ascii.eqb Bool.eqb];
         now destruct (ago now _));
    unfold us_per_hour, us_per_day, us_per_second; lia.
Qed.

Lemma google_number (ds tail unit r3 : string) :
  is_number ds ->
  match tail with EmptyString => True | String c _ => isdigit c = false end ->
  lower tail = tail ->
  str_in "today" tail = false -> str_in "just" tail = false ->
  str_in "yesterday" tail = false ->
  match_alt ["day"; "week"; "month"]%string (snd (span isspace tail))
  = Some (unit, r3) ->
  prefix "ago" (snd (span isspace (opt_s r3))) = true ->
  GoogleScraper._parse_date now (ds ++ tail)
  = Ok (ago now (duration unit (int ds))).
Proof.
  intros Hds Ht Hlow Htoday Hj Hy Hu Hago.
  pose proof Hds as [_ Hall].
  assert (Hin : In unit ["day"; "week"; "month"]%string).
  { revert Hu. generalize (snd (span isspace tail)). intros r. cbn [match_alt].
    repeat (destruct (strip_prefix _ r);
            [intros E; inversion E; simpl; auto |]).
    discriminate. }
  unfold GoogleScraper._parse_date.
  rewrite (@lower_digits ds tail Hall), Hlow.
  rewrite !str_in_digits by (reflexivity || assumption).
  rewrite Hj, Htoday, Hy. cbn [orb].
  rewrite (@search_number _ ds tail unit r3 Hds Ht Hu Hago).
  pose proof (int_nonneg ds) as Hn.
  cbn [In] in Hin.
  destruct Hin as [<-|[<-|[<-|[]]]]; cbn [String.eqb Ascii.eqb Bool.eqb];
    unfold timedelta_hours, timedelta_days, timedelta_weeks;
    (rewrite sub_timedelta; [|assumption|]);
    try (unfold duration; cbn [String.eqb Ascii.eqb Bool.eqb];
         now destruct (ago now _));
    unfold us_per_hour, us_per_day, us_per_second; lia.
Qed.

Lemma google_no_unit (ds tail : string) :
  is_number ds ->
  match tail with EmptyString => True | String c _ => isdigit c = false end ->
  lower tail = tail ->
  str_in "today" tail = false -> str_in "just" tail = false ->
  str_in "yesterday" tail = false ->
  match_alt ["day"; "week"; "month"]%string (snd (span isspace tail)) = None ->
  search ["day"; "week"; "month"]%string tail = None ->
  GoogleScraper._parse_date now (ds ++ tail) = Ok None.
Proof.
  intros [_ Hall] Ht Hlow Htoday Hj Hy Hno Hs.
  unfold GoogleScraper._parse_date.
  rewrite (@lower_digits ds tail Hall), Hlow.
  rewrite !str_in_digits by (reflexivity || assumption).
  rewrite Hj, Htoday, Hy. cbn [orb].
  rewrite (@search_skips_number _ ds tail Hall Ht Hno), Hs. reflexivity.
Qed.

(** C8, as the code has it.  There is no shared parser: each of the two
    adapters that read relative dates has its own.  For a clock reading
    [now] that is a [datetime], and with [ago now d] standing for
    [now - d] when that is a [datetime] and for an absent date otherwise:
    LinkedIn's [_parse_relative_date] maps "N hour(s)/day(s)/week(s)/
    month(s) ago" to [now] minus that duration (a month being 30 days) and
    "today" and "just now" to [now], and has no date for "yesterday";
    Google's [_parse_date] maps "N day(s)/week(s)/month(s) ago" to [now]
    minus that duration, "today" and "just now" to [now] and "yesterday"
    to [now] minus one day, and has no date for "N hour(s) ago". *)
Theorem relative_dates_are_parsed_per_adapter :
  (forall ds unit plural,
     is_number ds ->
     In unit ["hour"; "day"; "week"; "month"]%string ->
     In plural [""; "s"]%string ->
     LinkedInScraper._parse_relative_date now (relative_form ds unit plural)
     = ago now (duration unit (int ds))) /\
  LinkedInScraper._parse_relative_date now "today" = Some now /\
  LinkedInScraper._parse_relative_date now "just now" = Some now /\
  LinkedInScraper._parse_relative_date now "yesterday" = None /\
  (forall ds unit plural,
     is_number ds ->
     In unit ["day"; "week"; "month"]%string ->
     In plural [""; "s"]%string ->
     GoogleScraper._parse_date now (relative_form ds unit plural)
     = Ok (ago now (duration unit (int ds)))) /\
  GoogleScraper._parse_date now "today" = Ok (Some now) /\
  GoogleScraper._parse_date now "just now" = Ok (Some now) /\
  GoogleScraper._parse_date now "yesterday" = Ok (ago now us_per_day) /\
  (forall ds plural,
     is_number ds -> In plural [""; "s"]%string ->
     GoogleScraper._parse_date now (relative_form ds "hour" plural) = Ok None).
Proof.
  split; [|split; [|split; [|split; [|split; [|split; [|split; [|split]]]]]]].
  - intros ds unit plural Hds Hu Hp. unfold relative_form.
    cbn [In] in Hu, Hp.
    destruct Hu as [<-|[<-|[<-|[<-|[]]]]]; destruct Hp as [<-|[<-|[]]];
      cbn [append];
      (eapply linkedin_number; [exact Hds | reflexivity ..]).
  - reflexivity.
  - reflexivity.
  - reflexivity.
  - intros ds unit plural Hds Hu Hp. unfold relative_form.
    cbn [In] in Hu, Hp.
    destruct Hu as [<-|[<-|[<-|[]]]]; destruct Hp as [<-|[<-|[]]];
      cbn [append];
      (eapply google_number; [exact Hds | reflexivity ..]).
  - reflexivity.
  - reflexivity.
  - unfold GoogleScraper._parse_date.
    change (lower "yesterday") with "yesterday"%string.
    change (str_in "today" "yesterday" || str_in "just" "yesterday") with false.
    change (str_in "yesterday" "yesterday") with true. cbv iota.
    unfold timedelta_days. rewrite sub_timedelta; [|assumption|discriminate].
    change (1 * us_per_day) with us_per_day.
    now destruct (ago now us_per_day).
  - intros ds plural Hds Hp. unfold relative_form.
    cbn [In] in Hp.
    destruct Hp as [<-|[<-|[]]]; cbn [append];
      (apply google_no_unit; [exact Hds | reflexivity ..]).
Qed.

End RelativeDates.

Section RelativeDateRuns.
Import Py Props Examples.
Local Open Scope string_scope.
Local Open Scope Z_scope.

(** On "yesterday" and on "3 hours ago" the two parsers disagree: each one
    has a date where the other has none. *)
Lemma relative_date_parsers_differ :
  LinkedInScraper._parse_relative_date noon "yesterday" = None /\
  GoogleScraper._parse_date noon "yesterday" = Ok (Some (noon - us_per_day)) /\
  LinkedInScraper._parse_relative_date noon "3 hours ago"
  = Some (noon - 3 * us_per_hour) /\
  GoogleScraper._parse_date noon "3 hours ago" = Ok None.
Proof. repeat split; vm_compute; reflexivity. Qed.

Lemma noon_valid : datetime_min <= noon <= datetime_max.
Proof. split; discriminate. Qed.

Lemma relative_dates_are_parsed_per_adapter_witness :
  LinkedInScraper._parse_relative_date noon "2 weeks ago"
  = Some (noon - 14 * us_per_day) /\
  GoogleScraper._parse_date noon "18 months ago"
  = Ok (Some (noon - 540 * us_per_day)) /\
  LinkedInScraper._parse_relative_date noon "999999 days ago" = None.
Proof.
  destruct (relative_dates_are_parsed_per_adapter noon_valid)
    as [Hl [_ [_ [_ [Hg _]]]]].
  split; [|split].
  - apply (Hl "2" "week" "s"); [split; [discriminate | reflexivity] | |];
      simpl; auto.
  - apply (Hg "18" "month" "s"); [split; [discriminate | reflexivity] | |];
      simpl; auto.
  - apply (Hl "999999" "day" "s"); [split; [discriminate | reflexivity] | |];
      simpl; auto.
Defined.

End RelativeDateRuns.

(* ===================================================================== *)
(** * The job store: invariants and compositions                          *)
(* ===================================================================== *)

Section StoreInvariants.
Import Py Props StoreProps job_store JobStore.
Local Open Scope string_scope.
Variable json_dumps : list string -> string.
Variable fromisoformat : string -> option datetime.

Lemma stored_false_fresh (i : string) (s : Session) :
  stored i s = false -> ~ In i (map id (txn s)).
Proof.
  unfold stored. destruct (find _ (txn s)) eqn:E; [discriminate|].
  intros _ Hin. apply in_map_iff in Hin as [r [Hr Hin]].
  pose proof (find_none _ _ E r Hin) as H. cbv beta in H.
  rewrite Hr, String.eqb_refl in H. discriminate.
Qed.

Lemma unique_ids_snoc (rows : list JobModel) (row : JobModel) :
  unique_ids rows -> ~ In (id row) (map id rows) -> unique_ids (rows ++ [row]).
Proof.
  unfold unique_ids. intros Hn Hf. rewrite map_app. cbn [map].
  induction (map id rows) as [|x l IH]; cbn [app].
  - constructor; [intros [] | constructor].
  - inversion Hn; subst. constructor.
    + intros Hin. apply in_app_or in Hin as [Hin|[Hin|[]]]; [contradiction|].
      apply Hf. left. now symmetry.
    + apply IH; [assumption|]. intros Hin. apply Hf. now right.
Qed.

(** The three outcomes of [add_job]. *)
Lemma add_job_cases (now : datetime) (d : JobData) (s : Session) :
  let row := job_row json_dumps fromisoformat now d in
  (stored (jd_id d) s = true /\
   add_job json_dumps fromisoformat now d s = (Ok false, s)) \/
  (stored (jd_id d) s = false /\
   add_job json_dumps fromisoformat now d s =
   (Ok true, mkSession (txn s ++ [row]) (txn s ++ [row]) (tl (faults s)))) \/
  (exists e rest,
     stored (jd_id d) s = false /\ faults s = Some e :: rest /\
     add_job json_dumps fromisoformat now d s =
     (Raise e,
      if is_Exception e then mkSession (committed s) (committed s) rest
      else mkSession (committed s) (txn s ++ [row]) rest)).
Proof.
  cbv zeta. destruct (stored (jd_id d) s) eqn:Est.
  - left. split; [reflexivity | now apply add_job_duplicate].
  - destruct (faults s) as [|[e|] rest] eqn:Ef.
    + right; left. split; [reflexivity|].
      rewrite add_job_new by (auto; unfold next_fault; now rewrite Ef).
      now rewrite Ef.
    + right; right. exists e, rest. split; [reflexivity|]. split; [reflexivity|].
      now apply add_job_commit_fails.
    + right; left. split; [reflexivity|].
      rewrite add_job_new by (auto; unfold next_fault; now rewrite Ef).
      now rewrite Ef.
Qed.

Lemma add_job_keeps_unique_ids (now : datetime) (d : JobData) (s : Session) :
  unique_ids (txn s) -> unique_ids (committed s) ->
  unique_ids (txn (snd (add_job json_dumps fromisoformat now d s))) /\
  unique_ids (committed (snd (add_job json_dumps fromisoformat now d s))).
Proof.
  intros Ht Hc.
  destruct (add_job_cases now d s) as [[_ ->]|[[Hnew ->]|[e [rest [Hnew [_ ->]]]]]];
    cbn [snd txn committed].
  - auto.
  - assert (unique_ids (txn s ++ [job_row json_dumps fromisoformat now d]))
      by (apply unique_ids_snoc; [assumption | now apply stored_false_fresh]).
    auto.
  - destruct (is_Exception e); cbn [txn committed]; split; auto.
    apply unique_ids_snoc; [assumption | now apply stored_false_fresh].
Qed.

Lemma add_jobs_loop_keeps (P : Session -> Prop) (now : datetime) :
  (forall d s, P s -> P (snd (add_job json_dumps fromisoformat now d s))) ->
  forall jobs added s,
    P s -> P (snd (add_jobs_loop json_dumps fromisoformat now jobs added s)).
Proof.
  intros Hstep. induction jobs as [|d jobs IH]; intros added s Hs; [exact Hs|].
  cbn [add_jobs_loop]. unfold bind.
  specialize (Hstep d s Hs).
  destruct (add_job json_dumps fromisoformat now d s) as [[[|]|e] s1];
    cbn [snd] in *; auto.
Qed.

Lemma map_id_notify (now : datetime) (ids : list string) (rows : list JobModel) :
  map id (map (notify now ids) rows) = map id rows.
Proof.
  rewrite map_map. apply map_ext. intros r. unfold notify.
  now destruct (existsb (String.eqb (id r)) ids).
Qed.

Lemma map_id_update_first (i path : string) (rows : list JobModel) :
  map id (update_first i (set_resume path) rows) = map id rows.
Proof.
  induction rows as [|r rows IH]; [reflexivity|]. cbn [update_first].
  destruct (id r =? i); cbn [map]; [reflexivity | now rewrite IH].
Qed.

(** X2.  The primary key is an invariant of the store: when no two rows
    share an id, neither in the view of the session nor in the committed
    table, that is still so after [add_job], [add_jobs],
    [mark_as_notified] and [mark_resume_generated], whatever they are
    given and whether their commit succeeds or fails. *)
Theorem store_ids_stay_unique (s : Session) :
  unique_ids (txn s) -> unique_ids (committed s) ->
  (forall now d,
     let s' := snd (add_job json_dumps fromisoformat now d s) in
     unique_ids (txn s') /\ unique_ids (committed s')) /\
  (forall now jobs,
     let s' := snd (add_jobs json_dumps fromisoformat now jobs s) in
     unique_ids (txn s') /\ unique_ids (committed s')) /\
  (forall now ids,
     let s' := snd (mark_as_notified now ids s) in
     unique_ids (txn s') /\ unique_ids (committed s')) /\
  (forall i path,
     let s' := snd (mark_resume_generated i path s) in
     unique_ids (txn s') /\ unique_ids (committed s')).
Proof.
  intros Ht Hc. cbv zeta. split; [|split; [|split]].
  - intros now d. now apply add_job_keeps_unique_ids.
  - intros now jobs. unfold add_jobs.
    apply (add_jobs_loop_keeps
             (fun s => unique_ids (txn s) /\ unique_ids (committed s))); [|auto].
    intros d s0 [H1 H2]. now apply add_job_keeps_unique_ids.
  - intros now ids.
    unfold mark_as_notified, bind, update_notified, modify, session_commit.
    cbn [faults txn committed].
    assert (Hu : unique_ids (map (notify now ids) (txn s)))
      by (unfold unique_ids; now rewrite map_id_notify).
    destruct (faults s) as [|[e|] rest]; cbn [snd txn committed]; auto.
  - intros i path.
    unfold mark_resume_generated, bind, query_first_by_id, modify,
      session_commit, ret.
    assert (Hu : unique_ids (update_first i (set_resume path) (txn s)))
      by (unfold unique_ids; now rewrite map_id_update_first).
    destruct (find _ (txn s)); cbn [faults txn committed snd]; [|auto].
    destruct (faults s) as [|[e|] rest]; cbn [snd txn committed]; auto.
Qed.

Lemma add_jobs_loop_appends (now : datetime) (jobs : list JobData) :
  forall added s,
    clean s ->
    exists rows,
      committed (snd (add_jobs_loop json_dumps fromisoformat now jobs added s))
      = (committed s ++ rows)%list /\
      Forall (fun row => exists d, In d jobs /\
                         row = job_row json_dumps fromisoformat now d) rows /\
      match fst (add_jobs_loop json_dumps fromisoformat now jobs added s) with
      | Ok n =>
          n = (added + List.length rows)%nat /\
          clean (snd (add_jobs_loop json_dumps fromisoformat now jobs added s))
      | Raise e =>
          is_Exception e = true ->
          clean (snd (add_jobs_loop json_dumps fromisoformat now jobs added s))
      end.
Proof.
  induction jobs as [|d jobs IH]; intros added s Hs.
  - exists []. cbn [add_jobs_loop]. unfold ret. cbn [fst snd List.length].
    rewrite app_nil_r. split; [reflexivity|]. split; [constructor|].
    split; [lia | exact Hs].
  - cbn [add_jobs_loop]. unfold bind.
    destruct (add_job_cases now d s)
      as [[_ ->]|[[Hnew ->]|[e [rest [Hnew [_ ->]]]]]].
    + destruct (IH added s Hs) as [rows [Hc [Hr Hres]]].
      exists rows. split; [exact Hc|]. split; [|exact Hres].
      eapply Forall_impl; [|exact Hr].
      intros row [d' [Hin E]]. exists d'. split; [now right | exact E].
    + set (row := job_row json_dumps fromisoformat now d).
      set (s1 := mkSession (txn s ++ [row]) (txn s ++ [row]) (tl (faults s))).
      destruct (IH (added + 1)%nat s1 eq_refl) as [rows [Hc [Hr Hres]]].
      exists (row :: rows). split; [|split].
      * rewrite Hc. unfold s1. cbn [committed]. rewrite Hs.
        now rewrite <- app_assoc.
      * constructor; [exists d; split; [now left | reflexivity]|].
        eapply Forall_impl; [|exact Hr].
        intros row' [d' [Hin E]]. exists d'. split; [now right | exact E].
      * destruct (fst (add_jobs_loop json_dumps fromisoformat now jobs
                         (added + 1) s1)); [|exact Hres].
        destruct Hres as [Hn Hcl]. split; [|exact Hcl].
        cbn [List.length]. lia.
    + exists []. cbn [fst snd]. rewrite app_nil_r.
      split; [destruct (is_Exception e); reflexivity|].
      split; [constructor|].
      intros ->. reflexivity.
Qed.

(** X1.  On a session with nothing pending, [add_jobs] only appends to the
    committed table: the rows it adds are rows built from records of the
    batch, and earlier rows are never changed or removed.  When
    it returns, the number it returns is the number of rows it appended and
    nothing is left pending.  When a commit fails and it raises, the rows
    inserted before stay committed, and for an [Exception] nothing is left
    pending. *)
Theorem add_jobs_appends_and_counts
  (now : datetime) (jobs : list JobData) (s : Session) :
  clean s ->
  exists rows,
    committed (snd (add_jobs json_dumps fromisoformat now jobs s))
    = (committed s ++ rows)%list /\
    Forall (fun row => exists d, In d jobs /\
                       row = job_row json_dumps fromisoformat now d) rows /\
    match fst (add_jobs json_dumps fromisoformat now jobs s) with
    | Ok n =>
        n = List.length rows /\
        clean (snd (add_jobs json_dumps fromisoformat now jobs s))
    | Raise e =>
        is_Exception e = true ->
        clean (snd (add_jobs json_dumps fromisoformat now jobs s))
    end.
Proof.
  intros Hs. unfold add_jobs.
  destruct (add_jobs_loop_appends now jobs 0 Hs) as [rows H].
  exists rows. exact H.
Qed.

End StoreInvariants.

Section StoreQueries.
Import Py Props StoreProps job_store JobStore.
Local Open Scope string_scope.

Lemma filter_split_length {A} (p : A -> bool) (l : list A) :
  (List.length (filter p l) + List.length (filter (fun x => negb (p x)) l))%nat
  = List.length l.
Proof.
  induction l as [|x l IH]; [reflexivity|]. cbn [filter].
  destruct (p x); cbn [negb List.length]; lia.
Qed.

Lemma filter_length_le {A} (p : A -> bool) (l : list A) :
  (List.length (filter p l) <= List.length l)%nat.
Proof.
  induction l as [|x l IH]; [apply Nat.le_refl|]. cbn [filter].
  destruct (p x); cbn [List.length]; lia.
Qed.

Lemma filter_true {A} (l : list A) : filter (fun _ => true) l = l.
Proof. induction l as [|x l IH]; [reflexivity|]. cbn [filter]. now rewrite IH. Qed.

(** X3.  The figures of [get_stats] agree with each other and with the
    queries: every row is either notified or pending, so the two counts
    add up to the total; [pending], [eu_jobs] and [uae_jobs] are the
    lengths of what [get_unnotified_jobs], [get_eu_jobs] and
    [get_uae_jobs] return; no count exceeds the total; and none of these
    reads changes the session. *)
Theorem get_stats_agrees_with_queries (s : Session) :
  exists st unnotified eu uae,
    get_stats s = (Ok st, s) /\
    get_unnotified_jobs s = (Ok unnotified, s) /\
    get_eu_jobs false s = (Ok eu, s) /\
    get_uae_jobs false s = (Ok uae, s) /\
    (notified_count st + pending st = total_jobs st)%nat /\
    pending st = List.length unnotified /\
    eu_jobs st = List.length eu /\
    uae_jobs st = List.length uae /\
    (eu_jobs st <= total_jobs st)%nat /\
    (uae_jobs st <= total_jobs st)%nat /\
    (resumes_generated st <= total_jobs st)%nat.
Proof.
  do 4 eexists.
  split; [reflexivity|]. split; [reflexivity|].
  split; [reflexivity|]. split; [reflexivity|].
  cbn [notified_count pending total_jobs eu_jobs uae_jobs resumes_generated].
  rewrite (filter_true (txn s)).
  split; [apply filter_split_length|].
  repeat split; apply filter_length_le.
Qed.

Lemma same_id_same_row (rows : list JobModel) (a b : JobModel) :
  unique_ids rows -> In a rows -> In b rows -> id a = id b -> a = b.
Proof.
  unfold unique_ids. induction rows as [|r rows IH]; [intros _ []|].
  cbn [map]. intros Hn Ha Hb E. inversion Hn as [|x l Hnot Hrest]; subst.
  destruct Ha as [<-|Ha], Hb as [<-|Hb].
  - reflexivity.
  - exfalso. apply Hnot. rewrite E. now apply in_map.
  - exfalso. apply Hnot. rewrite <- E. now apply in_map.
  - now apply IH.
Qed.

Lemma existsb_eqb_ids (i : string) (ids : list string) :
  existsb (String.eqb i) ids = true <-> In i ids.
Proof.
  rewrite existsb_exists. split.
  - intros [x [Hin E]]. apply String.eqb_eq in E. now subst.
  - intros H. exists i. split; [assumption | apply String.eqb_refl].
Qed.

(** X4.  Marking the ids of the rows that [get_unnotified_jobs] returns
    leaves no unnotified row: the next [get_unnotified_jobs] is empty.
    Every row that was pending is now notified, dated with the time of
    the call, and (ids being unique) every row that was notified before
    is exactly as it was, its earlier [notified_at] included. *)
Theorem notifying_the_pending_ids_empties_the_queue
  (now : datetime) (s : Session) :
  next_fault s = None -> unique_ids (txn s) ->
  exists s',
    mark_as_notified now (pending_ids s) s = (Ok tt, s') /\
    get_unnotified_jobs s' = (Ok [], s') /\
    txn s' = map (fun r => if notified r then r else set_notified now r) (txn s) /\
    committed s' = txn s'.
Proof.
  intros Hok Hu. rewrite (mark_as_notified_ok now (pending_ids s) s Hok).
  eexists. split; [reflexivity|]. cbn [txn committed].
  assert (E : map (notify now (pending_ids s)) (txn s) =
              map (fun r => if notified r then r else set_notified now r) (txn s)).
  { apply map_ext_in. intros r Hr. unfold notify.
    destruct (notified r) eqn:En.
    - destruct (existsb (String.eqb (id r)) (pending_ids s)) eqn:Ex;
        [|reflexivity].
      exfalso. apply existsb_eqb_ids in Ex. unfold pending_ids in Ex.
      apply in_map_iff in Ex as [r' [Eid Hr']].
      apply filter_In in Hr' as [Hr' En'].
      assert (r' = r) by (eapply same_id_same_row; eauto).
      subst r'. rewrite En in En'. discriminate.
    - replace (existsb (String.eqb (id r)) (pending_ids s)) with true;
        [reflexivity|].
      symmetry. apply existsb_eqb_ids. unfold pending_ids.
      apply in_map. apply filter_In. split; [assumption|]. now rewrite En. }
  split; [|split; [exact E | reflexivity]].
  unfold get_unnotified_jobs, query_all. cbn [txn]. rewrite E.
  replace (filter (fun r => negb (notified r))
             (map (fun r => if notified r then r else set_notified now r) (txn s)))
    with (@nil JobModel); [reflexivity|].
  clear E Hu. induction (txn s) as [|r rows IH]; [reflexivity|]. cbn [map filter].
  destruct (notified r) eqn:En; [rewrite En|]; cbn [set_notified notified negb];
    apply IH.
Qed.

Lemma find_update_first_same (i path : string) (rows : list JobModel) (r : JobModel) :
  find (fun r => id r =? i) rows = Some r ->
  find (fun r => id r =? i) (update_first i (set_resume path) rows)
  = Some (set_resume path r).
Proof.
  induction rows as [|x rows IH]; [discriminate|]. cbn [find update_first].
  destruct (id x =? i) eqn:E.
  - intros H; inversion H; subst. cbn [find set_resume id]. now rewrite E.
  - intros H. cbn [find]. rewrite E. now apply IH.
Qed.

Lemma find_update_first_other (i j path : string) (rows : list JobModel) :
  j <> i ->
  find (fun r => id r =? j) (update_first i (set_resume path) rows)
  = find (fun r => id r =? j) rows.
Proof.
  intros Hne. induction rows as [|x rows IH]; [reflexivity|].
  cbn [find update_first]. destruct (id x =? i) eqn:E.
  - apply String.eqb_eq in E. cbn [find set_resume id].
    replace (id x =? j) with false; [reflexivity|].
    symmetry. apply String.eqb_neq. congruence.
  - cbn [find]. now rewrite IH.
Qed.

(** X5.  After [mark_resume_generated job_id path] on a store that has a
    row with that id, [get_job_by_id job_id] returns that row with
    [resume_generated] set and [resume_path = path], every other column
    as before; the lookup of any other id answers as before; and the
    change is committed. *)
Theorem mark_resume_generated_then_lookup
  (i path : string) (s : Session) (r : JobModel) :
  next_fault s = None ->
  get_job_by_id i s = (Ok (Some r), s) ->
  exists s',
    mark_resume_generated i path s = (Ok tt, s') /\
    get_job_by_id i s' = (Ok (Some (set_resume path r)), s') /\
    (forall j, j <> i -> fst (get_job_by_id j s') = fst (get_job_by_id j s)) /\
    committed s' = txn s'.
Proof.
  intros Hok Hget. unfold get_job_by_id, query_first_by_id in Hget.
  inversion Hget as [Hfind].
  rewrite (mark_resume_generated_ok i path s)
    by (auto; unfold stored; now rewrite Hfind).
  eexists. split; [reflexivity|].
  unfold get_job_by_id, query_first_by_id. cbn [txn committed fst].
  split; [|split; [|reflexivity]].
  - now rewrite (find_update_first_same i path (txn s) Hfind).
  - intros j Hj. now rewrite find_update_first_other.
Qed.

End StoreQueries.

(* ===================================================================== *)
(** * The filter: running it again, running it later                      *)
(* ===================================================================== *)

Section SortAgain.
Import Py Props base_scraper.
Variable A : Type.

Lemma tier_app (key : A -> bool * bool) (k : bool * bool) (l1 l2 : list A) :
  tier key k (l1 ++ l2) = (tier key k l1 ++ tier key k l2)%list.
Proof. apply filter_app. Qed.

Lemma tier_tier (key : A -> bool * bool) (k k' : bool * bool) (l : list A) :
  tier key k (tier key k' l) =
  if Bool.eqb (fst k) (fst k') && Bool.eqb (snd k) (snd k')
  then tier key k' l else [].
Proof.
  unfold tier. induction l as [|x l IH]; [now destruct (_ && _)|].
  cbn [filter].
  destruct (key x) as [[|] [|]] eqn:Ek; destruct k as [[|] [|]], k' as [[|] [|]];
    cbn [Bool.eqb andb filter fst snd] in *;
    rewrite ?Ek; cbn [Bool.eqb andb filter fst snd];
    rewrite ?IH; reflexivity.
Qed.

Lemma sort_by_ext (k1 k2 : A -> bool * bool) (l : list A) :
  (forall x, k1 x = k2 x) -> sort_by k1 l = sort_by k2 l.
Proof.
  intros H. rewrite !sort_by_tiers.
  assert (E : forall k, tier k1 k l = tier k2 k l)
    by (intros k; unfold tier; apply filter_ext; intros x; now rewrite H).
  now rewrite !E.
Qed.

(** sorting a sorted list changes nothing *)
Lemma sort_by_sorted (key : A -> bool * bool) (l : list A) :
  sort_by key (sort_by key l) = sort_by key l.
Proof.
  rewrite (sort_by_tiers key (sort_by key l)).
  rewrite (sort_by_tiers key l).
  rewrite !tier_app, !tier_tier. cbn [fst snd Bool.eqb andb app].
  now rewrite !app_nil_r.
Qed.

Lemma filter_all (p : A -> bool) (l : list A) :
  (forall x, In x l -> p x = true) -> filter p l = l.
Proof.
  induction l as [|x l IH]; [reflexivity|]. intros H. cbn [filter].
  rewrite (H x (or_introl eq_refl)), IH; [reflexivity|].
  intros y Hy. apply H. now right.
Qed.

End SortAgain.

Section FilterAgain.
Import Py Props helpers base_scraper.
Local Open Scope Z_scope.
Variable raw : Type.
Variable self : BaseScraper raw.

(** X6.  Filtering the result of [filter_jobs] once more, at the same
    clock reading, changes nothing: when the first run is not stopped by
    an aware date, it returns, the second run returns the same jobs in the
    same order, and every object keeps the fields the first run left. *)
Theorem filter_jobs_twice_is_once (now : datetime) (jobs : list addr) (h : Heap) :
  blocked self h jobs = false ->
  exists out h' h'',
    filter_jobs self now jobs h = (Ok out, h') /\
    filter_jobs self now out h' = (Ok out, h'') /\
    forall a, h'' a = h' a.
Proof.
  intros Hb.
  destruct (filter_jobs_run self now jobs h Hb) as [h' [Hrun Hh']].
  set (K := kept_jobs self now h jobs) in *.
  set (out := sort_by (sort_key h') K) in *.
  assert (Hkeep : forall a, In a out -> h' a = mark (h a) /\
                                        keep self now (h a) = true).
  { intros a Ha. apply sort_by_In in Ha.
    split; [rewrite Hh'; now apply mark_all_kept|].
    now apply kept_jobs_In in Ha as [_ Ha]. }
  assert (Hb2 : blocked self h' out = false).
  { apply blocked_false. intros a Ha.
    destruct (Hkeep a Ha) as [-> Hk]. rewrite stops_mark.
    now apply (keep_not_stops self now). }
  destruct (filter_jobs_run self now out h' Hb2) as [h'' [Hrun2 Hh'']].
  assert (HK : kept_jobs self now h' out = out).
  { unfold kept_jobs. apply filter_all. intros a Ha.
    destruct (Hkeep a Ha) as [-> Hk]. now rewrite keep_mark. }
  rewrite HK in Hrun2, Hh''.
  assert (Hsame : forall a, h'' a = h' a).
  { intros a. rewrite Hh'', mark_all_at.
    destruct (existsb (Nat.eqb a) out) eqn:E; [|reflexivity].
    apply existsb_eqb_In in E. destruct (Hkeep a E) as [-> _].
    apply mark_mark. }
  exists out, h', h''. split; [exact Hrun|]. split; [|exact Hsame].
  rewrite Hrun2. f_equal. f_equal.
  rewrite (sort_by_ext (sort_key h'') (sort_key h') out)
    by (intros a; now apply sort_key_ext).
  unfold out. apply sort_by_sorted.
Qed.

(** X7.  Age only grows with the clock: between two readings
    [now1 <= now2] the age in days of a job with a naive date does not
    decrease, a job too old at [now1] is too old at [now2], and so every
    job that [filter_jobs] returns at [now2] is one it returns at [now1]
    from the same jobs. *)
Theorem later_filter_keeps_no_more (now1 now2 : datetime) :
  now1 <= now2 ->
  (forall d, exists n1 n2,
     days_since_posted now1 (Some (naive d)) = Ok (Finite n1) /\
     days_since_posted now2 (Some (naive d)) = Ok (Finite n2) /\ n1 <= n2) /\
  (forall posted,
     too_old self now1 posted = Ok true -> too_old self now2 posted = Ok true) /\
  (forall jobs h a,
     In a (match fst (filter_jobs self now2 jobs h) with
           | Ok out => out | Raise _ => [] end) ->
     In a (match fst (filter_jobs self now1 jobs h) with
           | Ok out => out | Raise _ => [] end)).
Proof.
  intros Hle.
  assert (Hdays : forall d, td_days (datetime_diff now1 d)
                            <= td_days (datetime_diff now2 d)).
  { intros d. unfold td_days, datetime_diff.
    apply Z.div_le_mono; [reflexivity | lia]. }
  assert (Hold : forall posted,
             too_old self now1 posted = Ok true ->
             too_old self now2 posted = Ok true).
  { intros [[d|d utcoffset]|]; [|discriminate|discriminate].
    cbn [too_old days_since_posted sub_datetime rbind days_gt].
    intros H. injection H as H. f_equal.
    apply Z.ltb_lt in H. apply Z.ltb_lt. specialize (Hdays d). lia. }
  split; [|split; [exact Hold|]].
  - intros d. do 2 eexists. split; [reflexivity|]. split; [reflexivity|].
    apply Hdays.
  - intros jobs h a.
    destruct (blocked self h jobs) eqn:Hb.
    + destruct (filter_jobs_stops self now2 jobs h Hb) as [h2 ->].
      intros [].
    + destruct (filter_jobs_run self now1 jobs h Hb) as [h1 [-> _]].
      destruct (filter_jobs_run self now2 jobs h Hb) as [h2 [-> _]].
      cbn [fst]. rewrite !sort_by_In, !kept_jobs_In.
      intros [Hin Hk]. split; [exact Hin|].
      unfold keep in *. apply andb_true_iff in Hk as [Ht Ho].
      rewrite Ht. cbn [andb].
      destruct (too_old self now1 (posted_date (h a))) as [[|]|e] eqn:E;
        [|reflexivity|].
      * rewrite (Hold _ E) in Ho. discriminate.
      * destruct (posted_date (h a)) as [[d|d utcoffset]|];
          cbn [too_old days_since_posted sub_datetime rbind] in E, Ho;
          discriminate.
Qed.

End FilterAgain.

(* ===================================================================== *)
(** * run_scrapers                                                        *)
(* ===================================================================== *)

Section Orchestration.
Import Py Props RunProps base_scraper scraper_context main.
Local Open Scope string_scope.
Variable raw : Type.
Variable isoformat : any_datetime -> string.
Variable instantiate : string -> M Heap (Source raw).
Variable clock : nat -> datetime.

Lemma run_one_no_Exception (i : nat) (name : string) (st : Run) (c : string) :
  fst (run_one isoformat instantiate clock i name st) <> Raise (PyException c).
Proof.
  unfold run_one, try_except_Exception.
  match goal with |- context [bind ?m ?k st] => destruct (bind m k st) as [[u|[c'|c']] st'] end;
    cbn [fst ret]; discriminate.
Qed.

(** one turn of the loop, step by step *)
Lemma run_one_steps (i : nat) (name : string) (st : Run) :
  run_one isoformat instantiate clock i name st =
  match get_scraper instantiate name (heap st) with
  | (Raise e, h1) => caught e (mkRun h1 (all_jobs st))
  | (Ok src, h1) =>
      match setup_driver src h1 with
      | (Raise e, h2) => caught e (mkRun h2 (all_jobs st))
      | (Ok _, h2) =>
          match scrape (scraper src) (clock i) h2 with
          | (Ok jobs, h3) =>
              let all :=
                (all_jobs st ++
                 map (fun job => to_dict isoformat (h3 job)) jobs)%list in
              match driver_quit src h3 with
              | (Ok _, h4) => (Ok tt, mkRun h4 all)
              | (Raise e, h4) => caught e (mkRun h4 all)
              end
          | (Raise e, h3) =>
              match driver_quit src h3 with
              | (Ok _, h4) => caught e (mkRun h4 (all_jobs st))
              | (Raise e', h4) => caught e' (mkRun h4 (all_jobs st))
              end
          end
      end
  end.
Proof.
  unfold run_one, try_except_Exception, bind at 1, on_heap at 1.
  destruct (get_scraper instantiate name (heap st)) as [[src|e] h1];
    [|destruct e; reflexivity].
  unfold with_, on_heap at 1, __enter__, bind at 1. cbn [heap all_jobs].
  destruct (setup_driver src h1) as [[u|e] h2]; [|destruct e; reflexivity].
  unfold ret at 1. unfold collect, bind at 1, on_heap at 1. cbn [heap all_jobs].
  destruct (scrape (scraper src) (clock i) h2) as [[jobs|e] h3].
  - unfold bind, get, modify, on_heap, __exit__. cbn [heap all_jobs].
    destruct (driver_quit src h3) as [[u'|[c|c]] h4]; reflexivity.
  - unfold on_heap, __exit__. cbn [heap all_jobs].
    destruct (driver_quit src h3) as [[u'|[c|c]] h4]; destruct e; reflexivity.
Qed.

Lemma caught_all_jobs (e : exn) (st : Run) :
  all_jobs (snd (caught e st)) = all_jobs st.
Proof. now destruct e. Qed.

Lemma run_one_grows (i : nat) (name : string) (st : Run) :
  exists more,
    all_jobs (snd (run_one isoformat instantiate clock i name st))
    = (all_jobs st ++ more)%list.
Proof.
  rewrite run_one_steps.
  destruct (get_scraper instantiate name (heap st)) as [[src|e] h1].
  2:{ exists []. now rewrite caught_all_jobs, app_nil_r. }
  destruct (setup_driver src h1) as [[u|e] h2].
  2:{ exists []. now rewrite caught_all_jobs, app_nil_r. }
  destruct (scrape (scraper src) (clock i) h2) as [[jobs|e] h3]; cbv zeta.
  - exists (map (fun job => to_dict isoformat (h3 job)) jobs).
    destruct (driver_quit src h3) as [[u'|e] h4];
      [reflexivity | now rewrite caught_all_jobs].
  - exists []. rewrite app_nil_r.
    destruct (driver_quit src h3) as [[u'|e'] h4]; now rewrite caught_all_jobs.
Qed.

(** X8.  [run_scrapers] goes through its sources one after the other and
    no [Exception] of a source reaches its caller.  A source whose name is
    not registered, whose class cannot be instantiated or whose browser
    does not start adds nothing to [all_jobs] and the loop goes on with the
    next one.  A source that scrapes adds the dictionaries of its jobs, in
    order, after those of the sources before it, and it does so even when
    quitting its browser raises an [Exception] afterwards.  [all_jobs]
    only ever grows. *)
Theorem run_scrapers_skips_failing_sources :
  (forall i names st c,
     fst (run_loop isoformat instantiate clock i names st)
     <> Raise (PyException c)) /\
  (forall i name st,
     existsb (String.eqb name) SCRAPER_CLASSES = false ->
     run_one isoformat instantiate clock i name st = (Ok tt, st)) /\
  (forall i name st c h1,
     get_scraper instantiate name (heap st) = (Raise (PyException c), h1) ->
     run_one isoformat instantiate clock i name st
     = (Ok tt, mkRun h1 (all_jobs st))) /\
  (forall i name st src h1 c h2,
     get_scraper instantiate name (heap st) = (Ok src, h1) ->
     setup_driver src h1 = (Raise (PyException c), h2) ->
     run_one isoformat instantiate clock i name st
     = (Ok tt, mkRun h2 (all_jobs st))) /\
  (forall i name st src h1 u h2 jobs h3 r h4,
     get_scraper instantiate name (heap st) = (Ok src, h1) ->
     setup_driver src h1 = (Ok u, h2) ->
     scrape (scraper src) (clock i) h2 = (Ok jobs, h3) ->
     driver_quit src h3 = (r, h4) ->
     (forall c, r <> Raise (PyBaseException c)) ->
     run_one isoformat instantiate clock i name st
     = (Ok tt,
        mkRun h4 (all_jobs st ++
                  map (fun job => to_dict isoformat (h3 job)) jobs))) /\
  (forall i names st,
     exists more,
       all_jobs (snd (run_loop isoformat instantiate clock i names st))
       = (all_jobs st ++ more)%list).
Proof.
  split; [|split; [|split; [|split; [|split]]]].
  - intros i names. revert i. induction names as [|name rest IH]; intros i st c.
    + discriminate.
    + cbn [run_loop]. unfold bind.
      pose proof (run_one_no_Exception i name st) as H1.
      destruct (run_one isoformat instantiate clock i name st) as [[u|e] st1].
      * apply IH.
      * cbn [fst] in *. apply H1.
  - intros i name [h l] Hno. rewrite run_one_steps.
    unfold get_scraper. rewrite Hno. reflexivity.
  - intros i name st c h1 Hg. rewrite run_one_steps, Hg. reflexivity.
  - intros i name st src h1 c h2 Hg Hs.
    rewrite run_one_steps, Hg, Hs. reflexivity.
  - intros i name st src h1 u h2 jobs h3 r h4 Hg Hs Hsc Hq Hr.
    rewrite run_one_steps, Hg, Hs, Hsc. cbv zeta. rewrite Hq.
    destruct r as [u'|[c|c]]; try reflexivity.
    exfalso. now apply (Hr c).
  - intros i names. revert i. induction names as [|name rest IH]; intros i st.
    + exists []. cbn [run_loop snd ret]. now rewrite app_nil_r.
    + cbn [run_loop]. unfold bind.
      destruct (run_one_grows i name st) as [m1 H1].
      destruct (run_one isoformat instantiate clock i name st) as [[u|e] st1];
        cbn [snd] in *.
      * destruct (IH (S i) st1) as [m2 H2]. exists (m1 ++ m2)%list.
        now rewrite H2, H1, app_assoc.
      * exists m1. exact H1.
Qed.

End Orchestration.

(* ===================================================================== *)
(** * From a scraped job to its row                                       *)
(* ===================================================================== *)

Section JobToRow.
Import Py Props StoreProps.
Local Open Scope string_scope.
Variable json_dumps : list string -> string.
Variable fromisoformat : string -> option datetime.
Variable isoformat : any_datetime -> string.

Lemma find_snoc_new (i : string) (rows : list job_store.JobModel)
  (row : job_store.JobModel) :
  find (fun r => job_store.id r =? i) rows = None ->
  job_store.id row = i ->
  find (fun r => job_store.id r =? i) (rows ++ [row]) = Some row.
Proof.
  intros Hnone Hid. induction rows as [|r rows IH]; cbn [app find].
  - now rewrite Hid, String.eqb_refl.
  - cbn [find] in Hnone. destruct (job_store.id r =? i); [discriminate|].
    now apply IH.
Qed.

(** X9.  What the orchestrator does with a scraped job, [to_dict] and
    then [add_job], stores the job as it is.  The [posted_date] of the job
    is absent or naive, as it is for every job that passed the filter.
    When the two dates of the job survive [isoformat] followed by
    [fromisoformat], the id is new and the commit goes through, the job is
    inserted, [get_job_by_id] finds its row, and the row carries the job's
    id, title, company, raw location, description, url, posting date,
    scraping date and flags, its two lists as JSON, and the defaults of a
    new row (not notified, no resume). *)
Theorem to_dict_then_add_job_stores_the_job
  (now : datetime) (j : base_scraper.Job) (s : job_store.Session) :
  is_aware (base_scraper.posted_date j) = false ->
  (forall d, base_scraper.posted_date j = Some (naive d) ->
             fromisoformat (isoformat (naive d)) = Some d) ->
  fromisoformat (isoformat (naive (base_scraper.scraped_at j)))
  = Some (base_scraper.scraped_at j) ->
  stored (base_scraper.id j) s = false ->
  next_fault s = None ->
  exists s' row,
    job_store.add_job json_dumps fromisoformat now
      (scraper_context.to_dict isoformat j) s = (Ok true, s') /\
    JobStore.get_job_by_id (base_scraper.id j) s' = (Ok (Some row), s') /\
    job_store.id row = base_scraper.id j /\
    job_store.title row = base_scraper.title j /\
    job_store.company row = base_scraper.company j /\
    job_store.location row = base_scraper.location j /\
    job_store.description row = base_scraper.description j /\
    job_store.url row = base_scraper.url j /\
    option_map naive (job_store.posted_date row)
    = base_scraper.posted_date j /\
    job_store.scraped_at row = base_scraper.scraped_at j /\
    job_store.requirements row = json_dumps (base_scraper.requirements j) /\
    job_store.keywords row = json_dumps (base_scraper.keywords j) /\
    job_store.is_eu row = base_scraper.is_eu j /\
    job_store.is_uae row = base_scraper.is_uae j /\
    job_store.notified row = false /\
    job_store.resume_generated row = false /\
    job_store.resume_path row = None.
Proof.
  intros Hnaive Hposted Hscraped Hnew Hok.
  pose proof (add_job_new json_dumps fromisoformat now
                (scraper_context.to_dict isoformat j) s Hnew Hok) as Hadd.
  cbv zeta in Hadd.
  eexists. eexists. split; [exact Hadd|].
  unfold JobStore.get_job_by_id, job_store.query_first_by_id.
  cbn [job_store.txn].
  split.
  { rewrite (@find_snoc_new (base_scraper.id j) (job_store.txn s)
               (job_store.job_row json_dumps fromisoformat now
                  (scraper_context.to_dict isoformat j))); [reflexivity| |reflexivity].
    unfold stored in Hnew.
    destruct (find _ (job_store.txn s)); [discriminate | reflexivity]. }
  unfold job_store.job_row, scraper_context.to_dict.
  cbn [job_store.id job_store.title job_store.company job_store.location
       job_store.description job_store.url job_store.posted_date
       job_store.scraped_at job_store.requirements job_store.keywords
       job_store.is_eu job_store.is_uae job_store.notified
       job_store.resume_generated job_store.resume_path
       job_store.jd_id job_store.jd_title job_store.jd_company
       job_store.jd_location job_store.jd_description job_store.jd_url
       job_store.jd_posted_date job_store.jd_requirements
       job_store.jd_keywords job_store.jd_is_eu job_store.jd_is_uae
       job_store.jd_scraped_at job_store.get_default].
  rewrite Hscraped. cbn [job_store.get_default].
  repeat (split; [reflexivity|]).
  split; [|repeat split].
  destruct (base_scraper.posted_date j) as [[d|d utcoffset]|] eqn:E;
    [|discriminate|reflexivity].
  now rewrite (Hposted d eq_refl).
Qed.

End JobToRow.

(* ===================================================================== *)
(** * The relative-date parsers on arbitrary input                        *)
(* ===================================================================== *)

Section ParsersTotal.
Import Py Props re.
Local Open Scope string_scope.
Local Open Scope Z_scope.
Variable now : datetime.
Hypothesis now_valid : datetime_min <= now <= datetime_max.

Lemma ago_bounds (delta : Z) (d : datetime) :
  0 <= delta -> ago now delta = Some d -> datetime_min <= d <= now.
Proof.
  unfold ago. intros Hd.
  destruct (datetime_min <=? now - delta) eqn:E; [|discriminate].
  intros H; inversion H; subst. apply Z.leb_le in E. lia.
Qed.

(** a subtraction of a non-negative duration, wrapped in either [try] *)
Lemma sub_timedelta_all (delta : Z) :
  0 <= delta ->
  except_all
    (rbind (mk_timedelta delta)
           (fun td => rbind (datetime_sub now td) (fun d => Ok (Some d))))
    None
  = ago now delta.
Proof.
  intros Hd. rewrite sub_timedelta by assumption. now destruct (ago now delta).
Qed.

Lemma sub_timedelta_Exception (delta : Z) :
  0 <= delta ->
  except_Exception
    (rbind (mk_timedelta delta)
           (fun td => rbind (datetime_sub now td) (fun d => Ok (Some d))))
    None
  = Ok (ago now delta).
Proof.
  intros Hd. rewrite sub_timedelta by assumption. now destruct (ago now delta).
Qed.

Lemma us_per_hour_pos : 0 < us_per_hour.
Proof. reflexivity. Qed.

(** X11.  Whatever string they are given, the two parsers of relative
    dates do not raise, and a date they return is never after the clock
    reading they were called at (nor before [datetime.min]): a job dated
    by them has a non-negative age. *)
Theorem relative_dates_are_never_in_the_future (date_str : string) :
  (forall d, LinkedInScraper._parse_relative_date now date_str = Some d ->
             datetime_min <= d <= now) /\
  (exists r, GoogleScraper._parse_date now date_str = Ok r /\
             forall d, r = Some d -> datetime_min <= d <= now).
Proof.
  assert (Hnow : forall d, Some now = Some d -> datetime_min <= d <= now)
    by (intros d H; inversion H; subst; lia).
  assert (Hnone : forall d : datetime, None = Some d -> datetime_min <= d <= now)
    by discriminate.
  split.
  - unfold LinkedInScraper._parse_relative_date.
    destruct (str_in "just now" (lower date_str) || str_in "today" (lower date_str));
      [exact Hnow|].
    destruct (search _ (lower date_str)) as [[g1 unit]|]; [|exact Hnone].
    pose proof (int_nonneg g1) as Hn.
    pose proof us_per_hour_pos. pose proof us_per_day_pos.
    unfold timedelta_hours, timedelta_days, timedelta_weeks.
    repeat (destruct (unit =? _)%string;
            [rewrite sub_timedelta_all by nia;
             intros d Hd; apply ago_bounds in Hd; [exact Hd | nia]|]).
    exact Hnone.
  - unfold GoogleScraper._parse_date.
    destruct (str_in "today" (lower date_str) || str_in "just" (lower date_str));
      [eexists; split; [reflexivity | exact Hnow]|].
    pose proof us_per_day_pos.
    unfold timedelta_days, timedelta_weeks.
    destruct (str_in "yesterday" (lower date_str)).
    { rewrite sub_timedelta_Exception by nia.
      eexists; split; [reflexivity|].
      intros d Hd; apply ago_bounds in Hd; [exact Hd | nia]. }
    destruct (search _ (lower date_str)) as [[g1 unit]|];
      [|eexists; split; [reflexivity | exact Hnone]].
    pose proof (int_nonneg g1) as Hn.
    repeat (destruct (unit =? _)%string;
            [rewrite sub_timedelta_Exception by nia;
             eexists; split; [reflexivity|];
             intros d Hd; apply ago_bounds in Hd; [exact Hd | nia]|]).
    eexists; split; [reflexivity | exact Hnone].
Qed.

End ParsersTotal.

(* ===================================================================== *)
(** * Spacing and case in relative dates                                  *)
(* ===================================================================== *)

Section Spelling.
Import Py Props DateProps re.
Local Open Scope string_scope.

Lemma lower_char_idem (c : ascii) : lower_char (lower_char c) = lower_char c.
Proof. destruct c as [[] [] [] [] [] [] [] []]; reflexivity. Qed.

Lemma lower_idem (s : string) : lower (lower s) = lower s.
Proof.
  induction s as [|c s IH]; [reflexivity|]. cbn [lower].
  now rewrite lower_char_idem, IH.
Qed.

Lemma lower_app (a b : string) : lower (a ++ b) = lower a ++ lower b.
Proof. induction a as [|c a IH]; [reflexivity|]. cbn [append lower]. now rewrite IH. Qed.

Lemma space_facts (c : ascii) :
  isspace c = true ->
  isdigit c = false /\ lower_char c = c /\
  (forall r, opt_s (String c r) = String c r).
Proof.
  destruct c as [[] [] [] [] [] [] [] []]; intros H;
    try discriminate H; repeat split.
Qed.

Lemma lower_blanks (ws : string) : blanks ws -> lower ws = ws.
Proof.
  unfold blanks. induction ws as [|c ws IH]; [reflexivity|].
  cbn [all_chars lower]. intros H. apply andb_true_iff in H as [Hc Hws].
  destruct (space_facts c Hc) as [_ [-> _]]. now rewrite IH.
Qed.

(** a pattern whose first character is outside a class does not start
    inside a run of that class *)
Lemma str_in_skip (p : ascii -> bool) (c : ascii) (pat a b : string) :
  p c = false -> all_chars p a = true ->
  str_in (String c pat) (a ++ b) = str_in (String c pat) b.
Proof.
  intros Hc. induction a as [|d a IH]; [reflexivity|].
  intros H. cbn [all_chars] in H. apply andb_true_iff in H as [Hd Ha].
  cbn [append str_in]. rewrite (IH Ha).
  replace (prefix (String c pat) (String d (a ++ b))) with false; [reflexivity|].
  cbn [prefix]. destruct (ascii_dec c d) as [->|]; [congruence | reflexivity].
Qed.

Lemma prefix_skip (p : ascii -> bool) (c : ascii) (pat a b : string) :
  p c = false -> all_chars p a = true ->
  prefix (String c pat) (a ++ b) =
  match a with
  | EmptyString => prefix (String c pat) b
  | _ => false
  end.
Proof.
  intros Hc Ha. destruct a as [|d a]; [reflexivity|].
  cbn [all_chars] in Ha. apply andb_true_iff in Ha as [Hd _].
  cbn [append prefix]. destruct (ascii_dec c d) as [->|]; [congruence | reflexivity].
Qed.

Lemma span_all (p : ascii -> bool) (a b : string) :
  all_chars p a = true ->
  match b with EmptyString => True | String c _ => p c = false end ->
  span p (a ++ b) = (a, b).
Proof.
  intros Ha Hb. induction a as [|d a IH]; cbn [append].
  - destruct b as [|c b]; [reflexivity|]. cbn [span]. now rewrite Hb.
  - cbn [all_chars] in Ha. apply andb_true_iff in Ha as [Hd Ha].
    cbn [span]. now rewrite Hd, (IH Ha).
Qed.

(** the part of a spaced form after the number and the first blanks *)
Lemma unit_part_has_no_keyword (pat unit plural ws2 : string) :
  In pat ["just now"; "today"; "just"; "yesterday"] ->
  In unit ["hour"; "day"; "week"; "month"] ->
  In plural [""; "s"] ->
  blanks ws2 ->
  str_in pat (unit ++ plural ++ ws2 ++ "ago") = false.
Proof.
  intros Hp Hu Hpl Hws. cbn [In] in Hp, Hu, Hpl.
  assert (Hrest : forall c q, isspace c = false ->
                   str_in (String c q) "ago" = false ->
                   str_in (String c q) (ws2 ++ "ago") = false).
  { intros c q Hc Hago. now rewrite (str_in_skip isspace c q ws2 "ago" Hc Hws). }
  assert (Hpre : forall c q, isspace c = false ->
                  prefix (String c q) "ago" = false ->
                  prefix (String c q) (ws2 ++ "ago") = false).
  { intros c q Hc Hago. rewrite (prefix_skip isspace c q ws2 "ago" Hc Hws).
    now destruct ws2. }
  destruct Hp as [<-|[<-|[<-|[<-|[]]]]];
    destruct Hu as [<-|[<-|[<-|[<-|[]]]]];
    destruct Hpl as [<-|[<-|[]]];
    cbn [append str_in]; cbn [prefix]; cbn;
    rewrite ?Hrest by reflexivity; rewrite ?Hpre by reflexivity;
    reflexivity.
Qed.

Lemma unit_part_matches (units : list string) (unit plural ws2 : string) :
  blanks ws2 ->
  In plural [""; "s"] ->
  (forall r, match_alt units (unit ++ r) = Some (unit, r)) ->
  exists r3,
    match_alt units (unit ++ plural ++ ws2 ++ "ago") = Some (unit, r3) /\
    prefix "ago" (snd (span isspace (opt_s r3))) = true.
Proof.
  intros Hws Hpl Hm. exists (plural ++ ws2 ++ "ago"). split; [apply Hm|].
  assert (Hspan : span isspace (ws2 ++ "ago") = (ws2, "ago"))
    by (apply span_all; [exact Hws | reflexivity]).
  cbn [In] in Hpl. destruct Hpl as [<-|[<-|[]]]; cbn [append opt_s].
  - destruct ws2 as [|c ws2]; [reflexivity|].
    unfold blanks in Hws. cbn [all_chars] in Hws.
    apply andb_true_iff in Hws as [Hc _].
    destruct (space_facts c Hc) as [_ [_ Hs]].
    cbn [append]. rewrite Hs.
    change (String c (ws2 ++ "ago")) with (String c ws2 ++ "ago").
    now rewrite Hspan.
  - now rewrite Hspan.
Qed.

Lemma search_without_digits (units : list string) (s : string) :
  all_chars (fun c => negb (isdigit c)) s = true -> search units s = None.
Proof.
  induction s as [|c s IH]; [reflexivity|].
  cbn [all_chars]. intros H. apply andb_true_iff in H as [Hc Hs].
  apply negb_true_iff in Hc.
  cbn [search]. unfold match_here. cbn [span]. rewrite Hc. now apply IH.
Qed.

Lemma blanks_without_digits (ws : string) :
  blanks ws -> all_chars (fun c => negb (isdigit c)) ws = true.
Proof.
  unfold blanks. induction ws as [|c ws IH]; [reflexivity|].
  cbn [all_chars]. intros H. apply andb_true_iff in H as [Hc Hws].
  destruct (space_facts c Hc) as [-> _]. now rewrite IH.
Qed.

Variable now : datetime.
Hypothesis now_valid : (datetime_min <= now <= datetime_max)%Z.

Lemma spaced_tail_facts (ws1 unit plural ws2 : string) :
  blanks ws1 -> blanks ws2 ->
  In unit ["hour"; "day"; "week"; "month"] -> In plural [""; "s"] ->
  let tail := ws1 ++ unit ++ plural ++ ws2 ++ "ago" in
  match tail with EmptyString => True | String c _ => isdigit c = false end /\
  lower tail = tail /\
  (forall pat, In pat ["just now"; "today"; "just"; "yesterday"] ->
               str_in pat tail = false) /\
  span isspace tail = (ws1, unit ++ plural ++ ws2 ++ "ago").
Proof.
  intros H1 H2 Hu Hpl. cbv zeta.
  assert (Hhead : match unit ++ plural ++ ws2 ++ "ago" with
                  | EmptyString => True
                  | String c _ => isdigit c = false /\ isspace c = false
                  end).
  { cbn [In] in Hu. destruct Hu as [<-|[<-|[<-|[<-|[]]]]]; split; reflexivity. }
  split; [|split; [|split]].
  - destruct ws1 as [|c ws1]; cbn [append].
    + destruct (unit ++ plural ++ ws2 ++ "ago"); [exact I | apply Hhead].
    + unfold blanks in H1. cbn [all_chars] in H1.
      apply andb_true_iff in H1 as [Hc _]. now apply space_facts.
  - rewrite !lower_app, (lower_blanks H1), (lower_blanks H2).
    cbn [In] in Hu, Hpl.
    destruct Hu as [<-|[<-|[<-|[<-|[]]]]]; destruct Hpl as [<-|[<-|[]]];
      reflexivity.
  - intros pat Hp.
    assert (Hskip : str_in pat (ws1 ++ unit ++ plural ++ ws2 ++ "ago")
                    = str_in pat (unit ++ plural ++ ws2 ++ "ago")).
    { cbn [In] in Hp. destruct Hp as [<-|[<-|[<-|[<-|[]]]]];
        now apply (str_in_skip isspace). }
    rewrite Hskip. now apply unit_part_has_no_keyword.
  - apply span_all; [exact H1|].
    destruct (unit ++ plural ++ ws2 ++ "ago"); [exact I | apply Hhead].
Qed.

(** X12.  The parsers read the lower-cased string and the pattern allows
    any run of whitespace, an empty one too, between the number and the
    unit and between the unit and "ago".  So every spelling of "N unit(s)
    ago" in any mix of cases and with any such spacing ("3 days ago",
    "3days ago", "3 Days  Ago") gets the date of the plain form: LinkedIn's
    parser for hours, days, weeks and months, Google's for days, weeks and
    months; and Google's has no date for hours in any spelling. *)
Theorem relative_dates_ignore_case_and_spacing
  (date_str ds ws1 unit plural ws2 : string) :
  lower date_str = spaced_form ds ws1 unit plural ws2 ->
  is_number ds -> blanks ws1 -> blanks ws2 -> In plural [""; "s"] ->
  (In unit ["hour"; "day"; "week"; "month"] ->
   LinkedInScraper._parse_relative_date now date_str
   = ago now (duration unit (int ds))) /\
  (In unit ["day"; "week"; "month"] ->
   GoogleScraper._parse_date now date_str
   = Ok (ago now (duration unit (int ds)))) /\
  (unit = "hour" -> GoogleScraper._parse_date now date_str = Ok None).
Proof.
  intros Hform Hds H1 H2 Hpl.
  assert (HL : LinkedInScraper._parse_relative_date now date_str =
               LinkedInScraper._parse_relative_date now (lower date_str))
    by (unfold LinkedInScraper._parse_relative_date; now rewrite lower_idem).
  assert (HG : GoogleScraper._parse_date now date_str =
               GoogleScraper._parse_date now (lower date_str))
    by (unfold GoogleScraper._parse_date; now rewrite lower_idem).
  rewrite HL, HG, Hform. unfold spaced_form. clear HL HG Hform.
  assert (Hfacts : In unit ["hour"; "day"; "week"; "month"] ->
                   _ ) by (intros Hu; exact (spaced_tail_facts H1 H2 Hu Hpl)).
  cbv zeta in Hfacts.
  split; [|split].
  - intros Hu. destruct (Hfacts Hu) as [Hhead [Hlow [Hkw Hspan]]].
    destruct (@unit_part_matches ["day"; "week"; "month"; "hour"]
                unit plural ws2 H2 Hpl) as [r3 [Hm Hago]].
    { intros r. cbn [In] in Hu.
      destruct Hu as [<-|[<-|[<-|[<-|[]]]]]; reflexivity. }
    eapply linkedin_number; try eassumption.
    + apply Hkw. simpl; auto.
    + apply Hkw. simpl; auto.
    + rewrite Hspan. exact Hm.
  - intros Hu.
    assert (Hu' : In unit ["hour"; "day"; "week"; "month"])
      by (cbn [In] in *; intuition).
    destruct (Hfacts Hu') as [Hhead [Hlow [Hkw Hspan]]].
    destruct (@unit_part_matches ["day"; "week"; "month"]
                unit plural ws2 H2 Hpl) as [r3 [Hm Hago]].
    { intros r. cbn [In] in Hu.
      destruct Hu as [<-|[<-|[<-|[]]]]; reflexivity. }
    eapply google_number; try eassumption.
    + apply Hkw. simpl; auto.
    + apply Hkw. simpl; auto.
    + apply Hkw. simpl; auto.
    + rewrite Hspan. exact Hm.
  - intros ->.
    destruct (Hfacts (or_introl eq_refl)) as [Hhead [Hlow [Hkw Hspan]]].
    apply google_no_unit; try assumption.
    + apply Hkw. simpl; auto.
    + apply Hkw. simpl; auto.
    + apply Hkw. simpl; auto.
    + rewrite Hspan. reflexivity.
    + apply search_without_digits.
      rewrite !all_chars_app, (blanks_without_digits H1),
        (blanks_without_digits H2).
      cbn [In] in Hpl. destruct Hpl as [<-|[<-|[]]]; reflexivity.
Qed.

End Spelling.

(* ===================================================================== *)
(** * Locations that are already normal                                   *)
(* ===================================================================== *)

Section NormalLocations.
Import Py Props helpers.
Local Open Scope string_scope.

(** X13.  [normalize_location] leaves alone what is already normal: a
    location made of words separated by single spaces, in which no entry
    of the substitution table occurs, is returned unchanged ("Berlin,
    Germany" stays "Berlin, Germany").  A word is free of whitespace, that
    of ASCII and that of the rest of Unicode. *)
Theorem normalize_location_keeps_normal_locations (ws : list string) :
  Forall plain_word ws ->
  (forall old new, In (old, new) mappings -> str_in old (join " " ws) = false) ->
  normalize_location (join " " ws) = join " " ws.
Proof.
  intros Hws Hkeys.
  assert (Hw : Forall is_word ws)
    by (eapply Forall_impl; [|exact Hws]; intros w [H _]; exact H).
  rewrite normalize_location_eq, (split_join Hw).
  apply apply_mappings_absent. intros old new Hin. split.
  - now apply (@mappings_keys old new).
  - now apply (Hkeys old new).
Qed.

End NormalLocations.

(* ===================================================================== *)
(** * Estimated posting dates and the age filter                          *)
(* ===================================================================== *)

Section EstimatedDates.
Import Py Props helpers base_scraper adapters.
Local Open Scope string_scope.
Local Open Scope Z_scope.
Variable fetch_job_details : string -> Details.
Variable now scraped : datetime.
Variable raw_job : RawJob.
Hypothesis now_valid : datetime_min + 15 * us_per_day <= now <= datetime_max.

Lemma estimate_date (k : Z) :
  0 <= k <= 15 ->
  timedelta_days k = Ok (k * us_per_day) /\
  datetime_sub now (k * us_per_day) = Ok (now - k * us_per_day).
Proof.
  intros Hk. pose proof us_per_day_pos as Hpos.
  unfold timedelta_days, mk_timedelta, timedelta_ok, datetime_sub.
  rewrite td_days_mul.
  unfold datetime_min, datetime_max in *.
  replace ((-999999999 <=? k) && (k <=? 999999999)) with true
    by (symmetry; apply andb_true_iff; split; apply Z.leb_le; lia).
  replace ((0 <=? now - k * us_per_day) &&
           (now - k * us_per_day <=? 3652059 * us_per_day - 1)) with true
    by (symmetry; apply andb_true_iff; split; apply Z.leb_le; nia).
  split; reflexivity.
Qed.

(** the age, at [now2], of a date put [k] days before [now] *)
Lemma estimate_age (k now2 : Z) :
  td_days (datetime_diff now2 (now - k * us_per_day))
  = k + td_days (now2 - now).
Proof.
  unfold td_days, datetime_diff.
  replace (now2 - (now - k * us_per_day)) with (now2 - now + k * us_per_day)
    by ring.
  rewrite Z.div_add by discriminate. ring.
Qed.

Lemma estimate_too_old (raw : Type) (self : BaseScraper raw) (k now2 : Z) :
  now <= now2 ->
  (max_age_days self < k ->
   too_old self now2 (Some (naive (now - k * us_per_day))) = Ok true) /\
  (now2 - now < us_per_day -> k <= max_age_days self ->
   too_old self now2 (Some (naive (now - k * us_per_day))) = Ok false).
Proof.
  intros Hle. cbn [too_old days_since_posted sub_datetime rbind days_gt].
  rewrite estimate_age. pose proof us_per_day_pos. split.
  - intros Hk. f_equal. apply Z.ltb_lt.
    assert (0 <= td_days (now2 - now))
      by (unfold td_days; apply Z.div_pos; lia).
    lia.
  - intros Hday Hk. f_equal. apply Z.ltb_ge.
    assert (td_days (now2 - now) = 0)
      by (unfold td_days; apply Z.div_small; lia).
    lia.
Qed.

(** X10.  Bayt and GulfTalent date every job seven days before the time
    of parsing, Meta and Netflix fifteen days before it; a raw record
    always parses.  Hence the age filter, run at any later time, drops
    every job of Bayt and GulfTalent when [max_age_days < 7] and every job
    of Meta and Netflix when [max_age_days < 15]; run within a day of
    parsing it keeps them on age when [max_age_days] is at least 7, resp.
    15.  A Bayt or GulfTalent record without a location gets the location
    "UAE", which the filter classifies as UAE and not EU. *)
Theorem estimated_dates_meet_the_age_filter :
  exists jb jg jm jn,
    BaytScraper.parse_job fetch_job_details now scraped raw_job
    = Ok (Some jb) /\
    GulfTalentScraper.parse_job fetch_job_details now scraped raw_job
    = Ok (Some jg) /\
    MetaScraper.parse_job fetch_job_details now scraped raw_job
    = Ok (Some jm) /\
    NetflixScraper.parse_job fetch_job_details now scraped raw_job
    = Ok (Some jn) /\
    posted_date jb = Some (naive (now - 7 * us_per_day)) /\
    posted_date jg = Some (naive (now - 7 * us_per_day)) /\
    posted_date jm = Some (naive (now - 15 * us_per_day)) /\
    posted_date jn = Some (naive (now - 15 * us_per_day)) /\
    (raw_location raw_job = None ->
     classify (location jb) = (false, true) /\
     classify (location jg) = (false, true)) /\
    (forall (raw : Type) (self : BaseScraper raw) now2,
       now <= now2 ->
       (max_age_days self < 7 ->
        too_old self now2 (posted_date jb) = Ok true /\
        too_old self now2 (posted_date jg) = Ok true) /\
       (max_age_days self < 15 ->
        too_old self now2 (posted_date jm) = Ok true /\
        too_old self now2 (posted_date jn) = Ok true) /\
       (now2 - now < us_per_day -> 7 <= max_age_days self ->
        too_old self now2 (posted_date jb) = Ok false /\
        too_old self now2 (posted_date jg) = Ok false) /\
       (now2 - now < us_per_day -> 15 <= max_age_days self ->
        too_old self now2 (posted_date jm) = Ok false /\
        too_old self now2 (posted_date jn) = Ok false)).
Proof.
  unfold BaytScraper.parse_job, GulfTalentScraper.parse_job,
    MetaScraper.parse_job, NetflixScraper.parse_job.
  cbv zeta.
  destruct (@estimate_date 7 ltac:(lia)) as [T7 S7].
  destruct (@estimate_date 15 ltac:(lia)) as [T15 S15].
  rewrite T7, T15. cbn [rbind]. rewrite S7, S15.
  cbn [rbind except_Exception].
  do 4 eexists.
  split; [reflexivity|]. split; [reflexivity|].
  split; [reflexivity|]. split; [reflexivity|].
  cbn [posted_date location].
  split; [reflexivity|]. split; [reflexivity|].
  split; [reflexivity|]. split; [reflexivity|].
  split.
  - intros ->. split; reflexivity.
  - intros raw self now2 Hle.
    destruct (@estimate_too_old raw self 7 now2 Hle) as [H7a H7b].
    destruct (@estimate_too_old raw self 15 now2 Hle) as [H15a H15b].
    repeat split; auto.
Qed.

End EstimatedDates.

(* ===================================================================== *)
(** * Which resume is recorded for which job                              *)
(* ===================================================================== *)

Section ResumeAttribution.
Import Py Props StoreProps job_store JobStore main_process.
Local Open Scope string_scope.
Variable Parsed : Type.
Variable tailor : Parsed -> ProcJob -> result string.
Variable parsed : Parsed.

Lemma process_loop_all_ok (path : ProcJob -> string) (jobs : list ProcJob) :
  (forall job, In job jobs -> tailor parsed job = Ok (path job)) ->
  forall acc,
    process_loop tailor parsed jobs acc = Ok (acc ++ map path jobs)%list.
Proof.
  induction jobs as [|job jobs IH]; intros H acc.
  - cbn [process_loop map]. now rewrite app_nil_r.
  - cbn [process_loop map]. rewrite (H job (or_introl eq_refl)).
    rewrite IH by (intros j Hj; apply H; now right).
    now rewrite <- app_assoc.
Qed.

Lemma stored_update_first (i j path : string) (s : Session)
  (c : list JobModel) (f : list (option exn)) :
  stored i (mkSession c (update_first j (set_resume path) (txn s)) f)
  = stored i s.
Proof.
  unfold stored. cbn [txn].
  destruct (String.eqb_spec i j) as [->|Hne].
  - destruct (find (fun r => id r =? j) (txn s)) as [r|] eqn:E.
    + now rewrite (@find_update_first_same j path (txn s) r E).
    + replace (update_first j (set_resume path) (txn s)) with (txn s);
        [now rewrite E|].
      clear - E. induction (txn s) as [|x rows IH]; [reflexivity|].
      cbn [find] in E. cbn [update_first].
      destruct (id x =? j); [discriminate | now rewrite <- IH].
  - now rewrite find_update_first_other.
Qed.

(** the table after the resumes of [jobs] were recorded, each with the
    path [path] gives it *)
Lemma mark_resumes_by_position (path : ProcJob -> string)
  (jobs : list ProcJob) :
  forall (pre : list string) (s : Session),
    healthy s ->
    (forall job, In job jobs -> stored (pj_id job) s = true) ->
    exists s',
      mark_resumes (List.length pre) jobs (pre ++ map path jobs) s
      = (Ok tt, s') /\
      healthy s' /\
      txn s' = fold_left (fun rows job =>
                            update_first (pj_id job) (set_resume (path job)) rows)
                         jobs (txn s).
Proof.
  induction jobs as [|job jobs IH]; intros pre s Hs Hst.
  - exists s. cbn [mark_resumes fold_left]. auto.
  - cbn [mark_resumes map]. unfold Py.bind at 1.
    replace (List.length pre <? List.length (pre ++ path job :: map path jobs))%nat
      with true
      by (symmetry; apply Nat.ltb_lt; rewrite length_app; cbn [List.length]; lia).
    rewrite (nth_middle pre (map path jobs) (path job) "").
    rewrite (mark_resume_generated_ok (pj_id job) (path job) s)
      by (auto using healthy_next; apply Hst; now left).
    set (s1 := mkSession _ _ _).
    replace (pre ++ path job :: map path jobs)%list
      with ((pre ++ [path job]) ++ map path jobs)%list
      by (now rewrite <- app_assoc).
    replace (S (List.length pre)) with (List.length (pre ++ [path job]))
      by (rewrite length_app; cbn [List.length]; lia).
    destruct (IH (pre ++ [path job])%list s1) as [s' [Hrun [Hh Htxn]]].
    + unfold s1. now apply healthy_tl.
    + intros j Hj. unfold s1. rewrite stored_update_first. apply Hst. now right.
    + exists s'. split; [exact Hrun|]. split; [exact Hh|].
      rewrite Htxn. reflexivity.
Qed.

Lemma find_after_others (path : ProcJob -> string) (i : string)
  (jobs : list ProcJob) :
  (forall job, In job jobs -> pj_id job <> i) ->
  forall rows,
    find (fun r => id r =? i)
         (fold_left (fun rows job =>
                       update_first (pj_id job) (set_resume (path job)) rows)
                    jobs rows)
    = find (fun r => id r =? i) rows.
Proof.
  induction jobs as [|job jobs IH]; intros H rows; [reflexivity|].
  cbn [fold_left]. rewrite IH by (intros j Hj; apply H; now right).
  apply find_update_first_other.
  intros E. apply (H job (or_introl eq_refl)). now symmetry.
Qed.

Lemma find_after_own (path : ProcJob -> string) (jobs : list ProcJob) :
  NoDup (map pj_id jobs) ->
  forall rows job r,
    In job jobs ->
    find (fun r => id r =? pj_id job) rows = Some r ->
    find (fun r => id r =? pj_id job)
         (fold_left (fun rows job =>
                       update_first (pj_id job) (set_resume (path job)) rows)
                    jobs rows)
    = Some (set_resume (path job) r).
Proof.
  induction jobs as [|j0 jobs IH]; intros Hn rows job r Hin Hfind; [destruct Hin|].
  cbn [map] in Hn. inversion Hn as [|x l Hnot Hrest]; subst.
  cbn [fold_left]. destruct Hin as [<-|Hin].
  - rewrite find_after_others.
    + now apply find_update_first_same.
    + intros j Hj E. apply Hnot. rewrite <- E. now apply in_map.
  - apply IH; [assumption | assumption |].
    rewrite find_update_first_other; [assumption|].
    intros E. apply Hnot. rewrite <- E. now apply in_map.
Qed.

(** X14.  The resumes are recorded by position: the [i]-th job to process
    gets the [i]-th path that [process_jobs] returned.  When every resume
    is generated, [process_jobs] returns one path per job, in order, and
    after the recording loop the row of every job carries the path of its
    own resume.  But a job whose generation raises is skipped without
    leaving a gap in the list: of two jobs, when the first fails and the
    second succeeds, the one path returned is recorded on the row of the
    first job, and the row of the second job is left unmarked. *)
Theorem resume_paths_are_recorded_by_position :
  (forall (path : ProcJob -> string) jobs s,
     healthy s -> NoDup (map pj_id jobs) ->
     (forall job, In job jobs -> stored (pj_id job) s = true) ->
     (forall job, In job jobs -> tailor parsed job = Ok (path job)) ->
     exists s',
       process_jobs true (Ok parsed) tailor jobs = Ok (map path jobs) /\
       mark_resumes 0 jobs (map path jobs) s = (Ok tt, s') /\
       forall job r,
         In job jobs ->
         get_job_by_id (pj_id job) s = (Ok (Some r), s) ->
         get_job_by_id (pj_id job) s'
         = (Ok (Some (set_resume (path job) r)), s')) /\
  (forall a b c p s ra rb,
     healthy s -> pj_id a <> pj_id b ->
     get_job_by_id (pj_id a) s = (Ok (Some ra), s) ->
     get_job_by_id (pj_id b) s = (Ok (Some rb), s) ->
     tailor parsed a = Raise (PyException c) ->
     tailor parsed b = Ok p ->
     exists s',
       process_jobs true (Ok parsed) tailor [a; b] = Ok [p] /\
       mark_resumes 0 [a; b] [p] s = (Ok tt, s') /\
       get_job_by_id (pj_id a) s' = (Ok (Some (set_resume p ra)), s') /\
       get_job_by_id (pj_id b) s' = (Ok (Some rb), s')).
Proof.
  split.
  - intros path jobs s Hs Hn Hst Hok.
    destruct (@mark_resumes_by_position path jobs [] s Hs Hst)
      as [s' [Hrun [_ Htxn]]].
    cbn [List.length app] in Hrun.
    exists s'. split; [|split; [exact Hrun|]].
    + unfold process_jobs. destruct jobs as [|j0 jobs]; [reflexivity|].
      cbn [negb rbind]. now rewrite (@process_loop_all_ok path (j0 :: jobs) Hok).
    + intros job r Hin Hget.
      unfold get_job_by_id, query_first_by_id in *.
      inversion Hget as [Hfind]. rewrite Htxn.
      now rewrite (@find_after_own path jobs Hn (txn s) job r Hin Hfind).
  - intros a b c p s ra rb Hs Hne Ha Hb Hfail Hgood.
    unfold get_job_by_id, query_first_by_id in Ha, Hb.
    inversion Ha as [Hfa]. inversion Hb as [Hfb].
    assert (Hsa : stored (pj_id a) s = true)
      by (unfold stored; now rewrite Hfa).
    pose proof (@mark_resume_generated_ok (pj_id a) p s Hsa (healthy_next Hs))
      as Hmark.
    eexists. split; [|split; [|split]].
    + unfold process_jobs. cbn [negb rbind process_loop].
      rewrite Hfail, Hgood. reflexivity.
    + cbn [mark_resumes List.length nth Nat.ltb Nat.leb]. unfold Py.bind.
      rewrite Hmark. reflexivity.
    + unfold get_job_by_id, query_first_by_id. cbn [txn].
      now rewrite (@find_update_first_same (pj_id a) p (txn s) ra Hfa).
    + unfold get_job_by_id, query_first_by_id. cbn [txn].
      rewrite find_update_first_other by (intros E; apply Hne; now symmetry).
      now rewrite Hfb.
Qed.

End ResumeAttribution.

(* ===================================================================== *)
(** * Concrete runs of the further properties                             *)
(* ===================================================================== *)

Section FurtherRuns.
Import Py Props StoreProps DateProps Examples Samples.
Local Open Scope string_scope.
Local Open Scope Z_scope.

Lemma two_rows_unique : unique_ids (job_store.txn two_rows).
Proof.
  unfold unique_ids. cbn.
  repeat constructor; cbn; intuition discriminate.
Qed.

Lemma two_rows_committed_unique : unique_ids (job_store.committed two_rows).
Proof.
  unfold unique_ids. cbn.
  repeat constructor; cbn; intuition discriminate.
Qed.

Lemma two_rows_healthy : healthy two_rows.
Proof. unfold healthy. cbn. constructor. Qed.

Lemma add_jobs_appends_and_counts_witness :
  exists rows,
    job_store.committed
      (snd (job_store.add_jobs json_words iso_noon noon
              [record "0123456789ab" "Berlin, Germany";
               record "0123456789ab" "Dubai, UAE";
               record "ba9876543210" "Dubai, UAE"] job_store.empty_store))
    = rows /\
    fst (job_store.add_jobs json_words iso_noon noon
           [record "0123456789ab" "Berlin, Germany";
            record "0123456789ab" "Dubai, UAE";
            record "ba9876543210" "Dubai, UAE"] job_store.empty_store)
    = Ok (List.length rows).
Proof.
  destruct (@add_jobs_appends_and_counts json_words iso_noon noon
              [record "0123456789ab" "Berlin, Germany";
               record "0123456789ab" "Dubai, UAE";
               record "ba9876543210" "Dubai, UAE"]
              job_store.empty_store eq_refl) as [rows [Hc [_ Hres]]].
  exists rows. split; [exact Hc|].
  destruct (fst (job_store.add_jobs _ _ _ _ _)) as [n|e] eqn:E;
    [|vm_compute in E; discriminate].
  destruct Hres as [-> _]. reflexivity.
Defined.

Lemma store_ids_stay_unique_witness :
  unique_ids
    (job_store.txn
       (snd (job_store.add_job json_words iso_noon noon
               (record "0123456789ab" "Paris, France") two_rows))) /\
  unique_ids
    (job_store.txn
       (snd (job_store.mark_resume_generated "ba9876543210" "path.docx"
               two_rows))).
Proof.
  destruct (@store_ids_stay_unique json_words iso_noon two_rows
              two_rows_unique two_rows_committed_unique)
    as [Hadd [_ [_ Hmark]]].
  split.
  - apply (Hadd noon (record "0123456789ab" "Paris, France")).
  - apply (Hmark "ba9876543210" "path.docx").
Defined.

Lemma notifying_the_pending_ids_empties_the_queue_witness :
  exists s',
    job_store.mark_as_notified (noon + 2) (pending_ids two_rows) two_rows
    = (Ok tt, s') /\
    job_store.get_unnotified_jobs s' = (Ok [], s').
Proof.
  destruct (@notifying_the_pending_ids_empties_the_queue (noon + 2) two_rows
              eq_refl two_rows_unique) as [s' [H1 [H2 _]]].
  exists s'. split; assumption.
Defined.

Lemma mark_resume_generated_then_lookup_witness :
  exists s',
    job_store.mark_resume_generated "ba9876543210" "path.docx" two_rows
    = (Ok tt, s') /\
    JobStore.get_job_by_id "ba9876543210" s'
    = (Ok (Some (job_store.set_resume "path.docx"
                   (job_store.job_row json_words iso_noon noon
                      (record "ba9876543210" "Dubai, UAE")))), s').
Proof.
  destruct (@mark_resume_generated_then_lookup "ba9876543210" "path.docx"
              two_rows
              (job_store.job_row json_words iso_noon noon
                 (record "ba9876543210" "Dubai, UAE"))
              eq_refl eq_refl) as [s' [H1 [H2 _]]].
  exists s'. split; assumption.
Defined.

Lemma filter_jobs_twice_is_once_witness :
  exists h' h'',
    base_scraper.filter_jobs quiet noon [0; 1; 2; 3; 4]%nat boundary
    = (Ok [0; 2; 4]%nat, h') /\
    base_scraper.filter_jobs quiet noon [0; 2; 4]%nat h'
    = (Ok [0; 2; 4]%nat, h'').
Proof.
  destruct (@filter_jobs_twice_is_once unit quiet noon
              [0; 1; 2; 3; 4]%nat boundary eq_refl)
    as [out [h' [h'' [H1 [H2 _]]]]].
  assert (Hout : out = [0; 2; 4]%nat).
  { assert (E : fst (base_scraper.filter_jobs quiet noon
                       [0; 1; 2; 3; 4]%nat boundary)
                = Ok [0; 2; 4]%nat) by (vm_compute; reflexivity).
    rewrite H1 in E. cbn [fst] in E. now injection E. }
  subst out. exists h', h''. split; assumption.
Defined.

Lemma later_filter_keeps_no_more_witness :
  base_scraper.too_old quiet (noon + us_per_day)
    (Some (naive (noon - 31 * us_per_day))) = Ok true.
Proof.
  destruct (@later_filter_keeps_no_more unit quiet noon (noon + us_per_day)
              ltac:(vm_compute; discriminate)) as [_ [H _]].
  apply H. reflexivity.
Defined.

Lemma run_scrapers_skips_failing_sources_witness :
  main.run_one noon_iso registry (fun _ => noon) 1 "meta" (main.mkRun abcd [])
  = (Ok tt, main.mkRun abcd []) /\
  main.run_one noon_iso registry (fun _ => noon) 2 "apple" (main.mkRun abcd [])
  = (Ok tt, main.mkRun abcd []).
Proof.
  destruct (@run_scrapers_skips_failing_sources unit noon_iso registry
              (fun _ => noon)) as [_ [_ [Hinst [Hsetup _]]]].
  split.
  - eapply (Hsetup 1%nat "meta" (main.mkRun abcd [])); reflexivity.
  - eapply (Hinst 2%nat "apple" (main.mkRun abcd [])); reflexivity.
Defined.

Lemma to_dict_then_add_job_stores_the_job_witness :
  exists s' row,
    job_store.add_job json_words iso_noon (noon + 5)
      (scraper_context.to_dict noon_iso
         (engineer "Berlin, Germany" (Some (naive noon))))
      job_store.empty_store = (Ok true, s') /\
    JobStore.get_job_by_id "0123456789ab" s' = (Ok (Some row), s') /\
    job_store.posted_date row = Some noon /\
    job_store.location row = "Berlin, Germany".
Proof.
  destruct (@to_dict_then_add_job_stores_the_job json_words iso_noon noon_iso
              (noon + 5) (engineer "Berlin, Germany" (Some (naive noon)))
              job_store.empty_store)
    as [s' [row [H1 [H2 [_ [_ [_ [Hloc [_ [_ [Hposted _]]]]]]]]]]].
  - reflexivity.
  - intros d H. inversion H. reflexivity.
  - reflexivity.
  - reflexivity.
  - reflexivity.
  - exists s', row. split; [exact H1|]. split; [exact H2|].
    split; [|exact Hloc].
    cbn [base_scraper.posted_date engineer] in Hposted.
    destruct (job_store.posted_date row) as [d|]; [|discriminate].
    now injection Hposted as ->.
Defined.

Lemma noon_far_from_min :
  datetime_min + 15 * us_per_day <= noon <= datetime_max.
Proof. split; discriminate. Qed.

Lemma estimated_dates_meet_the_age_filter_witness :
  exists jb,
    adapters.BaytScraper.parse_job no_details noon (noon + 1) bayt_card
    = Ok (Some jb) /\
    base_scraper.posted_date jb = Some (naive (noon - 7 * us_per_day)) /\
    classify (base_scraper.location jb) = (false, true) /\
    base_scraper.too_old quiet (noon + us_per_hour)
      (base_scraper.posted_date jb) = Ok false.
Proof.
  destruct (@estimated_dates_meet_the_age_filter no_details noon (noon + 1)
              bayt_card noon_far_from_min)
    as [jb [jg [jm [jn [Hb [_ [_ [_ [Pb [_ [_ [_ [Hloc Hage]]]]]]]]]]]]].
  exists jb. split; [exact Hb|]. split; [exact Pb|]. split.
  - apply Hloc. reflexivity.
  - destruct (Hage unit quiet (noon + us_per_hour)) as [_ [_ [H _]]];
      [vm_compute; discriminate|].
    apply H; [reflexivity | vm_compute; discriminate].
Defined.

Lemma relative_dates_are_never_in_the_future_witness :
  exists d, LinkedInScraper._parse_relative_date noon "Reposted 3 weeks ago"
            = Some d /\ datetime_min <= d <= noon.
Proof.
  destruct (@relative_dates_are_never_in_the_future noon noon_valid
              "Reposted 3 weeks ago") as [H _].
  exists (noon - 21 * us_per_day).
  assert (E : LinkedInScraper._parse_relative_date noon "Reposted 3 weeks ago"
              = Some (noon - 21 * us_per_day)) by (vm_compute; reflexivity).
  split; [exact E | exact (H _ E)].
Defined.

Lemma relative_dates_ignore_case_and_spacing_witness :
  LinkedInScraper._parse_relative_date noon "3 Days  Ago"
  = Some (noon - 3 * us_per_day) /\
  GoogleScraper._parse_date noon "12WEEKS ago"
  = Ok (Some (noon - 84 * us_per_day)).
Proof.
  assert (E1 : lower "3 Days  Ago" = spaced_form "3" " " "day" "s" "  ")
    by (vm_compute; reflexivity).
  assert (E2 : lower "12WEEKS ago" = spaced_form "12" "" "week" "s" " ")
    by (vm_compute; reflexivity).
  assert (N1 : is_number "3") by (split; [discriminate | reflexivity]).
  assert (N2 : is_number "12") by (split; [discriminate | reflexivity]).
  assert (B0 : blanks "") by reflexivity.
  assert (B1 : blanks " ") by (vm_compute; reflexivity).
  assert (B2 : blanks "  ") by (vm_compute; reflexivity).
  assert (P : In "s" [""; "s"]) by (simpl; auto).
  split.
  - destruct (@relative_dates_ignore_case_and_spacing noon noon_valid
                "3 Days  Ago" "3" " " "day" "s" "  " E1 N1 B1 B2 P) as [H _].
    rewrite H by (simpl; auto). vm_compute. reflexivity.
  - destruct (@relative_dates_ignore_case_and_spacing noon noon_valid
                "12WEEKS ago" "12" "" "week" "s" " " E2 N2 B0 B1 P)
      as [_ [H _]].
    rewrite H by (simpl; auto). vm_compute. reflexivity.
Defined.

Lemma normalize_location_keeps_normal_locations_witness :
  helpers.normalize_location (join " " ["Berlin,"; "Germany"])
  = join " " ["Berlin,"; "Germany"].
Proof.
  apply normalize_location_keeps_normal_locations.
  - repeat constructor; discriminate.
  - intros old new Hin. unfold helpers.mappings in Hin. cbn [In] in Hin.
    repeat (destruct Hin as [Hin|Hin]; [inversion Hin; reflexivity|]).
    contradiction.
Defined.

Lemma resume_paths_are_recorded_by_position_witness :
  exists s' ra,
    main_process.process_jobs true (Ok tt) picky
      [to_process "0123456789ab"; to_process "ba9876543210"]
    = Ok ["resumes/ba9876543210.docx"] /\
    main_process.mark_resumes 0
      [to_process "0123456789ab"; to_process "ba9876543210"]
      ["resumes/ba9876543210.docx"] two_rows = (Ok tt, s') /\
    JobStore.get_job_by_id "0123456789ab" s' = (Ok (Some ra), s') /\
    job_store.resume_path ra = Some "resumes/ba9876543210.docx".
Proof.
  destruct (@resume_paths_are_recorded_by_position unit picky tt) as [_ H].
  destruct (H (to_process "0123456789ab") (to_process "ba9876543210")
              "ValueError" "resumes/ba9876543210.docx" two_rows
              (job_store.set_notified (noon + 1)
                 (job_store.job_row json_words iso_noon noon
                    (record "0123456789ab" "Berlin, Germany")))
              (job_store.job_row json_words iso_noon noon
                 (record "ba9876543210" "Dubai, UAE"))
              two_rows_healthy)
    as [s' [H1 [H2 [H3 _]]]]; try reflexivity.
  - discriminate.
  - eexists; eexists. split; [exact H1|]. split; [exact H2|].
    split; [exact H3 | reflexivity].
Defined.

End FurtherRuns.

(* ===================================================================== *)
(** * What scrape returns                                                 *)
(* ===================================================================== *)

Section ScrapeOutput.
Import Py Props helpers base_scraper.
Variable raw : Type.
Variable self : BaseScraper raw.
Variable now : datetime.

Lemma insert_by_length {A} (key : A -> bool * bool) (x : A) (l : list A) :
  List.length (insert_by key x l) = S (List.length l).
Proof.
  induction l as [|y l IH]; [reflexivity|]. cbn [insert_by].
  destruct (key_lt (key y) (key x)); cbn [List.length]; now rewrite ?IH.
Qed.

Lemma sort_by_length {A} (key : A -> bool * bool) (l : list A) :
  List.length (sort_by key l) = List.length l.
Proof.
  induction l as [|x l IH]; [reflexivity|].
  cbn [sort_by fold_right]. fold (sort_by key l).
  now rewrite insert_by_length, IH.
Qed.

Lemma parse_loop_length (raw_jobs : list raw) :
  forall jobs h out h',
    parse_loop self raw_jobs jobs h = (Ok out, h') ->
    (List.length out <= List.length jobs + List.length raw_jobs)%nat.
Proof.
  induction raw_jobs as [|r raw_jobs IH]; intros jobs h out h'.
  - cbn [parse_loop]. unfold ret. intros H; inversion H; subst.
    cbn [List.length]. lia.
  - cbn [parse_loop]. unfold bind.
    destruct (parse_job self r h) as [[[a|]|e] h1]; [| |discriminate].
    + intros H. apply IH in H. rewrite length_app in H.
      cbn [List.length] in *. lia.
    + intros H. apply IH in H. cbn [List.length]. lia.
Qed.

Lemma kept_jobs_length (h : Heap) (jobs : list addr) :
  (List.length (kept_jobs self now h jobs) <= List.length jobs)%nat.
Proof.
  unfold kept_jobs. induction jobs as [|a jobs IH]; [apply Nat.le_refl|].
  cbn [filter]. destruct (keep self now (h a)); cbn [List.length]; lia.
Qed.

(** X15.  Whatever the adapter does, a job that [scrape] returns has
    passed the filter and carries its classification: its title matches
    and it is not too old at the clock reading of the run, its
    [posted_date] is absent or naive, and its two flags are the
    classification of its location.  A result that is not empty comes
    from a [fetch_jobs] that returned, and it has no more jobs than
    [fetch_jobs] gave raw records. *)
Theorem scrape_returns_filtered_classified_jobs
  (h : Heap) (out : list addr) (h' : Heap) :
  scrape self now h = (Ok out, h') ->
  (forall a, In a out ->
     keep self now (h' a) = true /\
     is_aware (posted_date (h' a)) = false /\
     (is_eu (h' a), is_uae (h' a)) = classify (location (h' a))) /\
  (out = [] \/
   exists raw_jobs h1,
     fetch_jobs self h = (Ok raw_jobs, h1) /\
     (List.length out <= List.length raw_jobs)%nat).
Proof.
  unfold scrape, try_except_Exception, bind.
  destruct (fetch_jobs self h) as [[raw_jobs|[c|c]] h1].
  - destruct (parse_loop self raw_jobs [] h1) as [[jobs|[c|c]] h2] eqn:Ep.
    + destruct (blocked self h2 jobs) eqn:Hb.
      { destruct (filter_jobs_stops self now jobs h2 Hb) as [h3 ->].
        unfold ret. intros H; inversion H; subst.
        split; [intros a []| now left]. }
      destruct (filter_jobs_run self now jobs h2 Hb) as [h3 [Hrun Hh3]].
      rewrite Hrun. unfold ret. intros H; inversion H; subst out h'. split.
      * intros a Ha. apply sort_by_In in Ha.
        rewrite Hh3, (mark_all_kept _ _ _ Ha).
        apply kept_jobs_In in Ha as [_ Hk].
        split; [now rewrite keep_mark|]. split; [|reflexivity].
        exact (keep_not_aware self now (h2 a) Hk).
      * right. exists raw_jobs, h1. split; [reflexivity|].
        rewrite sort_by_length.
        pose proof (kept_jobs_length h2 jobs).
        pose proof (parse_loop_length _ _ _ Ep). cbn [List.length] in *. lia.
    + unfold ret. intros H; inversion H; subst.
      split; [intros a []| now left].
    + discriminate.
  - unfold ret. intros H; inversion H; subst.
    split; [intros a []| now left].
  - discriminate.
Qed.

End ScrapeOutput.

Section ScrapeOutputRuns.
Import Py Props helpers base_scraper Examples Samples.

Lemma scrape_returns_filtered_classified_jobs_witness :
  fst (scrape listing noon boundary) = Ok [0%nat; 2%nat; 4%nat] /\
  Forall (fun a =>
    keep listing noon (snd (scrape listing noon boundary) a) = true /\
    is_aware (posted_date (snd (scrape listing noon boundary) a)) = false /\
    (is_eu (snd (scrape listing noon boundary) a),
     is_uae (snd (scrape listing noon boundary) a)) =
    classify (location (snd (scrape listing noon boundary) a)))
    [0%nat; 2%nat; 4%nat].
Proof.
  destruct (scrape listing noon boundary) as [res h'] eqn:E.
  assert (R : res = Ok [0%nat; 2%nat; 4%nat]).
  { change res with (fst (res, h')). rewrite <- E. vm_compute. reflexivity. }
  subst res. cbn [fst snd]. split; [reflexivity|].
  apply Forall_forall.
  exact (proj1 (@scrape_returns_filtered_classified_jobs
                  nat listing noon boundary _ h' E)).
Defined.

End ScrapeOutputRuns.

(* ===================================================================== *)
(** * The dates of LinkedIn                                               *)
(* ===================================================================== *)

Section LinkedInJobs.
Import Py Props helpers base_scraper adapters linkedin_scraper.
Local Open Scope string_scope.
Variable fromisoformat : string -> result any_datetime.
Variable now scraped : datetime.

(** X16.  LinkedIn's [parse_job] always builds a job.  It dates the job
    by the ISO reading of the listing's date, a final "Z" written as
    "+00:00", whenever [fromisoformat] accepts it, and keeps what
    [fromisoformat] returns, an aware datetime included; only when
    [fromisoformat] raises does it use the relative-date parser; with no
    date in the listing the job has none.  A job it dated with an aware
    datetime stops the filter of any scraper whose titles match it:
    [filter_jobs] raises [TypeError] on every list that holds it. *)
Theorem linkedin_dates_are_read_as_iso_first (raw_job : RawJob) :
  exists j,
    parse_job fromisoformat now scraped raw_job = Ok (Some j) /\
    (forall s d,
       raw_posted_date raw_job = Some s -> s <> EmptyString ->
       fromisoformat (replace "Z" "+00:00" s) = Ok d ->
       posted_date j = Some d) /\
    (forall s e,
       raw_posted_date raw_job = Some s -> s <> EmptyString ->
       fromisoformat (replace "Z" "+00:00" s) = Raise e ->
       posted_date j
       = option_map naive (LinkedInScraper._parse_relative_date now s)) /\
    (raw_posted_date raw_job = None \/
     raw_posted_date raw_job = Some EmptyString ->
     posted_date j = None) /\
    (forall (raw : Type) (self : BaseScraper raw) now2 jobs h a,
       In a jobs -> h a = j ->
       title_match self (title j) = true ->
       is_aware (posted_date j) = true ->
       exists h',
         filter_jobs self now2 jobs h = (Raise (PyException "TypeError"), h')).
Proof.
  unfold parse_job. cbv zeta. cbn [except_Exception].
  eexists. split; [reflexivity|].
  cbn [posted_date title]. unfold read_date.
  split; [|split; [|split]].
  - intros s d Hs Hne Hiso. rewrite Hs. destruct s; [contradiction|].
    cbn [truthy dict_get]. now rewrite Hiso.
  - intros s e Hs Hne Hiso. rewrite Hs. destruct s; [contradiction|].
    cbn [truthy dict_get]. now rewrite Hiso.
  - intros [->| ->]; reflexivity.
  - intros raw self now2 jobs h a Ha Hj Ht Haw.
    apply filter_jobs_stops. unfold blocked. apply existsb_exists.
    exists a. split; [assumption|]. unfold stops. rewrite Hj.
    cbn [title posted_date]. unfold read_date. now rewrite Ht, Haw.
Qed.

End LinkedInJobs.

Section LinkedInRuns.
Import Py Props helpers base_scraper Examples Samples.
Local Open Scope string_scope.
Local Open Scope Z_scope.

Lemma linkedin_dates_are_read_as_iso_first_witness :
  exists j1 j2,
    linkedin_scraper.parse_job iso_utc noon noon stamped_card = Ok (Some j1) /\
    posted_date j1 = Some (aware (noon - us_per_day) 0) /\
    (exists h', filter_jobs quiet noon [0%nat] (heap_of [j1])
                = (Raise (PyException "TypeError"), h')) /\
    linkedin_scraper.parse_job iso_utc noon noon relative_card = Ok (Some j2) /\
    posted_date j2 = Some (naive (noon - 3 * us_per_day)).
Proof.
  destruct (linkedin_dates_are_read_as_iso_first iso_utc noon noon stamped_card)
    as [j1 [P1 [Hiso1 [_ [_ Hstop]]]]].
  destruct (linkedin_dates_are_read_as_iso_first iso_utc noon noon relative_card)
    as [j2 [P2 [_ [Hrel2 _]]]].
  assert (D1 : posted_date j1 = Some (aware (noon - us_per_day) 0)).
  { apply (Hiso1 "2024-04-24T12:00:00Z");
      [reflexivity | discriminate | vm_compute; reflexivity]. }
  assert (T1 : title j1 = "Senior Data Engineer II"%string).
  { assert (E : linkedin_scraper.parse_job iso_utc noon noon stamped_card
                = Ok (Some j1)) by exact P1.
    unfold linkedin_scraper.parse_job in E. cbv zeta in E.
    cbn [except_Exception] in E. injection E as <-. reflexivity. }
  exists j1, j2. split; [exact P1|]. split; [exact D1|].
  split; [|split; [exact P2|]].
  - apply (Hstop unit quiet noon [0%nat] (heap_of [j1]) 0%nat).
    + now left.
    + reflexivity.
    + rewrite T1. reflexivity.
    + now rewrite D1.
  - rewrite (Hrel2 "3 days ago" (PyException "ValueError"));
      [vm_compute; reflexivity | reflexivity | discriminate
       | vm_compute; reflexivity].
Defined.

End LinkedInRuns.
